(** * Governance and cross-chain relay: a shallow embedding

    The development follows two source files:
    - [smartcontract/service/native/cross_chain_manager/btc/btc.go]
      (module [Btc]): the verifier [verifyBtcTx] and the transaction
      builder [makeBtcTx];
    - [native/service/governance/node_manager/node_manager.go]
      (module [NodeManager]): the peer-pool state machine.

    Go's fixed-width integers are modelled on [Z] with the wrap-around
    written out; byte slices are [list byte]; Go maps are [gmap]s; a
    handler that writes to the cache database is a function from the
    store to the new store and a result. *)

From Stdlib Require Import ZArith Lia List Bool Ascii String.
From Stdlib Require Import Strings.Byte.
From stdpp Require Import base decidable countable gmap strings list fin_maps.

Local Open Scope string_scope.
Local Open Scope Z_scope.

(** ** Machine integers *)

Definition uint32 (z : Z) : Z := z mod 2 ^ 32.
Definition uint64 (z : Z) : Z := z mod 2 ^ 64.
(** Two's complement: the value of the low 64 bits read as signed. *)
Definition int64 (z : Z) : Z := (z + 2 ^ 63) mod 2 ^ 64 - 2 ^ 63.

(** ** Byte slices *)

Abbreviation bytes := (list byte).

#[global] Instance byte_eq_dec : EqDecision byte := Byte.byte_eq_dec.
#[global] Instance byte_countable : Countable byte :=
  inj_countable Byte.to_N Byte.of_N Byte.of_to_N.

(** [bytes.Equal]: a nil slice and an empty slice are equal. *)
Definition bytes_Equal (a b : bytes) : bool := bool_decide (a = b).

(** [utils.ConcatKey]: the arguments appended in order. *)
Definition ConcatKey (contract : bytes) (args : list bytes) : bytes :=
  contract ++ concat args.

(** ** Results and the store-passing monad *)

Inductive Result (A : Type) : Type :=
| Ok (a : A)
| Err (msg : string).
Arguments Ok {A} a.
Arguments Err {A} msg.

Definition is_Ok {A} (r : Result A) : bool :=
  match r with Ok _ => true | Err _ => false end.

(** A handler threads the store [S]; an error keeps the store as the
    handler left it, exactly as the Go code returns with whatever it
    has already put into the cache. *)
Definition M (S A : Type) : Type := S -> S * Result A.

#[global] Instance M_ret {S} : MRet (M S) := fun A a s => (s, Ok a).
#[global] Instance M_bind {S} : MBind (M S) := fun A B k m s =>
  match m s with
  | (s', Ok a) => k a s'
  | (s', Err e) => (s', Err e)
  end.

Definition fail {S A} (msg : string) : M S A := fun s => (s, Err msg).
Definition gets {S A} (f : S -> A) : M S A := fun s => (s, Ok (f s)).
Definition modify {S} (f : S -> S) : M S unit := fun s => (f s, Ok tt).
(** [orErr o msg]: the Go idiom [v, err := f(); if err != nil { return msg }]. *)
Definition orErr {S A} (o : option A) (msg : string) : M S A :=
  match o with Some a => mret a | None => fail msg end.
(** [catch m]: run [m] and hand its result, error or not, to the caller
    ([ok, p, err := f(...)] followed by a test of [err]). *)
Definition catch {S A} (m : M S A) : M S (Result A) :=
  fun s => let '(s', r) := m s in (s', Ok r).
(** [withErr m msg]: [v, err := m(); if err != nil { return msg }], the
    cause replaced by the caller's message. *)
Definition withErr {S A} (m : M S A) (msg : string) : M S A :=
  fun s => match m s with
           | (s', Ok a) => (s', Ok a)
           | (s', Err _) => (s', Err msg)
           end.
(** [liftR f]: a call that reads the store and returns a value or an
    error. *)
Definition liftR {S A} (f : S -> Result A) : M S A := fun s => (s, f s).
(** [failIf b msg]: [if b { return msg }]. *)
Definition failIf {S} (b : bool) (msg : string) : M S unit :=
  if b then fail msg else mret tt.

(** ** [encoding/hex] *)

Definition fromHexChar (c : ascii) : option N :=
  let n := N_of_ascii c in
  if ((48 <=? n) && (n <=? 57))%N then Some (n - 48)%N
  else if ((97 <=? n) && (n <=? 102))%N then Some (n - 97 + 10)%N
  else if ((65 <=? n) && (n <=? 70))%N then Some (n - 65 + 10)%N
  else None.

Definition byte_of_nibbles (hi lo : N) : byte :=
  match Byte.of_N (16 * hi + lo) with Some b => b | None => x00 end.

(** [hex.DecodeString]: [None] on an odd length or a character that is
    not a hexadecimal digit. *)
Fixpoint hex_DecodeString (s : string) : option bytes :=
  match s with
  | EmptyString => Some []
  | String _ EmptyString => None
  | String a (String b rest) =>
      match fromHexChar a, fromHexChar b, hex_DecodeString rest with
      | Some hi, Some lo, Some r => Some (byte_of_nibbles hi lo :: r)
      | _, _, _ => None
      end
  end.

Definition toHexChar (n : N) : ascii :=
  ascii_of_N (if (n <? 10)%N then 48 + n else 97 + (n - 10))%N.

(** [hex.EncodeToString]: two lower-case digits per byte. *)
Fixpoint hex_EncodeToString (b : bytes) : string :=
  match b with
  | [] => EmptyString
  | x :: r =>
      let n := Byte.to_N x in
      String (toHexChar (n / 16)) (String (toHexChar (n mod 16)) (hex_EncodeToString r))
  end.

(** * The Bitcoin handler ([btc.go]) *)

Module Btc.

Definition BTC_ADDRESS : string := "btc".

(** [btcutil.MaxSatoshi = 21e6 * 1e8]. *)
Definition MaxSatoshi : Z := 2100000000000000.

(** The parts of [wire.MsgTx] the handler touches. *)
Record TxOut := { Value : Z; PkScript : bytes }.
Record MsgTx := { TxIn : list bytes; TxOut_ : list TxOut }.

(** The parts of [wire_bch.MsgMerkleBlock] the handler touches. *)
Record MsgMerkleBlock := { Transactions : Z; Hashes : list bytes; Flags : bytes }.

Record targetChainParam := { ChainId : Z; Addr : bytes; tcpValue : Z }.

Record EntranceParam :=
  { SourceChainID : Z; Height : Z; Proof : string; TxData : string }.

Record MakeTxParam :=
  { FromChainID : Z; FromContractAddress : string; ToChainID : Z;
    ToAddress : string; Amount : Z }.

(** The record kept by the side-chain manager; only the confirmation
    depth is read here.  Its declaration is not part of the sources at
    hand; [BlocksToWait] is taken as an unsigned 64-bit field, and the
    conversion [uint32(BlocksToWait-1)] gives the same value for every
    integer type of at least 32 bits. *)
Record SideChain := { BlocksToWait : Z }.

Record NotifyEventInfo := { ContractAddress : bytes; States : list string }.

(** The state a call works on: the cache database, the notifications
    collected so far and the pre-execution flag. *)
Record NativeService :=
  { CacheDB : gmap bytes bytes;
    Notifications : list NotifyEventInfo;
    PreExec : bool }.

Definition CacheDB_Put (k v : bytes) (s : NativeService) : NativeService :=
  {| CacheDB := <[k := v]> (CacheDB s);
     Notifications := Notifications s;
     PreExec := PreExec s |}.

(** [CacheDB.Get]: the overlay itself never fails in this model, the
    error result is kept so that callers read as in the source. *)
Definition CacheDB_Get (k : bytes) (s : NativeService) : Result (option bytes) :=
  Ok (CacheDB s !! k).

Definition notify (e : NotifyEventInfo) (s : NativeService) : NativeService :=
  {| CacheDB := CacheDB s;
     Notifications := Notifications s ++ [e];
     PreExec := PreExec s |}.

(** The wire codecs, the script helpers of the package and its
    constants: deterministic functions whose code is outside the two
    files modelled here, taken as parameters. *)
Record Codec :=
  { BtcDecode : bytes -> option MsgTx;
    BtcEncode : MsgTx -> option bytes;
    TxHash : MsgTx -> bytes;
    BchDecode : bytes -> option MsgMerkleBlock;
    (** [checkTxOutputs(mtx, getPubKeys(), REQUIRE)] *)
    checkTxOutputs : MsgTx -> Result bool;
    (** [param.resolve(amount, paramOutput)] *)
    resolve : Z -> TxOut -> option targetChainParam;
    (** The merkle block after [ExtractMatches]: the computed root, the
        bad-tree flag and the matched hashes. *)
    ExtractMatches : MsgMerkleBlock -> option bytes;
    BadTree : MsgMerkleBlock -> bool;
    GetMatches : MsgMerkleBlock -> list bytes;
    (** [buildScript(getPubKeys(), REQUIRE)] *)
    buildScript : option bytes;
    (** [btcutil.NewAddressScriptHash(script, netParam)] then [EncodeAddress] *)
    NewAddressScriptHash : bytes -> option string;
    (** [btcutil.DecodeAddress] then [txscript.PayToAddrScript] *)
    PayToAddrScript : string -> option bytes;
    (** [hex.DecodeString(inf.Key_prefix_BTC)] *)
    Key_prefix_BTC : bytes;
    CrossChainManagerContractAddress : bytes;
    BTC_TX_PREFIX : bytes;
    FEE : Z;
    (** [common.Address.ToBase58] *)
    ToBase58 : bytes -> string }.

(** The answers of the SPV client and of the side-chain manager during
    one call. *)
Record Spv :=
  { GetCurrentHeightFromSpv : option Z;
    GetHeaderFromSpv : Z -> option bytes;
    GetUtxosFromSpv : string -> Z -> Z -> bool -> option (list bytes * Z);
    GetSideChain : Z -> option SideChain;
    GetAssetContractAddress : Z -> Z -> string -> option string }.

Section Handler.
Context (c : Codec) (spv : Spv).

(** The replay-guard key of a transaction id. *)
Definition replayKey (txid : bytes) : bytes :=
  ConcatKey (CrossChainManagerContractAddress c) [Key_prefix_BTC c; txid].

(** The confirmation-depth comparison of line 109,
    [besth-height < uint32(sideChain.BlocksToWait-1)], in [uint32]. *)
Definition notConfirmed (besth height : Z) (sideChain : SideChain) : bool :=
  uint32 (besth - height) <? uint32 (uint64 (BlocksToWait sideChain - 1)).

(** The loop of lines 129-134. *)
Definition isExist (txid : bytes) (mb : MsgMerkleBlock) : bool :=
  existsb (fun hash => bytes_Equal hash txid) (Hashes mb).

Definition verifyBtcTx (proof tx : bytes) (height btcChainID : Z)
  : M NativeService targetChainParam :=
  besth ← orErr (GetCurrentHeightFromSpv spv)
    "verifyBtcTx, failed to get current height from spv";
  sideChain ← orErr (GetSideChain spv btcChainID)
    "verifyBtcTx, side_chain_manager.GetSideChain error";
  failIf (notConfirmed besth height sideChain)
    "verifyBtcTx, transaction is not confirmed";;
  mtx ← orErr (BtcDecode c tx) "verifyBtcTx, failed to decode the transaction";
  mb ← orErr (BchDecode c proof) "verifyBtcTx, failed to decode proof";
  let txid := TxHash c mtx in
  failIf (negb (isExist txid mb)) "verifyBtcTx, transaction not found in proof";;
  let key := replayKey txid in
  val ← withErr (liftR (CacheDB_Get key)) "verifyBtcTx, failed to get verified transaction";
  failIf (bool_decide (val = Some [x01])) "verifyBtcTx, transaction already exist";;
  (* ok != true || err != nil *)
  failIf (negb (match checkTxOutputs c mtx with Ok true => true | _ => false end))
    "verifyBtcTx, wrong outputs";;
  (* mtx.TxOut[0], mtx.TxOut[1]: an index out of range panics *)
  out0 ← orErr (TxOut_ mtx !! 0%nat) "panic: index out of range";
  out1 ← orErr (TxOut_ mtx !! 1%nat) "panic: index out of range";
  param ← orErr (resolve c (Value out0) out1) "verifyBtcTx, failed to resolve parameter";
  failIf (bool_decide (ExtractMatches c mb = None) || BadTree c mb
          || bool_decide (length (GetMatches c mb) = 0%nat))
    "verifyBtcTx, bad merkle tree";;
  header ← orErr (GetHeaderFromSpv spv height)
    "verifyBtcTx, failed to get header from spv client";
  failIf (negb (bool_decide (ExtractMatches c mb = Some header)))
    "verifyBtcTx, merkle root not equal";;
  modify (CacheDB_Put key [x01]);;
  mret param.

(** [BTCHandler.Verify]; [params] is the outcome of deserialising the
    call's input, [None] when that fails. *)
Definition Verify (params : option EntranceParam) : M NativeService MakeTxParam :=
  params ← orErr params "btc Verify, contract params deserialize error";
  failIf (bool_decide (Proof params = EmptyString) || bool_decide (TxData params = EmptyString))
    "btc Verify, input data can't be empty";;
  tx ← orErr (hex_DecodeString (TxData params))
    "btc Verify, failed to decode transaction from string to bytes";
  proof ← orErr (hex_DecodeString (Proof params))
    "btc Verify, failed to decode proof from string to bytes";
  r ← catch (verifyBtcTx proof tx (Height params) (SourceChainID params));
  match r with
  | Err _ => fail "btc Verify, failed to verify"
  | Ok p =>
      mret {| FromChainID := SourceChainID params;
              FromContractAddress := BTC_ADDRESS;
              ToChainID := ChainId p;
              ToAddress := ToBase58 c (Addr p);
              Amount := tcpValue p |}
  end.

(** The validation loop of lines 184-190 over the entries of the map
    in the order the iteration visits them; the running total is an
    [int64]. *)
Fixpoint sumAmounts (entries : list (string * Z)) (amountSum : Z) : Result Z :=
  match entries with
  | [] => Ok amountSum
  | (_, a) :: rest =>
      if (a <=? 0) || (a >? MaxSatoshi) then Err "makeBtcTx, wrong amount"
      else sumAmounts rest (int64 (amountSum + a))
  end.

(** Modelled from the spec: [getUnsignedTx] is not among the sources at
    hand.  Section 4.2, step 6: one input per selected output, one
    output per destination address, one change output back to the
    custody address if [change > 0]. *)
Definition getUnsignedTx (txIns : list bytes) (amounts : gmap string Z)
    (change : Z) (script : bytes) : option MsgTx :=
  outs ← mapM (fun '(addr, a) =>
                 pk ← PayToAddrScript c addr;
                 Some {| Value := a; PkScript := pk |})
              (map_to_list amounts);
  changeOut ← (if 0 <? change
               then addr ← NewAddressScriptHash c script;
                    pk ← PayToAddrScript c addr;
                    Some [ {| Value := change; PkScript := pk |} ]
               else Some []);
  Some {| TxIn := txIns; TxOut_ := outs ++ changeOut |}.

Definition makeBtcTx (amounts : gmap string Z) : M NativeService unit :=
  failIf (bool_decide (size amounts = 0%nat)) "makeBtcTx, input no amount";;
  amountSum ← liftR (fun _ => sumAmounts (map_to_list amounts) 0);
  failIf (amountSum >? MaxSatoshi) "makeBtcTx, sum of amounts exceeds the MaxSatoshi";;
  script ← orErr (buildScript c) "makeBtcTx, failed to get multiPk-script";
  addr ← orErr (NewAddressScriptHash c script)
    "makeBtcTx, failed to decode script to address";
  preExec ← gets PreExec;
  utxos ← orErr (GetUtxosFromSpv spv addr amountSum (FEE c) preExec)
    "makeBtcTx, failed to get utxo from spv";
  let txIns := utxos.1 in
  let sum := utxos.2 in
  failIf ((sum <=? 0) || bool_decide (length txIns = 0%nat)) "makeBtcTx, utxo not found";;
  let change := int64 (sum - amountSum - FEE c) in
  failIf (change <? 0) "makeBtcTx, not enough utxos";;
  mtx ← orErr (getUnsignedTx txIns amounts change script)
    "makeBtcTx, get rawtransaction fail";
  buf ← orErr (BtcEncode c mtx) "makeBtcTx, serialize rawtransaction fail";
  modify (CacheDB_Put (BTC_TX_PREFIX c) buf);;
  modify (notify {| ContractAddress := CrossChainManagerContractAddress c;
                    States := ["makeBtcTx"; hex_EncodeToString buf] |});;
  mret tt.

(** [BTCHandler.MakeTransaction]: a single destination, its amount the
    low 64 bits of the big integer ([big.Int.Int64]). *)
Definition MakeTransaction (param : MakeTxParam) : M NativeService unit :=
  let amounts : gmap string Z := {[ ToAddress param := int64 (Amount param) ]} in
  destContractAddr ← orErr (GetAssetContractAddress spv (FromChainID param)
                               (ToChainID param) (FromContractAddress param))
    "btc MakeTransaction, side_chain_manager.GetAssetContractAddress error";
  failIf (negb (bool_decide (destContractAddr = "btc")))
    "btc MakeTransaction, destContractAddr is not btc";;
  withErr (makeBtcTx amounts) "btc MakeTransaction, failed to make transaction".

End Handler.

(** ** Vocabulary of the statements *)

(** The sum of the amounts on the integers. *)
Definition sumValues (entries : list (string * Z)) : Z :=
  foldr (fun p acc => p.2 + acc) 0 entries.

(** An amount the validation loop lets through. *)
Definition validAmount (p : string * Z) : Prop := 0 < p.2 <= MaxSatoshi.

(** The total paid by the outputs of a transaction. *)
Definition outputsTotal (mtx : MsgTx) : Z :=
  foldr Z.add 0 (map Value (TxOut_ mtx)).

End Btc.

(** * The node manager ([node_manager.go]) *)

Module NodeManager.

Inductive Status := CandidateStatus | ConsensusStatus | QuitingStatus | BlackStatus.

#[global] Instance Status_eq_dec : EqDecision Status.
Proof. solve_decision. Defined.

Record PeerPoolItem :=
  { Index : Z; PeerPubkey : string; Address : bytes; Status_ : Status;
    Pos : Z; LockPos : Z }.

Record GovernanceView := { View : Z; gvHeight : Z; gvTxHash : bytes }.

Record Configuration :=
  { N : Z; C : Z; K : Z; L : Z; BlockMsgDelay : Z; HashMsgDelay : Z;
    PeerHandshakeTimeout : Z; MaxBlockChangeView : Z }.

(** [Configuration_] is a pointer in the source and may be nil. *)
Record PreConfig := { Configuration_ : option Configuration; SetView : Z }.

Record GlobalParam := { MinInitStake : Z; CandidateNum : Z }.

Record BlackListItem := { blPeerPubkey : string; blAddress : bytes; blPos : Z }.

(** The parameters of the calls. *)
Record RegisterPeerParam := { rpPeerPubkey : string; rpAddress : bytes; rpPos : Z }.
Record PeerParam := { ppPeerPubkey : string }.
Record PeerParam2 := { p2PeerPubkey : string; p2Address : bytes }.
Record PeerListParam := { PeerPubkeyList : list string }.

(** The cache database as the contract sees it, one field per key
    prefix: [governanceView], [vbftConfig], [preConfig], [globalParam],
    [candidateIndex], [peerPool] by view, and [peerApply], [peerIndex],
    [blackList] by the decoded public key.  [balances] is the ledger of
    the asset contract the stake is escrowed in. *)
Record Store :=
  { governanceView : option GovernanceView;
    vbftConfig : option Configuration;
    preConfig : option PreConfig;
    globalParam : option GlobalParam;
    candidateIndex : option Z;
    peerPool : gmap Z (gmap string PeerPoolItem);
    peerApply : gmap bytes RegisterPeerParam;
    peerIndex : gmap bytes Z;
    blackList : gmap bytes BlackListItem;
    balances : gmap bytes Z }.

Definition set_preConfig (v : option PreConfig) (s : Store) : Store :=
  {| governanceView := governanceView s; vbftConfig := vbftConfig s; preConfig := v;
     globalParam := globalParam s; candidateIndex := candidateIndex s;
     peerPool := peerPool s; peerApply := peerApply s; peerIndex := peerIndex s;
     blackList := blackList s; balances := balances s |}.
Definition set_globalParam (v : option GlobalParam) (s : Store) : Store :=
  {| governanceView := governanceView s; vbftConfig := vbftConfig s; preConfig := preConfig s;
     globalParam := v; candidateIndex := candidateIndex s;
     peerPool := peerPool s; peerApply := peerApply s; peerIndex := peerIndex s;
     blackList := blackList s; balances := balances s |}.
Definition set_candidateIndex (v : option Z) (s : Store) : Store :=
  {| governanceView := governanceView s; vbftConfig := vbftConfig s; preConfig := preConfig s;
     globalParam := globalParam s; candidateIndex := v;
     peerPool := peerPool s; peerApply := peerApply s; peerIndex := peerIndex s;
     blackList := blackList s; balances := balances s |}.
Definition set_peerPool (v : gmap Z (gmap string PeerPoolItem)) (s : Store) : Store :=
  {| governanceView := governanceView s; vbftConfig := vbftConfig s; preConfig := preConfig s;
     globalParam := globalParam s; candidateIndex := candidateIndex s;
     peerPool := v; peerApply := peerApply s; peerIndex := peerIndex s;
     blackList := blackList s; balances := balances s |}.
Definition set_peerApply (v : gmap bytes RegisterPeerParam) (s : Store) : Store :=
  {| governanceView := governanceView s; vbftConfig := vbftConfig s; preConfig := preConfig s;
     globalParam := globalParam s; candidateIndex := candidateIndex s;
     peerPool := peerPool s; peerApply := v; peerIndex := peerIndex s;
     blackList := blackList s; balances := balances s |}.
Definition set_peerIndex (v : gmap bytes Z) (s : Store) : Store :=
  {| governanceView := governanceView s; vbftConfig := vbftConfig s; preConfig := preConfig s;
     globalParam := globalParam s; candidateIndex := candidateIndex s;
     peerPool := peerPool s; peerApply := peerApply s; peerIndex := v;
     blackList := blackList s; balances := balances s |}.
Definition set_blackList (v : gmap bytes BlackListItem) (s : Store) : Store :=
  {| governanceView := governanceView s; vbftConfig := vbftConfig s; preConfig := preConfig s;
     globalParam := globalParam s; candidateIndex := candidateIndex s;
     peerPool := peerPool s; peerApply := peerApply s; peerIndex := peerIndex s;
     blackList := v; balances := balances s |}.
Definition set_balances (v : gmap bytes Z) (s : Store) : Store :=
  {| governanceView := governanceView s; vbftConfig := vbftConfig s; preConfig := preConfig s;
     globalParam := globalParam s; candidateIndex := candidateIndex s;
     peerPool := peerPool s; peerApply := peerApply s; peerIndex := peerIndex s;
     blackList := blackList s; balances := v |}.

(** What a call sees besides the store: the witnesses of the
    transaction, the operator derived from the genesis bookkeepers
    ([None] when [types.AddressFromBookkeepers] fails), the block
    height, and the two helpers of package [utils] that are not part of
    the file: the public-key format check and the contract's account. *)
Record NativeService :=
  { CheckWitness : bytes -> bool;
    AddressFromBookkeepers : option bytes;
    GetHeight : Z;
    ValidatePeerPubKeyFormat : string -> bool;
    NodeManagerContractAddress : bytes }.

(** [common.AddressParseFromBytes]: an address has 20 bytes. *)
Definition AddressParseFromBytes (b : bytes) : option bytes :=
  if bool_decide (length b = 20%nat) then Some b else None.

(** [utils.ValidateOwner]: [true] when the address is a witness. *)
Definition ValidateOwner (native : NativeService) (address : bytes) : bool :=
  CheckWitness native address.

(** ** The accessors of the package

    The accessors live in a file of the package that is not at hand. *)

(** Modelled from the spec: [GetGovernanceView] reads the record under
    [governanceView] (section 3) and fails when there is none. *)
Definition GetGovernanceView : M Store GovernanceView :=
  gv ← gets governanceView; orErr gv "getGovernanceView, get governanceView error".

(** Modelled from the spec: [GetView] is the view of the governance view. *)
Definition GetView : M Store Z := gv ← GetGovernanceView; mret (View gv).

(** Modelled from the spec: [GetPeerPoolMap] reads the peer pool map of
    a view (section 3: the map is versioned by view). *)
Definition GetPeerPoolMap (view : Z) : M Store (gmap string PeerPoolItem) :=
  pp ← gets peerPool; orErr (pp !! view) "getPeerPoolMap, peerPoolMap is nil".

(** Modelled from the spec: [putPeerPoolMap] stores the map of a view. *)
Definition putPeerPoolMap (m : gmap string PeerPoolItem) (view : Z) : M Store unit :=
  modify (fun s => set_peerPool (<[view := m]> (peerPool s)) s).

(** Modelled from the spec: [GetConfig] reads the active configuration. *)
Definition GetConfig : M Store Configuration :=
  cfg ← gets vbftConfig; orErr cfg "getConfig, get config error".

(** Modelled from the spec: [getPreConfig] reads the staged
    configuration; when nothing is staged the result is the zero value,
    set at view 0 with no configuration. *)
Definition getPreConfig : M Store PreConfig :=
  pc ← gets preConfig;
  mret (match pc with
        | Some p => p
        | None => {| Configuration_ := None; SetView := 0 |}
        end).

(** Modelled from the spec: [putPreConfig] stores the staged configuration. *)
Definition putPreConfig (p : PreConfig) : M Store unit :=
  modify (set_preConfig (Some p)).

(** Modelled from the spec: [getGlobalParam] and [putGlobalParam]. *)
Definition getGlobalParam : M Store GlobalParam :=
  gp ← gets globalParam; orErr gp "getGlobalParam, get globalParam error".
Definition putGlobalParam (g : GlobalParam) : M Store unit :=
  modify (set_globalParam (Some g)).

(** Modelled from the spec: the allocator of peer indices (section 3). *)
Definition getCandidateIndex : M Store Z :=
  ci ← gets candidateIndex; orErr ci "getCandidateIndex, get candidateIndex error".
Definition putCandidateIndex (i : Z) : M Store unit :=
  modify (set_candidateIndex (Some i)).

(** Modelled from the spec: [GetPeeApply] looks the application up
    under the decoded public key; [putPeerApply] stores it there. *)
Definition GetPeeApply (peerPubkey : string) : M Store (option RegisterPeerParam) :=
  prefix ← orErr (hex_DecodeString peerPubkey) "getPeerApply, peerPubkey format error";
  pa ← gets peerApply; mret (pa !! prefix).
Definition putPeerApply (params : RegisterPeerParam) : M Store unit :=
  prefix ← orErr (hex_DecodeString (rpPeerPubkey params))
    "putPeerApply, peerPubkey format error";
  modify (fun s => set_peerApply (<[prefix := params]> (peerApply s)) s).

(** Modelled from the spec: [appCallTransferOnt] is the asset transfer
    collaborator of section 6, [Transfer(from, to, amount) -> error]:
    it fails when the payer's balance does not cover the amount and
    moves the amount otherwise. *)
Definition balanceOf (s : Store) (a : bytes) : Z := default 0 (balances s !! a).
Definition appCallTransferOnt (from to : bytes) (amount : Z) : M Store unit :=
  bal ← gets (fun s => balanceOf s from);
  failIf (bal <? amount) "appCallTransferOnt, transfer error";;
  modify (fun s => set_balances (<[from := balanceOf s from - amount]> (balances s)) s);;
  modify (fun s => set_balances (<[to := balanceOf s to + amount]> (balances s)) s).

(** ** The handlers *)

Definition isActive (p : PeerPoolItem) : bool :=
  bool_decide (Status_ p = CandidateStatus) || bool_decide (Status_ p = ConsensusStatus).

(** The counting loop over the peer pool map (lines 404-409, 641-646
    and 729-734). *)
Definition countActive (m : gmap string PeerPoolItem) : Z :=
  map_fold (fun _ peerPoolItem num => if isActive peerPoolItem then num + 1 else num) 0 m.

Definition withStatus (st : Status) (p : PeerPoolItem) : PeerPoolItem :=
  {| Index := Index p; PeerPubkey := PeerPubkey p; Address := Address p;
     Status_ := st; Pos := Pos p; LockPos := LockPos p |}.
Definition withPos (pos lockPos : Z) (p : PeerPoolItem) : PeerPoolItem :=
  {| Index := Index p; PeerPubkey := PeerPubkey p; Address := Address p;
     Status_ := Status_ p; Pos := pos; LockPos := lockPos |}.

(** Register a candidate node, used by users.  [params] is the outcome
    of deserialising the call's input, [None] when that fails. *)
Definition RegisterCandidate (native : NativeService) (params : option RegisterPeerParam)
  : M Store unit :=
  params ← orErr params "registerCandidate, contract params deserialize error";
  address ← orErr (AddressParseFromBytes (rpAddress params))
    "registerCandidate, common.AddressParseFromBytes error";
  failIf (negb (ValidateOwner native address)) "registerCandidate, checkWitness error";;
  failIf (negb (ValidatePeerPubKeyFormat native (rpPeerPubkey params)))
    "registerCandidate, invalid peer pubkey";;
  peerPubkeyPrefix ← orErr (hex_DecodeString (rpPeerPubkey params))
    "registerCandidate, peerPubkey format error";
  blackList ← gets (fun s => blackList s !! peerPubkeyPrefix);
  failIf (bool_decide (is_Some blackList)) "registerCandidate, this Peer is in BlackList";;
  peer ← withErr (GetPeeApply (rpPeerPubkey params)) "registerCandidate, GetPeeApply error";
  failIf (bool_decide (is_Some peer)) "registerCandidate, peer already applied";;
  view ← withErr GetView "blackNode, get view error";
  peerPoolMap ← withErr (GetPeerPoolMap view) "registerCandidate, get peerPoolMap error";
  failIf (bool_decide (is_Some (peerPoolMap !! rpPeerPubkey params)))
    "registerCandidate, peerPubkey is already in peerPoolMap";;
  withErr (putPeerApply params) "registerCandidate, put putPeerApply error";;
  withErr (appCallTransferOnt address (NodeManagerContractAddress native) (rpPos params))
    "registerCandidate, ont transfer error".

(** Unregister a registered candidate node. *)
Definition UnRegisterCandidate (native : NativeService) (params : option PeerParam2)
  : M Store unit :=
  params ← orErr params "unRegisterCandidate, contract params deserialize error";
  address ← orErr (AddressParseFromBytes (p2Address params))
    "unRegisterCandidate, common.AddressParseFromBytes error";
  failIf (negb (ValidateOwner native address)) "unRegisterCandidate, checkWitness error";;
  peer ← withErr (GetPeeApply (p2PeerPubkey params)) "unRegisterCandidate, GetPeeApply error";
  peer ← orErr peer "unRegisterCandidate, peer is not applied";
  failIf (negb (bytes_Equal (rpAddress peer) (p2Address params)))
    "unRegisterCandidate, address is not peer owner";;
  peerPubkeyPrefix ← orErr (hex_DecodeString (p2PeerPubkey params))
    "unRegisterCandidate, peerPubkey format error";
  modify (fun s => set_peerApply (delete peerPubkeyPrefix (peerApply s)) s);;
  withErr (appCallTransferOnt (NodeManagerContractAddress native) address (rpPos peer))
    "appCallTransferOnt, ont transfer error".

(** Approve a registered candidate node. *)
Definition ApproveCandidate (native : NativeService) (params : option PeerParam)
  : M Store unit :=
  params ← orErr params "approveCandidate, contract params deserialize error";
  operatorAddress ← orErr (AddressFromBookkeepers native) "AddressFromBookkeepers error";
  failIf (negb (ValidateOwner native operatorAddress)) "approveCandidate, checkWitness error";;
  peer ← withErr (GetPeeApply (ppPeerPubkey params)) "approveCandidate, GetPeeApply error";
  peer ← orErr peer "approveCandidate, peer is not applied";
  globalParam ← withErr getGlobalParam "approveCandidate, getGlobalParam error";
  failIf (rpPos peer <? uint64 (MinInitStake globalParam)) "approveCandidate, init Pos must >= MinInitStake";;
  peerPubkeyPrefix ← orErr (hex_DecodeString (rpPeerPubkey peer))
    "approveCandidate, peerPubkey format error";
  indexBytes ← gets (fun s => peerIndex s !! peerPubkeyPrefix);
  index ← match indexBytes with
          | Some index => mret index
          | None =>
              candidateIndex ← withErr getCandidateIndex "approveCandidate, get candidateIndex error";
              let newCandidateIndex := uint32 (candidateIndex + 1) in
              withErr (putCandidateIndex newCandidateIndex) "approveCandidate, put candidateIndex error";;
              modify (fun s => set_peerIndex (<[peerPubkeyPrefix := candidateIndex]> (peerIndex s)) s);;
              mret candidateIndex
          end;
  view ← withErr GetView "approveCandidate, get view error";
  peerPoolMap ← withErr (GetPeerPoolMap view) "approveCandidate, get peerPoolMap error";
  let num := countActive peerPoolMap in
  failIf (num >=? CandidateNum globalParam) "approveCandidate, num of candidate node is full";;
  let peerPoolItem :=
    {| Index := index; PeerPubkey := rpPeerPubkey peer; Address := rpAddress peer;
       Status_ := CandidateStatus; Pos := rpPos peer; LockPos := 0 |} in
  putPeerPoolMap (<[ppPeerPubkey params := peerPoolItem]> peerPoolMap) view.

(** Reject a registered candidate node. *)
Definition RejectCandidate (native : NativeService) (params : option PeerParam)
  : M Store unit :=
  params ← orErr params "rejectCandidate, contract params deserialize error";
  operatorAddress ← orErr (AddressFromBookkeepers native) "AddressFromBookkeepers error";
  failIf (negb (ValidateOwner native operatorAddress)) "rejectCandidate, checkWitness error";;
  peer ← withErr (GetPeeApply (ppPeerPubkey params)) "rejectCandidate, GetPeeApply error";
  peer ← orErr peer "rejectCandidate, peer is not applied";
  peerPubkeyPrefix ← orErr (hex_DecodeString (ppPeerPubkey params))
    "rejectCandidate, peerPubkey format error";
  modify (fun s => set_peerApply (delete peerPubkeyPrefix (peerApply s)) s);;
  address ← orErr (AddressParseFromBytes (rpAddress peer))
    "rejectCandidate, common.AddressParseFromBytes error";
  withErr (appCallTransferOnt (NodeManagerContractAddress native) address (rpPos peer))
    "appCallTransferOnt, ont transfer error".

(** Remove a node from the black list. *)
Definition WhiteNode (native : NativeService) (params : option PeerParam) : M Store unit :=
  params ← orErr params "whiteNode, contract params deserialize error";
  operatorAddress ← orErr (AddressFromBookkeepers native) "AddressFromBookkeepers error";
  failIf (negb (ValidateOwner native operatorAddress)) "whiteNode, checkWitness error";;
  peerPubkeyPrefix ← orErr (hex_DecodeString (ppPeerPubkey params))
    "whiteNode, peerPubkey format error";
  blackListBytes ← gets (fun s => blackList s !! peerPubkeyPrefix);
  failIf (bool_decide (blackListBytes = None)) "whiteNode, this Peer is not in BlackList";;
  modify (fun s => set_blackList (delete peerPubkeyPrefix (blackList s)) s).

(** Quit a registered node, used by the node's owner. *)
Definition QuitNode (native : NativeService) (params : option PeerParam2) : M Store unit :=
  params ← orErr params "quitNode, contract params deserialize error";
  address ← orErr (AddressParseFromBytes (p2Address params))
    "quitNode, common.AddressParseFromBytes error";
  failIf (negb (ValidateOwner native address)) "quitNode, checkWitness error";;
  view ← withErr GetView "quitNode, get view error";
  peerPoolMap ← withErr (GetPeerPoolMap view) "quitNode, get peerPoolMap error";
  peerPoolItem ← orErr (peerPoolMap !! p2PeerPubkey params)
    "quitNode, peerPubkey is not in peerPoolMap";
  failIf (negb (isActive peerPoolItem))
    "quitNode, peerPubkey is not CandidateStatus or ConsensusStatus";;
  failIf (negb (bytes_Equal (p2Address params) (Address peerPoolItem)))
    "quitNode, peerPubkey is not registered by this address";;
  config ← withErr GetConfig "quitNode, get config error";
  preConfig ← withErr getPreConfig "quitNode, get preConfig error";
  let config := if bool_decide (SetView preConfig = view)
                then Configuration_ preConfig else Some config in
  (* config.K on a nil configuration *)
  config ← orErr config "panic: nil pointer dereference";
  let num := countActive peerPoolMap in
  failIf (num <=? K config) "quitNode, num of peers is less than K";;
  putPeerPoolMap (<[p2PeerPubkey params := withStatus QuitingStatus peerPoolItem]> peerPoolMap)
    view.

(** Update the VBFT configuration. *)
Definition UpdateConfig (native : NativeService) (configuration : option Configuration)
  : M Store unit :=
  operatorAddress ← orErr (AddressFromBookkeepers native) "AddressFromBookkeepers error";
  failIf (negb (ValidateOwner native operatorAddress)) "updateConfig, checkWitness error";;
  configuration ← orErr configuration "updateConfig, deserialize configuration error";
  view ← withErr GetView "getView, get view error";
  peerPoolMap ← withErr (GetPeerPoolMap view) "getPeerPoolMap, get peerPoolMap error";
  let candidateNum := countActive peerPoolMap in
  failIf (C configuration =? 0) "updateConfig. C can not be 0 in config";;
  failIf (K configuration >? candidateNum)
    "updateConfig. K can not be larger than num of candidate peer in config";;
  (* L%K with K = 0 is a division by zero *)
  failIf (negb (L configuration <? uint32 (16 * K configuration)) && (K configuration =? 0))
    "panic: integer divide by zero";;
  failIf ((L configuration <? uint32 (16 * K configuration))
          || negb (L configuration mod K configuration =? 0))
    "updateConfig. L can not be less than 16*K and K must be times of L in config";;
  failIf (K configuration <? uint32 (2 * C configuration + 1))
    "updateConfig. K can not be less than 2*C+1 in config";;
  failIf ((N configuration <? K configuration) || (K configuration <? 7))
    "updateConfig. config not match N >= K >= 7";;
  failIf (BlockMsgDelay configuration <? 5000) "updateConfig. BlockMsgDelay must >= 5000";;
  failIf (HashMsgDelay configuration <? 5000) "updateConfig. HashMsgDelay must >= 5000";;
  failIf (PeerHandshakeTimeout configuration <? 10)
    "updateConfig. PeerHandshakeTimeout must >= 10";;
  failIf (MaxBlockChangeView configuration <? 10000)
    "updateConfig. MaxBlockChangeView must >= 10000";;
  putPreConfig {| Configuration_ := Some configuration; SetView := view |}.

(** Update the global parameters of the contract. *)
Definition UpdateGlobalParam (native : NativeService) (globalParam : option GlobalParam)
  : M Store unit :=
  operatorAddress ← orErr (AddressFromBookkeepers native) "AddressFromBookkeepers error";
  failIf (negb (ValidateOwner native operatorAddress)) "updateGlobalParam, checkWitness error";;
  config ← withErr GetConfig "getConfig, get config error";
  globalParam ← orErr globalParam "updateGlobalParam, deserialize globalParam error";
  failIf (CandidateNum globalParam <? uint32 (4 * K config))
    "updateGlobalParam, CandidateNum must >= 4*K";;
  failIf (MinInitStake globalParam <? 1) "updateGlobalParam, MinInitStake must >= 1";;
  putGlobalParam globalParam.

Definition AddPos (native : NativeService) (params : option RegisterPeerParam)
  : M Store unit :=
  params ← orErr params "addPos, contract params deserialize error";
  address ← orErr (AddressParseFromBytes (rpAddress params))
    "addPos, common.AddressParseFromBytes error";
  failIf (negb (ValidateOwner native address)) "addPos, checkWitness error";;
  view ← withErr GetView "addPos, get view error";
  peerPoolMap ← withErr (GetPeerPoolMap view) "addPos, get peerPoolMap error";
  peerPoolItem ← orErr (peerPoolMap !! rpPeerPubkey params)
    "addPos, peerPubkey is not in peerPoolMap";
  failIf (negb (isActive peerPoolItem))
    "addPos, peerPubkey is not CandidateStatus or ConsensusStatus";;
  failIf (negb (bytes_Equal (rpAddress params) (Address peerPoolItem)))
    "addPos, peerPubkey is not registered by this address";;
  let peerPoolItem :=
    withPos (uint64 (Pos peerPoolItem + rpPos params)) (LockPos peerPoolItem) peerPoolItem in
  putPeerPoolMap (<[rpPeerPubkey params := peerPoolItem]> peerPoolMap) view;;
  withErr (appCallTransferOnt address (NodeManagerContractAddress native) (rpPos params))
    "addPos, ont transfer error".

Definition ReducePos (native : NativeService) (params : option RegisterPeerParam)
  : M Store unit :=
  params ← orErr params "reducePos, contract params deserialize error";
  address ← orErr (AddressParseFromBytes (rpAddress params))
    "reducePos, common.AddressParseFromBytes error";
  failIf (negb (ValidateOwner native address)) "reducePos, checkWitness error";;
  view ← withErr GetView "reducePos, get view error";
  peerPoolMap ← withErr (GetPeerPoolMap view) "reducePos, get peerPoolMap error";
  peerPoolItem ← orErr (peerPoolMap !! rpPeerPubkey params)
    "reducePos, peerPubkey is not in peerPoolMap";
  failIf (negb (isActive peerPoolItem))
    "reducePos, peerPubkey is not CandidateStatus or ConsensusStatus";;
  failIf (negb (bytes_Equal (rpAddress params) (Address peerPoolItem)))
    "reducePos, peerPubkey is not registered by this address";;
  let peerPoolItem :=
    withPos (uint64 (Pos peerPoolItem - rpPos params))
            (uint64 (LockPos peerPoolItem + rpPos params)) peerPoolItem in
  putPeerPoolMap (<[rpPeerPubkey params := peerPoolItem]> peerPoolMap) view.

Section Commit.
(** [executeCommitDpos], the epoch rollover itself, is in a file of the
    package that is not at hand; the two callers below take it as given. *)
Context (executeCommitDpos : NativeService -> M Store unit).

(** The loop body of [BlackNode], lines 505-531: the black-list entry is
    put at once, the peer pool map is changed in memory. *)
Fixpoint blackLoop (pubkeys : list string) (peerPoolMap : gmap string PeerPoolItem)
    (commit : bool) : M Store (gmap string PeerPoolItem * bool) :=
  match pubkeys with
  | [] => mret (peerPoolMap, commit)
  | peerPubkey :: rest =>
      peerPubkeyPrefix ← orErr (hex_DecodeString peerPubkey)
        "blackNode, peerPubkey format error";
      peerPoolItem ← orErr (peerPoolMap !! peerPubkey)
        "blackNode, peerPubkey is not in peerPoolMap";
      let blackListItem :=
        {| blPeerPubkey := PeerPubkey peerPoolItem; blAddress := Address peerPoolItem;
           blPos := Pos peerPoolItem |} in
      modify (fun s => set_blackList (<[peerPubkeyPrefix := blackListItem]> (blackList s)) s);;
      let commit := commit || bool_decide (Status_ peerPoolItem = ConsensusStatus) in
      blackLoop rest (<[peerPubkey := withStatus BlackStatus peerPoolItem]> peerPoolMap) commit
  end.

(** Put nodes into the black list. *)
Definition BlackNode (native : NativeService) (params : option PeerListParam) : M Store unit :=
  params ← orErr params "blackNode, contract params deserialize error";
  operatorAddress ← orErr (AddressFromBookkeepers native) "AddressFromBookkeepers error";
  failIf (negb (ValidateOwner native operatorAddress)) "blackNode, checkWitness error";;
  view ← withErr GetView "blackNode, get view error";
  peerPoolMap ← withErr (GetPeerPoolMap view) "blackNode, get peerPoolMap error";
  r ← blackLoop (PeerPubkeyList params) peerPoolMap false;
  putPeerPoolMap r.1 view;;
  if r.2 : bool then
    withErr (executeCommitDpos native) "blackNode, executeCommitDpos error"
  else mret tt.

(** Go to the next consensus epoch. *)
Definition CommitDpos (native : NativeService) : M Store unit :=
  config ← withErr GetConfig "commitDpos, get config error";
  governanceView ← withErr GetGovernanceView "commitDpos, get GovernanceView error";
  operatorAddress ← orErr (AddressFromBookkeepers native) "AddressFromBookkeepers error";
  let cycle := uint32 (GetHeight native - gvHeight governanceView) >=? MaxBlockChangeView config in
  failIf (negb (ValidateOwner native operatorAddress) && negb cycle)
    "commitDpos, authentication Failed";;
  withErr (executeCommitDpos native) "executeCommitDpos, executeCommitDpos error".

End Commit.

(** ** Vocabulary of the statements *)

(** One round of the counting loop, and what a node adds to the count. *)
Definition bump (_ : string) (p : PeerPoolItem) (num : Z) : Z :=
  if isActive p then num + 1 else num.
Definition weight (p : PeerPoolItem) : Z := if isActive p then 1 else 0.

(** The configuration [QuitNode] checks against at a view (lines
    627-638): the staged one when it was staged at this view, the
    active one otherwise. *)
Definition effectiveConfig (s : Store) (view : Z) : option Configuration :=
  let preConfig := default {| Configuration_ := None; SetView := 0 |} (preConfig s) in
  if bool_decide (SetView preConfig = view) then Configuration_ preConfig
  else vbftConfig s.

(** The number of Candidate and Consensus nodes in the pool of the
    current view (0 when there is no such pool). *)
Definition activeCount (s : Store) : Z :=
  match governanceView s with
  | Some gv => from_option countActive 0 (peerPool s !! View gv)
  | None => 0
  end.

(** A sequence of [ApproveCandidate] calls, each with its own context
    and input; a failed call leaves the store as it left it. *)
Definition approveAll (calls : list (NativeService * option PeerParam)) (s : Store)
  : Store :=
  foldl (fun s call => (ApproveCandidate call.1 call.2 s).1) s calls.

(** The effect of an [ApproveCandidate] call on the view, the global
    parameters and the peer pool, as a relation between the store before
    and the outcome. *)
Definition approveEffect (input : option PeerParam) (s : Store) (r : Store * Result unit)
  : Prop :=
  governanceView r.1 = governanceView s /\
  globalParam r.1 = globalParam s /\
  ((exists e, r.2 = Err e) -> peerPool r.1 = peerPool s) /\
  (r.2 = Ok tt ->
   exists p gp gv pool item,
     input = Some p /\
     globalParam s = Some gp /\
     governanceView s = Some gv /\
     peerPool s !! View gv = Some pool /\
     countActive pool < CandidateNum gp /\
     Status_ item = CandidateStatus /\
     peerPool r.1 = <[View gv := <[ppPeerPubkey p := item]> pool]> (peerPool s)).

(** ** The transaction boundary *)

(** Modelled from the spec: the ledger code that invokes a handler is
    not at hand.  Section 5: all writes of a call are applied atomically
    with the call's success; the writes of a failed call are buffered
    in the cache and dropped. *)
Definition Invoke {A} (handler : M Store A) (ledger : Store) : Store * Result A :=
  match handler ledger with
  | (cache, Ok a) => (cache, Ok a)
  | (_, Err e) => (ledger, Err e)
  end.

End NodeManager.

(** * Concrete collaborators for the examples

    A toy wire format: a transaction is its own single-output script,
    its hash is that script, a proof is the list of one hash and the
    merkle root of such a proof is that hash. *)

Module BtcExample.
Import Btc.

Definition codec : Codec :=
  {| BtcDecode tx :=
       Some {| TxIn := [];
               TxOut_ := [ {| Value := 500; PkScript := tx |};
                           {| Value := 0; PkScript := [] |} ] |};
     BtcEncode mtx := Some (concat (map PkScript (TxOut_ mtx)));
     TxHash mtx := match TxOut_ mtx with o :: _ => PkScript o | [] => [] end;
     BchDecode proof := Some {| Transactions := 1; Hashes := [proof]; Flags := [] |};
     checkTxOutputs mtx := Ok (bool_decide (length (TxOut_ mtx) = 2%nat));
     resolve v o := Some {| ChainId := 2; Addr := PkScript o; tcpValue := v |};
     ExtractMatches mb := head (Hashes mb);
     BadTree mb := false;
     GetMatches mb := Hashes mb;
     buildScript := Some [x51];
     NewAddressScriptHash script := Some "custody";
     PayToAddrScript addr := Some [x76];
     Key_prefix_BTC := [x01];
     CrossChainManagerContractAddress := [x09];
     BTC_TX_PREFIX := [x62];
     FEE := 1000;
     ToBase58 b := hex_EncodeToString b |}.

(** An SPV client at height [besth] whose custody address holds one
    output of [utxoTotal]; the side chain asks for [blocksToWait]
    confirmations. *)
Definition spv (besth blocksToWait utxoTotal : Z) : Spv :=
  {| GetCurrentHeightFromSpv := Some besth;
     GetHeaderFromSpv h := Some [xaa];
     GetUtxosFromSpv addr amountSum fee preExec := Some ([[x10]], utxoTotal);
     GetSideChain id := Some {| BlocksToWait := blocksToWait |};
     GetAssetContractAddress from to contract := Some "btc" |}.

Definition service0 : NativeService :=
  {| CacheDB := ∅; Notifications := []; PreExec := false |}.

(** A destination name per positive number, its binary digits. *)
Fixpoint keyOf (p : positive) : string :=
  match p with
  | xH => "1"
  | xO q => String "0" (keyOf q)
  | xI q => String "1" (keyOf q)
  end.

(** [n] destinations, each asking for [a]. *)
Definition manyAmounts (n : nat) (a : Z) : gmap string Z :=
  list_to_map (map (fun i => (keyOf (Pos.of_nat i), a)) (seq 1 n)).

End BtcExample.

(** A governance state at view 3 with the nodes ["01"], ["02"], ... all
    owned by the same account, for the examples. *)

Module NodeManagerExample.
Import NodeManager.

Definition account (b : byte) : bytes := replicate 20 b.
Definition owner : bytes := account x01.
Definition operator : bytes := account x0f.
Definition contract : bytes := account x07.

Definition native : NativeService :=
  {| CheckWitness a := true;
     AddressFromBookkeepers := Some operator;
     GetHeight := 10;
     ValidatePeerPubKeyFormat pk := true;
     NodeManagerContractAddress := contract |}.

Definition peer (index : Z) (pubkey : string) : PeerPoolItem :=
  {| Index := index; PeerPubkey := pubkey; Address := owner;
     Status_ := ConsensusStatus; Pos := 1000; LockPos := 0 |}.

Definition pubkeys : list string :=
  ["01"; "02"; "03"; "04"; "05"; "06"; "07"; "08"; "09"; "0a"].

(** The first [n] nodes, in consensus. *)
Definition pool (n : nat) : gmap string PeerPoolItem :=
  list_to_map (imap (fun i pk => (pk, peer (Z.of_nat i + 1) pk)) (take n pubkeys)).

Definition config7 : Configuration :=
  {| N := 10; C := 2; K := 7; L := 112; BlockMsgDelay := 10000; HashMsgDelay := 10000;
     PeerHandshakeTimeout := 10; MaxBlockChangeView := 10000 |}.

Definition config10 : Configuration :=
  {| N := 10; C := 2; K := 10; L := 160; BlockMsgDelay := 10000; HashMsgDelay := 10000;
     PeerHandshakeTimeout := 10; MaxBlockChangeView := 10000 |}.

(** View 3, [n] nodes in the pool, [config7] active, nothing staged,
    room for [candidateNum] candidates, and [funds] on the owner's
    account. *)
Definition store (n : nat) (candidateNum funds : Z) : Store :=
  {| governanceView := Some {| View := 3; gvHeight := 1; gvTxHash := [] |};
     vbftConfig := Some config7;
     preConfig := None;
     globalParam := Some {| MinInitStake := 1; CandidateNum := candidateNum |};
     candidateIndex := Some 11;
     peerPool := {[ 3 := pool n ]};
     peerApply := ∅;
     peerIndex := ∅;
     blackList := ∅;
     balances := {[ owner := funds ]} |}.

Definition quit (pubkey : string) : PeerParam2 :=
  {| p2PeerPubkey := pubkey; p2Address := owner |}.

Definition stake (pubkey : string) (pos : Z) : RegisterPeerParam :=
  {| rpPeerPubkey := pubkey; rpAddress := owner; rpPos := pos |}.

Definition approve (pubkey : string) : PeerParam := {| ppPeerPubkey := pubkey |}.

(** The store with the application of node ["0b"] on file. *)
Definition applied (s : Store) : Store :=
  set_peerApply {[ [x0b] := stake "0b" 5000 ]} s.

(** A larger network: node [i] has the two hexadecimal digits of [i] as
    its key. *)
Definition keyByte (i : nat) : byte :=
  byte_of_nibbles (N.of_nat i / 16) (N.of_nat i mod 16).

Definition pubkeyOf (i : nat) : string := hex_EncodeToString [keyByte i].

Definition manyPool (n : nat) : gmap string PeerPoolItem :=
  list_to_map (map (fun i => (pubkeyOf i, peer (Z.of_nat i) (pubkeyOf i))) (seq 1 n)).

(** View 3 with the nodes 1 to [n] in consensus, the applications of
    the [m] nodes after them on file, and room for [candidateNum]
    candidates. *)
Definition manyStore (n m : nat) (candidateNum : Z) : Store :=
  {| governanceView := Some {| View := 3; gvHeight := 1; gvTxHash := [] |};
     vbftConfig := Some config7;
     preConfig := None;
     globalParam := Some {| MinInitStake := 1; CandidateNum := candidateNum |};
     candidateIndex := Some (Z.of_nat n + 1);
     peerPool := {[ 3 := manyPool n ]};
     peerApply :=
       list_to_map (map (fun i => ([keyByte i], stake (pubkeyOf i) 5000)) (seq (S n) m));
     peerIndex := ∅;
     blackList := ∅;
     balances := {[ owner := 0 ]} |}.

End NodeManagerExample.

(** * Running the store-passing monad *)

Section MonadFacts.
Context {S A B : Type}.
Implicit Types (k : A -> M S B) (s : S).

Lemma run_bind (m : M S A) k s :
  (m ≫= k) s = match m s with (s', Ok a) => k a s' | (s', Err e) => (s', Err e) end.
Proof. reflexivity. Qed.
Lemma run_ret (a : A) k s : (mret a ≫= k) s = k a s.
Proof. reflexivity. Qed.
Lemma run_fail msg k s : (fail msg ≫= k) s = (s, Err msg).
Proof. reflexivity. Qed.
Lemma run_orErr_Some (a : A) msg k s : (orErr (Some a) msg ≫= k) s = k a s.
Proof. reflexivity. Qed.
Lemma run_orErr_None msg k s : (orErr None msg ≫= k) s = (s, Err msg).
Proof. reflexivity. Qed.
Lemma run_gets (f : S -> A) k s : (gets f ≫= k) s = k (f s) s.
Proof. reflexivity. Qed.
Lemma run_liftR (f : S -> Result A) k s :
  (liftR f ≫= k) s = match f s with Ok a => k a s | Err e => (s, Err e) end.
Proof. unfold liftR, mbind, M_bind. destruct (f s); reflexivity. Qed.
Lemma run_assoc {Z} (m : M S Z) (f : Z -> M S A) k s :
  ((m ≫= f) ≫= k) s = (m ≫= (fun z => f z ≫= k)) s.
Proof. unfold mbind, M_bind. destruct (m s) as [s' []]; reflexivity. Qed.
Lemma run_withErr (m : M S A) msg k s :
  (withErr m msg ≫= k) s =
  match m s with (s', Ok a) => k a s' | (s', Err _) => (s', Err msg) end.
Proof. unfold withErr, mbind, M_bind. destruct (m s) as [s' []]; reflexivity. Qed.
End MonadFacts.

Section MonadFactsUnit.
Context {S B : Type}.
Implicit Types (k : unit -> M S B) (s : S).

Lemma run_failIf_true msg k s : (failIf true msg ≫= k) s = (s, Err msg).
Proof. reflexivity. Qed.
Lemma run_failIf_false msg k s : (failIf false msg ≫= k) s = k tt s.
Proof. reflexivity. Qed.
Lemma run_modify (f : S -> S) k s : (modify f ≫= k) s = k tt (f s).
Proof. reflexivity. Qed.
End MonadFactsUnit.

Lemma end_ret {S A} (a : A) (s : S) : (mret a : M S A) s = (s, Ok a).
Proof. reflexivity. Qed.
Lemma end_fail {S A} msg (s : S) : (fail msg : M S A) s = (s, Err msg).
Proof. reflexivity. Qed.
Lemma end_modify {S} (f : S -> S) (s : S) : modify f s = (f s, Ok tt).
Proof. reflexivity. Qed.
Lemma end_orErr_Some {S A} (a : A) msg (s : S) : orErr (Some a) msg s = (s, Ok a).
Proof. reflexivity. Qed.
Lemma end_orErr_None {S A} msg (s : S) : (orErr None msg : M S A) s = (s, Err msg).
Proof. reflexivity. Qed.
Lemma end_failIf_true {S} msg (s : S) : failIf true msg s = (s, Err msg).
Proof. reflexivity. Qed.
Lemma end_failIf_false {S} msg (s : S) : failIf false msg s = (s, Ok tt).
Proof. reflexivity. Qed.
Lemma end_withErr {S A} (m : M S A) msg (s : S) :
  withErr m msg s = match m s with (s', Ok a) => (s', Ok a) | (s', Err _) => (s', Err msg) end.
Proof. reflexivity. Qed.

(** Run the step in front when its test or lookup is known. *)
Ltac mrun :=
  match goal with
  | |- context [ (orErr (Some ?a) ?msg ≫= ?k) ?s ] =>
      rewrite (run_orErr_Some a msg k s)
  | |- context [ (@orErr ?S ?A None ?msg ≫= ?k) ?s ] =>
      rewrite (@run_orErr_None S A _ msg k s)
  | |- context [ (failIf true ?msg ≫= ?k) ?s ] =>
      rewrite (run_failIf_true msg k s)
  | |- context [ (failIf false ?msg ≫= ?k) ?s ] =>
      rewrite (run_failIf_false msg k s)
  | |- context [ (gets ?f ≫= ?k) ?s ] => rewrite (run_gets f k s)
  | |- context [ (modify ?f ≫= ?k) ?s ] => rewrite (run_modify f k s)
  | |- context [ (mret ?a ≫= ?k) ?s ] => rewrite (run_ret a k s)
  | |- context [ (@fail ?S ?A ?msg ≫= ?k) ?s ] => rewrite (@run_fail S A _ msg k s)
  | |- context [ orErr (Some ?a) ?msg ?s ] => rewrite (end_orErr_Some a msg s)
  | |- context [ @orErr ?S ?A None ?msg ?s ] => rewrite (@end_orErr_None S A msg s)
  | |- context [ failIf true ?msg ?s ] => rewrite (end_failIf_true msg s)
  | |- context [ failIf false ?msg ?s ] => rewrite (end_failIf_false msg s)
  | |- context [ modify ?f ?s ] => rewrite (end_modify f s)
  | |- context [ @mret (M ?S) _ ?A ?a ?s ] => rewrite (@end_ret S A a s)
  | |- context [ @fail ?S ?A ?msg ?s ] => rewrite (@end_fail S A msg s)
  end; cbv beta.

(** One step of a handler: split on the test or the lookup in front. *)
Ltac mstep :=
  first
    [ mrun
    | match goal with
      | |- context [ (orErr ?o _ ≫= _) _ ] => destruct o eqn:?
      | |- context [ (failIf ?b _ ≫= _) _ ] => destruct b eqn:?
      | |- context [ orErr ?o _ _ ] => destruct o eqn:?
      | |- context [ failIf ?b _ _ ] => destruct b eqn:?
      end; mrun ].

(** ** Machine integers *)

Lemma uint32_range z : 0 <= uint32 z < 2 ^ 32.
Proof. unfold uint32. apply Z.mod_pos_bound. lia. Qed.
Lemma uint32_small z : 0 <= z < 2 ^ 32 -> uint32 z = z.
Proof. unfold uint32. intros. apply Z.mod_small. lia. Qed.
Lemma uint64_small z : 0 <= z < 2 ^ 64 -> uint64 z = z.
Proof. unfold uint64. intros. apply Z.mod_small. lia. Qed.
Lemma int64_small z : - 2 ^ 63 <= z < 2 ^ 63 -> int64 z = z.
Proof. unfold int64. intros. rewrite Z.mod_small; lia. Qed.
Lemma int64_range z : - 2 ^ 63 <= int64 z < 2 ^ 63.
Proof.
  unfold int64. pose proof (Z.mod_pos_bound (z + 2 ^ 63) (2 ^ 64)). lia.
Qed.
(** The wrapped difference of a smaller and a larger [uint32]. *)
Lemma uint32_sub_wrap a b :
  0 <= a < b -> b < 2 ^ 32 -> uint32 (a - b) = 2 ^ 32 - (b - a).
Proof.
  intros. unfold uint32.
  replace (a - b) with ((2 ^ 32 - (b - a)) + (-1) * 2 ^ 32) by lia.
  rewrite Z.mod_add by lia. apply Z.mod_small. lia.
Qed.
(** [uint32(x)] of a 64-bit value keeps the low 32 bits. *)
Lemma uint32_uint64 z : uint32 (uint64 z) = uint32 z.
Proof.
  unfold uint32, uint64.
  replace (2 ^ 64) with (2 ^ 32 * 2 ^ 32) by lia.
  generalize (2 ^ 32) (eq_refl : (0 <? 2 ^ 32) = true). intros b Hb.
  apply Z.ltb_lt in Hb.
  rewrite Z.rem_mul_r by lia.
  rewrite (Z.mul_comm b), Z.mod_add by lia.
  apply Z.mod_mod. lia.
Qed.

(** * The verifier *)

Module BtcVerify.
Import Btc.

Ltac vstep :=
  first
    [ mstep
    | rewrite run_withErr; unfold liftR, CacheDB_Get; cbv beta iota ].

(** A failed verification leaves the cache as it was: the sentinel is
    the only write and it is the last step. *)
Lemma verifyBtcTx_error_keeps_store c spv proof tx height id s s' e :
  verifyBtcTx c spv proof tx height id s = (s', Err e) -> s' = s.
Proof.
  unfold verifyBtcTx.
  repeat (vstep; try (intros [= <- _]; reflexivity)).
Qed.

(** What a successful verification has checked, and its one write. *)
Lemma verifyBtcTx_Ok_inv c spv proof tx height id s s' p :
  verifyBtcTx c spv proof tx height id s = (s', Ok p) ->
  exists besth sideChain mtx mb header,
    GetCurrentHeightFromSpv spv = Some besth /\
    GetSideChain spv id = Some sideChain /\
    notConfirmed besth height sideChain = false /\
    BtcDecode c tx = Some mtx /\
    BchDecode c proof = Some mb /\
    isExist (TxHash c mtx) mb = true /\
    CacheDB s !! replayKey c (TxHash c mtx) <> Some [x01] /\
    checkTxOutputs c mtx = Ok true /\
    ExtractMatches c mb = Some header /\
    BadTree c mb = false /\
    GetMatches c mb <> [] /\
    GetHeaderFromSpv spv height = Some header /\
    s' = CacheDB_Put (replayKey c (TxHash c mtx)) [x01] s.
Proof.
  unfold verifyBtcTx.
  repeat (vstep; try discriminate).
  intros [= <- <-].
  repeat match goal with
         | H : negb _ = false |- _ => apply negb_false_iff in H
         | H : _ || _ = false |- _ => apply orb_false_iff in H; destruct H
         | H : bool_decide _ = true |- _ => apply bool_decide_eq_true in H
         | H : bool_decide _ = false |- _ => apply bool_decide_eq_false in H
         end.
  eexists _, _, _, _, _. repeat split; try eassumption.
  - destruct (checkTxOutputs c m) as [[]|]; congruence.
  - intros E. rewrite E in *. simpl in *. congruence.
Qed.

(** With the sentinel of its transaction in the cache a call reaches the
    replay guard at most, and never succeeds. *)
Lemma verifyBtcTx_sentinel_rejects c spv proof tx height id s mtx :
  BtcDecode c tx = Some mtx ->
  CacheDB s !! replayKey c (TxHash c mtx) = Some [x01] ->
  exists e, verifyBtcTx c spv proof tx height id s = (s, Err e).
Proof.
  intros Hd Hk.
  destruct (verifyBtcTx c spv proof tx height id s) as [s1 [p|e]] eqn:E.
  - apply verifyBtcTx_Ok_inv in E as (?&?&mtx'&?&?&_&_&_&Hd'&_&_&Hn&_).
    congruence.
  - apply verifyBtcTx_error_keeps_store in E as ->. eauto.
Qed.

(** The identical call after a success stops at the replay guard. *)
Lemma verifyBtcTx_replay c spv proof tx height id s s' p :
  verifyBtcTx c spv proof tx height id s = (s', Ok p) ->
  verifyBtcTx c spv proof tx height id s' =
    (s', Err "verifyBtcTx, transaction already exist").
Proof.
  intros E.
  apply verifyBtcTx_Ok_inv in E
    as (besth&sc&mtx&mb&header&Hb&Hs&Hc&Hd&Hp&He&_&_&_&_&_&_&->).
  unfold verifyBtcTx.
  rewrite Hb; mrun. rewrite Hs; mrun. rewrite Hc; mrun. rewrite Hd; mrun.
  rewrite Hp; mrun. rewrite He; cbn [negb]; mrun.
  rewrite run_withErr. unfold liftR, CacheDB_Get, CacheDB_Put.
  cbn [CacheDB]. rewrite lookup_insert_eq.
  rewrite (bool_decide_eq_true_2 (Some [x01] = Some [x01])) by reflexivity.
  mrun. reflexivity.
Qed.

Lemma Verify_Ok_inv c spv params s s' r :
  Verify c spv params s = (s', Ok r) ->
  exists pa tx proof p,
    params = Some pa /\
    bool_decide (Proof pa = EmptyString) || bool_decide (TxData pa = EmptyString) = false /\
    hex_DecodeString (TxData pa) = Some tx /\
    hex_DecodeString (Proof pa) = Some proof /\
    verifyBtcTx c spv proof tx (Height pa) (SourceChainID pa) s = (s', Ok p).
Proof.
  unfold Verify.
  repeat (mstep; try discriminate).
  rewrite run_bind. unfold catch.
  destruct (verifyBtcTx _ _ _ _ _ _ s) as [s1 [p|e0]] eqn:E; [|discriminate].
  rewrite end_ret. intros [= <- _]. eauto 10.
Qed.

(** C1. A proof/transaction pair is accepted at most once.  When
    [Verify] succeeds, every validation of [verifyBtcTx] has passed
    (confirmation depth, decoding, the transaction id among the hashes of
    the proof, the shape of the outputs, the merkle root equal to the
    header's), its only write is the one-byte sentinel [[1]] under the
    replay-guard key of the transaction id, the same call made again
    stops at the replay guard with "transaction already exist", and no
    later call that presents the same transaction while the sentinel is
    in the cache succeeds, whatever proof, height or oracle answers come
    with it.  A call that fails writes nothing, so the sentinel is never
    written before the validations are through. *)
Theorem Verify_accepts_at_most_once c spv pa s s' r :
  Verify c spv (Some pa) s = (s', Ok r) ->
  exists tx proof mtx mb besth sideChain header,
    let key := replayKey c (TxHash c mtx) in
    hex_DecodeString (TxData pa) = Some tx /\
    hex_DecodeString (Proof pa) = Some proof /\
    (* every validation has passed *)
    (GetCurrentHeightFromSpv spv = Some besth /\
     GetSideChain spv (SourceChainID pa) = Some sideChain /\
     notConfirmed besth (Height pa) sideChain = false /\
     BtcDecode c tx = Some mtx /\
     BchDecode c proof = Some mb /\
     isExist (TxHash c mtx) mb = true /\
     CacheDB s !! key <> Some [x01] /\
     checkTxOutputs c mtx = Ok true /\
     ExtractMatches c mb = Some header /\
     BadTree c mb = false /\
     GetMatches c mb <> [] /\
     GetHeaderFromSpv spv (Height pa) = Some header) /\
    (* the single write *)
    s' = CacheDB_Put key [x01] s /\
    CacheDB s' !! key = Some [x01] /\
    (* the second call *)
    verifyBtcTx c spv proof tx (Height pa) (SourceChainID pa) s' =
      (s', Err "verifyBtcTx, transaction already exist") /\
    Verify c spv (Some pa) s' = (s', Err "btc Verify, failed to verify") /\
    (* any later call with the same transaction *)
    (forall spv' proof' height' id' s'',
        CacheDB s'' !! key = Some [x01] ->
        exists e, verifyBtcTx c spv' proof' tx height' id' s'' = (s'', Err e)) /\
    (* a failed call writes nothing *)
    (forall spv' proof' tx' height' id' s0 s1 e,
        verifyBtcTx c spv' proof' tx' height' id' s0 = (s1, Err e) -> s1 = s0).
Proof.
  intros E.
  apply Verify_Ok_inv in E as (pa'&tx&proof&p&[= <-]&Hne&Ht&Hp&E).
  pose proof (verifyBtcTx_replay _ _ _ _ _ _ _ _ _ E) as Hre.
  pose proof E as E'.
  apply verifyBtcTx_Ok_inv in E'
    as (besth&sc&mtx&mb&header&Hb&Hs&Hc&Hd&Hpr&He&Hn&Ho&Hx&Hbt&Hm&Hh&Hs').
  exists tx, proof, mtx, mb, besth, sc, header. cbv zeta.
  split; [exact Ht|]. split; [exact Hp|].
  split; [repeat split; assumption|].
  split; [exact Hs'|].
  split; [subst s'; unfold CacheDB_Put; cbn [CacheDB]; apply lookup_insert_eq|].
  split; [exact Hre|].
  split; [|split].
  - unfold Verify. mrun. rewrite Hne; mrun. rewrite Ht; mrun. rewrite Hp; mrun.
    rewrite run_bind. unfold catch. rewrite Hre. mrun. reflexivity.
  - intros. eapply verifyBtcTx_sentinel_rejects; eassumption.
  - intros. eapply verifyBtcTx_error_keeps_store; eassumption.
Qed.

(** The theorem at work on the toy wire format: the first call is
    accepted, and the conclusions hold for it. *)
Lemma Verify_accepts_at_most_once_witness :
  let pa := {| SourceChainID := 1; Height := 95; Proof := "aa"; TxData := "aa" |} in
  let spv := BtcExample.spv 100 6 0 in
  exists s' r,
    Verify BtcExample.codec spv (Some pa) BtcExample.service0 = (s', Ok r) /\
    Verify BtcExample.codec spv (Some pa) s' = (s', Err "btc Verify, failed to verify").
Proof.
  intros pa spv.
  assert (E : Verify BtcExample.codec spv (Some pa) BtcExample.service0 =
              (CacheDB_Put [x09; x01; xaa] [x01] BtcExample.service0,
               Ok {| FromChainID := 1; FromContractAddress := "btc"; ToChainID := 2;
                     ToAddress := EmptyString; Amount := 500 |})) by (vm_compute; reflexivity).
  eexists _, _. split; [exact E|].
  destruct (Verify_accepts_at_most_once _ _ _ _ _ _ E)
    as (?&?&?&?&?&?&?&_&_&_&_&_&_&H&_).
  exact H.
Defined.

(** ** The confirmation-depth gate *)

(** The call is turned down as unconfirmed exactly when the comparison
    of line 109 holds. *)
Lemma verifyBtcTx_not_confirmed_iff c spv s proof tx height id besth sc :
  GetCurrentHeightFromSpv spv = Some besth ->
  GetSideChain spv id = Some sc ->
  (verifyBtcTx c spv proof tx height id s).2 =
    Err "verifyBtcTx, transaction is not confirmed"
  <-> notConfirmed besth height sc = true.
Proof.
  intros Hb Hs. unfold verifyBtcTx. rewrite Hb; mrun. rewrite Hs; mrun.
  destruct (notConfirmed besth height sc); mrun.
  - split; reflexivity.
  - split; [|discriminate].
    repeat (vstep; cbn [snd]; try discriminate).
Qed.

(** For a height that is not ahead of the chain and a depth of at least
    one, the comparison is the one on the integers. *)
Lemma notConfirmed_in_range besth height sc :
  0 <= height <= besth -> besth < 2 ^ 32 ->
  1 <= BlocksToWait sc <= 2 ^ 32 ->
  notConfirmed besth height sc = true <-> besth - height < BlocksToWait sc - 1.
Proof.
  intros. unfold notConfirmed.
  rewrite uint32_uint64, !uint32_small by lia. apply Z.ltb_lt.
Qed.

(** C2. The gate at a height ahead of the chain: with the oracle at
    height 100 and six blocks to wait, a proof that claims height 101
    has [100 - 101 = -1 < 5], yet the comparison in [uint32] does not
    hold and the call goes through to success. *)
Theorem confirmation_gate_future_height :
  let spv := BtcExample.spv 100 6 0 in
  100 - 101 < 6 - 1 /\
  uint32 (100 - 101) = 4294967295 /\
  notConfirmed 100 101 {| BlocksToWait := 6 |} = false /\
  verifyBtcTx BtcExample.codec spv [xaa] [xaa] 101 1 BtcExample.service0 =
    (CacheDB_Put (replayKey BtcExample.codec [xaa]) [x01] BtcExample.service0,
     Ok {| ChainId := 2; Addr := []; tcpValue := 500 |}).
Proof. cbv zeta. repeat split; vm_compute; reflexivity. Qed.

(** The boundary of the gate for six blocks to wait, heights in range:
    turned down below a difference of five, let through at five. *)
Lemma confirmation_gate_boundary besth height :
  0 <= height <= besth -> besth < 2 ^ 32 ->
  (besth - height < 5 -> notConfirmed besth height {| BlocksToWait := 6 |} = true) /\
  (besth - height = 5 -> notConfirmed besth height {| BlocksToWait := 6 |} = false).
Proof.
  intros Hh Hb.
  assert (G : notConfirmed besth height {| BlocksToWait := 6 |} = true <->
              besth - height < 6 - 1).
  { apply notConfirmed_in_range; cbn [BlocksToWait]; lia. }
  split; intros.
  - apply G; lia.
  - destruct (notConfirmed besth height _) eqn:E; [|reflexivity].
    destruct G as [G _]. specialize (G eq_refl). lia.
Qed.

(** C10, as amended.  For a claimed height ahead of the oracle's the
    subtraction wraps to [2^32 - (height - besth)], and the call is
    turned down as unconfirmed exactly when that value is below
    [(BlocksToWait - 1) mod 2^32]; so the gate lets every such height
    through when [BlocksToWait] is 1 or 2, and for a larger depth the
    heights with [height - besth <= 2^32 - (BlocksToWait - 1) mod 2^32]. *)
Theorem future_height_gate c spv s proof tx height id besth sc :
  GetCurrentHeightFromSpv spv = Some besth ->
  GetSideChain spv id = Some sc ->
  0 <= besth < height -> height < 2 ^ 32 ->
  1 <= BlocksToWait sc < 2 ^ 64 ->
  let unconfirmed :=
    (verifyBtcTx c spv proof tx height id s).2 =
      Err "verifyBtcTx, transaction is not confirmed" in
  uint32 (besth - height) = 2 ^ 32 - (height - besth) /\
  (unconfirmed <-> 2 ^ 32 - (height - besth) < (BlocksToWait sc - 1) mod 2 ^ 32) /\
  (BlocksToWait sc <= 2 -> ~ unconfirmed).
Proof.
  intros Hb Hs Hh Hh' Hw unconfirmed.
  pose proof (uint32_sub_wrap besth height Hh Hh') as Hwrap.
  assert (G : unconfirmed <->
              2 ^ 32 - (height - besth) < (BlocksToWait sc - 1) mod 2 ^ 32).
  { unfold unconfirmed. rewrite (verifyBtcTx_not_confirmed_iff _ _ _ _ _ _ _ _ _ Hb Hs).
    unfold notConfirmed. rewrite uint32_uint64, Hwrap. unfold uint32. apply Z.ltb_lt. }
  split; [exact Hwrap|]. split; [exact G|].
  intros Hle Hu. apply G in Hu.
  rewrite Z.mod_small in Hu by lia. lia.
Qed.

Lemma future_height_gate_witness :
  let spv := BtcExample.spv 100 6 0 in
  uint32 (100 - 101) = 2 ^ 32 - (101 - 100) /\
  ((verifyBtcTx BtcExample.codec spv [xaa] [xaa] 101 1 BtcExample.service0).2 =
     Err "verifyBtcTx, transaction is not confirmed"
   <-> 2 ^ 32 - (101 - 100) < (6 - 1) mod 2 ^ 32).
Proof.
  intros spv.
  destruct (future_height_gate BtcExample.codec spv BtcExample.service0
              [xaa] [xaa] 101 1 100 {| BlocksToWait := 6 |}) as (H1 & H2 & _);
    [reflexivity | reflexivity | lia | lia | cbn; lia | ].
  split; [exact H1 | exact H2].
Defined.

(** C10 as stated fails: the oracle at height 0, a claimed height of
    [2^32 - 1] and six blocks to wait; the difference wraps to 1, which
    is below 5, and the call is turned down as unconfirmed. *)
Lemma future_height_gate_counterexample :
  let spv := BtcExample.spv 0 6 0 in
  0 < 4294967295 /\ 1 <= 6 /\
  uint32 (0 - 4294967295) = 1 /\
  verifyBtcTx BtcExample.codec spv [xaa] [xaa] 4294967295 1 BtcExample.service0 =
    (BtcExample.service0, Err "verifyBtcTx, transaction is not confirmed").
Proof. cbv zeta. repeat split; try lia; vm_compute; reflexivity. Qed.
End BtcVerify.

(** * The transaction builder *)

Module BtcBuild.
Import Btc.

Lemma int64_idem_add acc a : int64 (int64 acc + a) = int64 (acc + a).
Proof.
  unfold int64. f_equal.
  replace ((acc + 2 ^ 63) mod 2 ^ 64 - 2 ^ 63 + a + 2 ^ 63)
    with ((acc + 2 ^ 63) mod 2 ^ 64 + a) by lia.
  rewrite Zplus_mod_idemp_l. f_equal. lia.
Qed.

(** The loop accepts exactly the lists of valid amounts, and its result
    is the sum wrapped to 64 bits. *)
Lemma sumAmounts_Ok l : forall acc v,
  sumAmounts l (int64 acc) = Ok v ->
  Forall validAmount l /\ v = int64 (acc + sumValues l).
Proof.
  induction l as [|[k a] l IH]; intros acc v; cbn [sumAmounts sumValues foldr].
  - intros [= <-]. split; [constructor|]. f_equal. lia.
  - destruct ((a <=? 0) || (a >? MaxSatoshi)) eqn:B; [discriminate|].
    apply orb_false_iff in B as [B1 B2].
    rewrite int64_idem_add. intros E. apply IH in E as [F ->].
    split.
    + constructor; [|exact F]. unfold validAmount; cbn [snd]. lia.
    + f_equal. cbn [snd]. fold (sumValues l). lia.
Qed.

Lemma sumAmounts_Err l : forall acc e,
  sumAmounts l acc = Err e ->
  e = "makeBtcTx, wrong amount" /\ Exists (fun p => ~ validAmount p) l.
Proof.
  induction l as [|[k a] l IH]; intros acc e; cbn [sumAmounts]; [discriminate|].
  destruct ((a <=? 0) || (a >? MaxSatoshi)) eqn:B.
  - intros [= <-]. split; [reflexivity|]. left. unfold validAmount; cbn [snd].
    apply orb_true_iff in B as [B|B]; lia.
  - intros E. apply IH in E as [-> X]. split; [reflexivity|]. right. exact X.
Qed.

Lemma sumAmounts_invalid l : forall acc,
  Exists (fun p => ~ validAmount p) l ->
  sumAmounts l (int64 acc) = Err "makeBtcTx, wrong amount".
Proof.
  intros acc X. destruct (sumAmounts l (int64 acc)) as [v|e] eqn:E.
  - apply sumAmounts_Ok in E as [F _]. apply Exists_exists in X as (p & Hin & Hp).
    rewrite Forall_forall in F. exfalso. apply Hp, F, Hin.
  - apply sumAmounts_Err in E as [-> _]. reflexivity.
Qed.

Lemma sumValues_bounds l :
  Forall validAmount l ->
  Z.of_nat (length l) <= sumValues l <= Z.of_nat (length l) * MaxSatoshi.
Proof.
  induction 1 as [|[k a] l Hv _ IH]; cbn [sumValues foldr length].
  - lia.
  - fold (sumValues l). unfold validAmount in Hv. cbn [snd] in *. lia.
Qed.

(** Up to 4392 destinations the running total cannot leave the range
    of an [int64], and the loop's result is the sum itself. *)
Lemma sumAmounts_exact l v :
  (length l <= 4392)%nat ->
  sumAmounts l 0 = Ok v -> v = sumValues l /\ Forall validAmount l.
Proof.
  intros Hlen E. change 0 with (int64 0) in E.
  apply sumAmounts_Ok in E as [F ->]. split; [|exact F].
  pose proof (sumValues_bounds l F). apply int64_small.
  unfold MaxSatoshi in *. lia.
Qed.

(** ** Input validation *)

Lemma makeBtcTx_empty c spv s :
  makeBtcTx c spv ∅ s = (s, Err "makeBtcTx, input no amount").
Proof. reflexivity. Qed.

Lemma makeBtcTx_wrong_amount c spv (amounts : gmap string Z) s k a :
  amounts !! k = Some a -> a <= 0 \/ MaxSatoshi < a ->
  makeBtcTx c spv amounts s = (s, Err "makeBtcTx, wrong amount").
Proof.
  intros Hk Ha. unfold makeBtcTx.
  assert (bool_decide (size amounts = 0%nat) = false) as ->.
  { apply bool_decide_eq_false. intros Hz. apply map_size_empty_iff in Hz.
    subst. rewrite lookup_empty in Hk. discriminate. }
  mrun. rewrite run_liftR. change 0 with (int64 0) at 1.
  rewrite sumAmounts_invalid; [reflexivity|].
  apply Exists_exists. exists (k, a). split.
  - apply elem_of_map_to_list, Hk.
  - unfold validAmount; cbn [snd]. lia.
Qed.

(** While the running total cannot overflow, a sum above the maximum
    is turned down. *)
Lemma makeBtcTx_sum_exceeds c spv (amounts : gmap string Z) s :
  (0 < size amounts <= 4392)%nat ->
  map_Forall (fun _ a => 0 < a <= MaxSatoshi) amounts ->
  MaxSatoshi < sumValues (map_to_list amounts) ->
  makeBtcTx c spv amounts s =
    (s, Err "makeBtcTx, sum of amounts exceeds the MaxSatoshi").
Proof.
  intros Hsz Hall Hsum. unfold makeBtcTx.
  rewrite bool_decide_eq_false_2 by lia. mrun. rewrite run_liftR.
  destruct (sumAmounts (map_to_list amounts) 0) as [v|e] eqn:E.
  - apply sumAmounts_exact in E as [-> _];
      [|rewrite length_map_to_list; lia].
    destruct (sumValues (map_to_list amounts) >? MaxSatoshi) eqn:G; [|lia].
    mrun. reflexivity.
  - apply sumAmounts_Err in E as [_ X]. exfalso.
    apply Exists_exists in X as ([k a] & Hin & Hp). apply Hp.
    apply elem_of_map_to_list in Hin.
    apply (Hall k a Hin).
Qed.

(** C8. The sum check against a running total that has wrapped: 4393
    destinations of [MaxSatoshi] each.  Every amount is valid, the sum
    on the integers is 4393 times the maximum, the [int64] running
    total is negative, the test [amountSum > MaxSatoshi] does not fire
    and the builder goes on to success. *)
Theorem makeBtcTx_sum_overflow :
  let amounts := BtcExample.manyAmounts 4393 MaxSatoshi in
  let spv := BtcExample.spv 100 6 2000 in
  size amounts = 4393%nat /\
  forallb (fun p => bool_decide (p.2 = MaxSatoshi)) (map_to_list amounts) = true /\
  sumValues (map_to_list amounts) = 4393 * MaxSatoshi /\
  MaxSatoshi < sumValues (map_to_list amounts) /\
  sumAmounts (map_to_list amounts) 0 = Ok (-9221444073709551616) /\
  (makeBtcTx BtcExample.codec spv amounts BtcExample.service0).2 = Ok tt.
Proof.
  cbv zeta.
  assert (E : sumValues (map_to_list (BtcExample.manyAmounts 4393 MaxSatoshi)) =
              4393 * MaxSatoshi) by (vm_compute; reflexivity).
  split; [vm_compute; reflexivity|].
  split; [vm_compute; reflexivity|].
  split; [exact E|].
  split; [rewrite E; reflexivity|].
  split; vm_compute; reflexivity.
Qed.

(** ** Funding *)

(** The outputs of the unsigned transaction: every destination with its
    full amount, then the change when there is some. *)
Lemma getUnsignedTx_outputs c txIns (amounts : gmap string Z) change script mtx :
  getUnsignedTx c txIns amounts change script = Some mtx ->
  TxIn mtx = txIns /\
  map Value (TxOut_ mtx) =
    (map snd (map_to_list amounts) ++ (if 0 <? change then [change] else []))%list.
Proof.
  unfold getUnsignedTx. intros E.
  apply bind_Some in E as (outs & Ho & E).
  apply bind_Some in E as (changeOut & Hc & [= <-]).
  cbn [TxIn TxOut_]. split; [reflexivity|]. rewrite map_app. f_equal.
  - apply mapM_Some in Ho. clear -Ho.
    induction Ho as [|[addr a] o l k Hf _ IH]; [reflexivity|].
    cbn [map snd]. rewrite IH. f_equal.
    apply bind_Some in Hf as (pk & _ & [= <-]). reflexivity.
  - destruct (0 <? change); [|injection Hc as <-; reflexivity].
    apply bind_Some in Hc as (addr & _ & Hc).
    apply bind_Some in Hc as (pk & _ & [= <-]). reflexivity.
Qed.

Lemma outputsTotal_eq mtx (entries : list (string * Z)) extra :
  map Value (TxOut_ mtx) = (map snd entries ++ extra)%list ->
  outputsTotal mtx = sumValues entries + foldr Z.add 0 extra.
Proof.
  unfold outputsTotal. intros ->. induction entries as [|[k a] l IH].
  - cbn. lia.
  - cbn [map app foldr sumValues snd]. fold (sumValues l). cbn [app] in IH. lia.
Qed.

(** The builder from the answer of the UTXO endpoint on: with
    [amountSum] the loop's total of the amounts, validated, and the
    custody address derived, what is left are the two tests of the
    funds, the construction, the write and the event. *)
Lemma makeBtcTx_run c spv (amounts : gmap string Z) s amountSum script addr txIns sum :
  size amounts <> 0%nat ->
  sumAmounts (map_to_list amounts) 0 = Ok amountSum ->
  amountSum <= MaxSatoshi ->
  buildScript c = Some script ->
  NewAddressScriptHash c script = Some addr ->
  GetUtxosFromSpv spv addr amountSum (FEE c) (PreExec s) = Some (txIns, sum) ->
  makeBtcTx c spv amounts s =
    (failIf ((sum <=? 0) || bool_decide (length txIns = 0%nat)) "makeBtcTx, utxo not found"
     ≫= fun _ =>
     failIf (int64 (sum - amountSum - FEE c) <? 0) "makeBtcTx, not enough utxos"
     ≫= fun _ =>
     orErr (getUnsignedTx c txIns amounts (int64 (sum - amountSum - FEE c)) script)
       "makeBtcTx, get rawtransaction fail"
     ≫= fun mtx =>
     orErr (BtcEncode c mtx) "makeBtcTx, serialize rawtransaction fail"
     ≫= fun buf =>
     modify (CacheDB_Put (BTC_TX_PREFIX c) buf)
     ≫= fun _ =>
     modify (notify {| ContractAddress := CrossChainManagerContractAddress c;
                       States := ["makeBtcTx"; hex_EncodeToString buf] |})
     ≫= fun _ => mret tt) s.
Proof.
  intros Hsz Hsum Hmax Hscript Haddr Hutxo.
  unfold makeBtcTx. rewrite bool_decide_eq_false_2 by exact Hsz. mrun.
  rewrite run_liftR, Hsum.
  destruct (amountSum >? MaxSatoshi) eqn:G; [lia|]. mrun.
  rewrite Hscript; mrun. rewrite Haddr; mrun. mrun. rewrite Hutxo; mrun.
  reflexivity.
Qed.

(** The funds, in terms of the loop's total [amountSum]: the builder
    computes [change = sum - amountSum - FEE] as an [int64] and
    - fails with "utxo not found" when no output is returned or the
      total is not positive;
    - fails with "not enough utxos" when [change < 0];
    - on success has persisted, under the pending-withdrawal key, the
      encoding of a transaction that spends the selected outputs and
      pays every destination its full amount, then the change when it
      is positive: the outputs add up to the amounts plus the change.
    Up to 4392 destinations [amountSum] is the sum of the amounts
    ([sumAmounts_exact]). *)
Lemma makeBtcTx_change c spv (amounts : gmap string Z) s amountSum script addr txIns sum :
  size amounts <> 0%nat ->
  sumAmounts (map_to_list amounts) 0 = Ok amountSum ->
  amountSum <= MaxSatoshi ->
  buildScript c = Some script ->
  NewAddressScriptHash c script = Some addr ->
  GetUtxosFromSpv spv addr amountSum (FEE c) (PreExec s) = Some (txIns, sum) ->
  let change := int64 (sum - amountSum - FEE c) in
  (- 2 ^ 63 <= sum - amountSum - FEE c < 2 ^ 63 -> change = sum - amountSum - FEE c) /\
  (txIns = [] \/ sum <= 0 ->
   makeBtcTx c spv amounts s = (s, Err "makeBtcTx, utxo not found")) /\
  (txIns <> [] -> 0 < sum -> change < 0 ->
   makeBtcTx c spv amounts s = (s, Err "makeBtcTx, not enough utxos")) /\
  (forall s', makeBtcTx c spv amounts s = (s', Ok tt) ->
     txIns <> [] /\ 0 < sum /\ 0 <= change /\
     exists mtx buf,
       getUnsignedTx c txIns amounts change script = Some mtx /\
       TxIn mtx = txIns /\
       map Value (TxOut_ mtx) =
         (map snd (map_to_list amounts) ++ (if 0 <? change then [change] else []))%list /\
       outputsTotal mtx = sumValues (map_to_list amounts) + change /\
       BtcEncode c mtx = Some buf /\
       CacheDB s' !! BTC_TX_PREFIX c = Some buf).
Proof.
  intros Hsz Hsum Hmax Hscript Haddr Hutxo change.
  pose proof (makeBtcTx_run c spv amounts s amountSum script addr txIns sum
                Hsz Hsum Hmax Hscript Haddr Hutxo) as Hrun.
  fold change in Hrun.
  split; [intros; apply int64_small; assumption|].
  split; [|split].
  - intros Hno. rewrite Hrun.
    assert ((sum <=? 0) || bool_decide (length txIns = 0%nat) = true) as ->.
    { apply orb_true_iff. destruct Hno as [-> | Hle].
      - right. reflexivity.
      - left. lia. }
    mrun. reflexivity.
  - intros Hne Hpos Hneg. rewrite Hrun.
    assert ((sum <=? 0) || bool_decide (length txIns = 0%nat) = false) as ->.
    { apply orb_false_iff. split; [lia|]. apply bool_decide_eq_false.
      destruct txIns; [congruence | discriminate]. }
    mrun. destruct (change <? 0) eqn:G; [|lia]. mrun. reflexivity.
  - intros s'. rewrite Hrun.
    destruct ((sum <=? 0) || bool_decide (length txIns = 0%nat)) eqn:B;
      mrun; [discriminate|].
    apply orb_false_iff in B as [B1 B2]. apply bool_decide_eq_false in B2.
    destruct (change <? 0) eqn:G; mrun; [discriminate|].
    destruct (getUnsignedTx c txIns amounts change script) as [mtx|] eqn:Hm;
      mrun; [|discriminate].
    destruct (BtcEncode c mtx) as [buf|] eqn:Hb; mrun; [|discriminate].
    mrun. mrun. mrun. intros [= <-].
    destruct (getUnsignedTx_outputs _ _ _ _ _ _ Hm) as [Hin Hout].
    split; [intros ->; apply B2; reflexivity|].
    split; [lia|]. split; [lia|].
    exists mtx, buf. split; [reflexivity|]. split; [exact Hin|].
    split; [exact Hout|]. split.
    + rewrite (outputsTotal_eq _ _ _ Hout).
      destruct (0 <? change) eqn:P; cbn [foldr]; lia.
    + split; [exact Hb|]. cbn [notify CacheDB_Put CacheDB]. apply lookup_insert_eq.
Qed.

(** The example of the builder: one destination asking for 500000 and
    a fee of 1000.  With outputs of 600000 at hand the outputs of the
    persisted transaction add up to [500000 + 99000]; with 400000 the
    builder stops at "not enough utxos". *)
Lemma makeBtcTx_change_example :
  let amounts : gmap string Z := {[ "addrA" := 500000 ]} in
  (exists s' mtx buf,
     makeBtcTx BtcExample.codec (BtcExample.spv 100 6 600000) amounts BtcExample.service0 =
       (s', Ok tt) /\
     BtcEncode BtcExample.codec mtx = Some buf /\
     CacheDB s' !! BTC_TX_PREFIX BtcExample.codec = Some buf /\
     map Value (TxOut_ mtx) = [500000; 99000] /\
     outputsTotal mtx = 500000 + 99000) /\
  makeBtcTx BtcExample.codec (BtcExample.spv 100 6 400000) amounts BtcExample.service0 =
    (BtcExample.service0, Err "makeBtcTx, not enough utxos").
Proof.
  intros amounts. split.
  - destruct (makeBtcTx BtcExample.codec (BtcExample.spv 100 6 600000) amounts
                BtcExample.service0) as [s' r] eqn:E.
    assert (r = Ok tt) as -> by (vm_compute in E; congruence).
    destruct (makeBtcTx_change BtcExample.codec (BtcExample.spv 100 6 600000) amounts
                BtcExample.service0 500000 [x51] "custody" [[x10]] 600000)
      as (_ & _ & _ & H);
      [vm_compute; discriminate | reflexivity | vm_compute; discriminate
      | reflexivity | reflexivity | reflexivity | ].
    destruct (H s' E) as (_ & _ & _ & mtx & buf & _ & _ & Hout & Htot & Hb & Hp).
    exists s', mtx, buf. split; [reflexivity|].
    split; [exact Hb|]. split; [exact Hp|]. split; [exact Hout | exact Htot].
  - destruct (makeBtcTx_change BtcExample.codec (BtcExample.spv 100 6 400000) amounts
                BtcExample.service0 500000 [x51] "custody" [[x10]] 400000)
      as (_ & _ & H & _);
      [vm_compute; discriminate | reflexivity | vm_compute; discriminate
      | reflexivity | reflexivity | reflexivity | ].
    apply H; [discriminate | reflexivity | reflexivity].
Qed.

(** 4393 destinations of [MaxSatoshi] each: the loop's total is the sum
    wrapped to 64 bits. *)
Lemma manyAmounts_wrapped :
  let amounts := BtcExample.manyAmounts 4393 MaxSatoshi in
  size amounts = 4393%nat /\
  sumValues (map_to_list amounts) = 4393 * MaxSatoshi /\
  sumAmounts (map_to_list amounts) 0 = Ok (-9221444073709551616).
Proof. cbv zeta. repeat split; vm_compute; reflexivity. Qed.

(** C7. The test of the funds against a total that has wrapped.  Take
    the 4393 destinations of [MaxSatoshi] each, every amount valid, whose
    sum is [4393 * MaxSatoshi], and any answer [(txIns, sum)] of the UTXO
    endpoint with some output, a positive [int64] total [sum] and
    [-9221444073709551616 <= sum - FEE < 1927963145224192].  The change
    of the formula, [sum - sum(amounts) - FEE], is negative.  The builder
    computes its change from the loop's total -9221444073709551616,
    finds [sum + 9221444073709551616 - FEE >= 0] and does not stop at
    "not enough utxos"; once the transaction is constructed and encoded
    it persists it and succeeds, with outputs that pay
    [4393 * MaxSatoshi] and the change, more than the [sum] that the
    selected inputs hold. *)
Theorem makeBtcTx_funding_overflow c spv s script addr txIns sum :
  let amounts := BtcExample.manyAmounts 4393 MaxSatoshi in
  let change := sum + 9221444073709551616 - FEE c in
  buildScript c = Some script ->
  NewAddressScriptHash c script = Some addr ->
  GetUtxosFromSpv spv addr (-9221444073709551616) (FEE c) (PreExec s) = Some (txIns, sum) ->
  txIns <> [] -> 0 < sum < 2 ^ 63 ->
  - 9221444073709551616 <= sum - FEE c < 1927963145224192 ->
  map_Forall (fun _ a => 0 < a <= MaxSatoshi) amounts /\
  sum - sumValues (map_to_list amounts) - FEE c < 0 /\
  0 <= change /\
  (makeBtcTx c spv amounts s).2 <> Err "makeBtcTx, not enough utxos" /\
  (forall mtx buf,
     getUnsignedTx c txIns amounts change script = Some mtx ->
     BtcEncode c mtx = Some buf ->
     exists s',
       makeBtcTx c spv amounts s = (s', Ok tt) /\
       CacheDB s' !! BTC_TX_PREFIX c = Some buf /\
       outputsTotal mtx = 4393 * MaxSatoshi + change /\
       sum < outputsTotal mtx).
Proof.
  intros amounts change Hscript Haddr Hutxo Hne Hpos Hrange.
  destruct manyAmounts_wrapped as (Hsz & Htot & Hsum). fold amounts in Hsz, Htot, Hsum.
  assert (Hch : int64 (sum - -9221444073709551616 - FEE c) = change).
  { unfold change. rewrite int64_small; lia. }
  assert (Hrun := makeBtcTx_run c spv amounts s (-9221444073709551616) script addr txIns sum).
  rewrite Hch in Hrun.
  assert ((sum <=? 0) || bool_decide (length txIns = 0%nat) = false) as B.
  { apply orb_false_iff. split; [lia|]. apply bool_decide_eq_false.
    destruct txIns; [congruence | discriminate]. }
  rewrite B in Hrun.
  assert ((change <? 0) = false) as G by (unfold change; lia).
  rewrite G in Hrun.
  specialize (Hrun ltac:(rewrite Hsz; discriminate) Hsum ltac:(unfold MaxSatoshi; lia)
                Hscript Haddr Hutxo).
  split.
  { intros k a Hk. apply elem_of_map_to_list in Hk.
    change 0 with (int64 0) in Hsum. apply sumAmounts_Ok in Hsum as [F _].
    rewrite Forall_forall in F. apply (F (k, a) Hk). }
  split; [rewrite Htot; unfold MaxSatoshi; lia|].
  split; [unfold change; lia|].
  split.
  - rewrite Hrun. mrun. mrun.
    destruct (getUnsignedTx c txIns amounts change script) as [mtx|]; mrun;
      [|discriminate].
    destruct (BtcEncode c mtx) as [buf|]; mrun; [|discriminate].
    mrun. mrun. mrun. discriminate.
  - intros mtx buf Hm Hb. rewrite Hrun. mrun. mrun. rewrite Hm; mrun. rewrite Hb; mrun.
    mrun. mrun. mrun. eexists. split; [reflexivity|].
    split; [cbn [notify CacheDB_Put CacheDB]; apply lookup_insert_eq|].
    destruct (getUnsignedTx_outputs _ _ _ _ _ _ Hm) as [_ Hout].
    assert (outputsTotal mtx = 4393 * MaxSatoshi + change) as ->.
    { rewrite (outputsTotal_eq _ _ _ Hout), Htot.
      destruct (0 <? change) eqn:P; cbn [foldr]; lia. }
    split; [reflexivity|]. unfold change, MaxSatoshi. lia.
Qed.

(** With one output of 2000 at the custody address and a fee of 1000 the
    formula's change is [2000 - 4393 * MaxSatoshi - 1000 < 0], and the
    builder succeeds with a change of 9221444073709552616. *)
Lemma makeBtcTx_funding_overflow_witness :
  let amounts := BtcExample.manyAmounts 4393 MaxSatoshi in
  2000 - sumValues (map_to_list amounts) - 1000 < 0 /\
  exists s' buf,
    makeBtcTx BtcExample.codec (BtcExample.spv 100 6 2000) amounts BtcExample.service0 =
      (s', Ok tt) /\
    CacheDB s' !! BTC_TX_PREFIX BtcExample.codec = Some buf.
Proof.
  intros amounts.
  destruct (makeBtcTx_funding_overflow BtcExample.codec (BtcExample.spv 100 6 2000)
              BtcExample.service0 [x51] "custody" [[x10]] 2000)
    as (_ & Hneg & _ & _ & H);
    [reflexivity | reflexivity | reflexivity | discriminate | lia
    | vm_compute; split; [discriminate | reflexivity] | ].
  split; [exact Hneg|].
  destruct (getUnsignedTx BtcExample.codec [[x10]] amounts
              (2000 + 9221444073709551616 - FEE BtcExample.codec) [x51])
    as [mtx|] eqn:Hm; [|vm_compute in Hm; discriminate].
  destruct (BtcEncode BtcExample.codec mtx) as [buf|] eqn:Hb;
    [|vm_compute in Hb; discriminate].
  destruct (H mtx buf Hm Hb) as (s' & E & Hp & _).
  exists s', buf. split; [exact E | exact Hp].
Defined.
End BtcBuild.

(** * The peer pool *)

Module PeerPool.
Import NodeManager.

Lemma countActive_fold m : countActive m = map_fold bump 0 m.
Proof. reflexivity. Qed.

Lemma bump_comm j1 z1 j2 z2 y : bump j1 z1 (bump j2 z2 y) = bump j2 z2 (bump j1 z1 y).
Proof. unfold bump. destruct (isActive z1), (isActive z2); lia. Qed.

Lemma bump_weight j p num : bump j p num = num + weight p.
Proof. unfold bump, weight. destruct (isActive p); lia. Qed.

Lemma countActive_empty : countActive ∅ = 0.
Proof. reflexivity. Qed.

Lemma countActive_insert_fresh (m : gmap string PeerPoolItem) k p :
  m !! k = None -> countActive (<[k := p]> m) = countActive m + weight p.
Proof.
  intros Hk. rewrite !countActive_fold, map_fold_insert_L.
  - apply bump_weight.
  - intros. apply bump_comm.
  - exact Hk.
Qed.

Lemma countActive_delete (m : gmap string PeerPoolItem) k p :
  m !! k = Some p -> countActive m = countActive (delete k m) + weight p.
Proof.
  intros Hk. rewrite !countActive_fold, (map_fold_delete_L bump 0 k p m).
  - apply bump_weight.
  - intros. apply bump_comm.
  - exact Hk.
Qed.

Lemma countActive_nonneg (m : gmap string PeerPoolItem) : 0 <= countActive m.
Proof.
  induction m as [|k p m Hk IH] using map_ind.
  - rewrite countActive_empty. lia.
  - rewrite countActive_insert_fresh by exact Hk. unfold weight.
    destruct (isActive p); lia.
Qed.

(** Overwriting an entry: the count loses the old weight and gains the
    new one. *)
Lemma countActive_insert (m : gmap string PeerPoolItem) k p :
  countActive (<[k := p]> m) =
  countActive m - from_option weight 0 (m !! k) + weight p.
Proof.
  rewrite <- insert_delete_eq.
  rewrite countActive_insert_fresh by apply lookup_delete_eq.
  destruct (m !! k) as [q|] eqn:Hk; cbn [from_option].
  - rewrite (countActive_delete m k q Hk). lia.
  - rewrite delete_id by exact Hk. lia.
Qed.

Lemma weight_withStatus_Quiting p : weight (withStatus QuitingStatus p) = 0.
Proof. reflexivity. Qed.

Lemma isActive_withPos pos lockPos p : isActive (withPos pos lockPos p) = isActive p.
Proof. reflexivity. Qed.

(** ** The accessors, run *)

Lemma GetGovernanceView_run s :
  GetGovernanceView s =
  (s, match governanceView s with
      | Some gv => Ok gv
      | None => Err "getGovernanceView, get governanceView error"
      end).
Proof. unfold GetGovernanceView. mrun. destruct (governanceView s); reflexivity. Qed.

Lemma GetView_run s :
  GetView s =
  (s, match governanceView s with
      | Some gv => Ok (View gv)
      | None => Err "getGovernanceView, get governanceView error"
      end).
Proof.
  unfold GetView. rewrite run_bind, GetGovernanceView_run.
  destruct (governanceView s); reflexivity.
Qed.

Lemma GetPeerPoolMap_run view s :
  GetPeerPoolMap view s =
  (s, match peerPool s !! view with
      | Some m => Ok m
      | None => Err "getPeerPoolMap, peerPoolMap is nil"
      end).
Proof. unfold GetPeerPoolMap. mrun. destruct (peerPool s !! view); reflexivity. Qed.

Lemma GetConfig_run s :
  GetConfig s =
  (s, match vbftConfig s with
      | Some cfg => Ok cfg
      | None => Err "getConfig, get config error"
      end).
Proof. unfold GetConfig. mrun. destruct (vbftConfig s); reflexivity. Qed.

Lemma getPreConfig_run s :
  getPreConfig s =
  (s, Ok (default {| Configuration_ := None; SetView := 0 |} (preConfig s))).
Proof. unfold getPreConfig. mrun. destruct (preConfig s); reflexivity. Qed.

Lemma getGlobalParam_run s :
  getGlobalParam s =
  (s, match globalParam s with
      | Some g => Ok g
      | None => Err "getGlobalParam, get globalParam error"
      end).
Proof. unfold getGlobalParam. mrun. destruct (globalParam s); reflexivity. Qed.

Lemma getCandidateIndex_run s :
  getCandidateIndex s =
  (s, match candidateIndex s with
      | Some i => Ok i
      | None => Err "getCandidateIndex, get candidateIndex error"
      end).
Proof. unfold getCandidateIndex. mrun. destruct (candidateIndex s); reflexivity. Qed.

Lemma GetPeeApply_run pubkey s :
  GetPeeApply pubkey s =
  (s, match hex_DecodeString pubkey with
      | Some prefix => Ok (peerApply s !! prefix)
      | None => Err "getPeerApply, peerPubkey format error"
      end).
Proof. unfold GetPeeApply. destruct (hex_DecodeString pubkey); mrun; [mrun|]; reflexivity. Qed.

Lemma appCallTransferOnt_run from to amount s :
  appCallTransferOnt from to amount s =
  if balanceOf s from <? amount
  then (s, Err "appCallTransferOnt, transfer error")
  else (let s1 := set_balances (<[from := balanceOf s from - amount]> (balances s)) s in
        set_balances (<[to := balanceOf s1 to + amount]> (balances s1)) s1, Ok tt).
Proof.
  unfold appCallTransferOnt. mrun.
  destruct (balanceOf s from <? amount); mrun; [reflexivity|]. mrun. reflexivity.
Qed.

(** One accessor in front of a handler: read it and split on the
    outcome. *)
Ltac astep :=
  rewrite run_withErr;
  first
    [ rewrite GetView_run | rewrite GetPeerPoolMap_run | rewrite GetConfig_run
    | rewrite getPreConfig_run | rewrite getGlobalParam_run
    | rewrite GetGovernanceView_run | rewrite getCandidateIndex_run
    | rewrite GetPeeApply_run ];
  cbv beta iota.

Ltac hstep :=
  first
    [ mstep
    | astep;
      try match goal with
        | |- context [ match ?o with Some _ => _ | None => _ end ] => destruct o eqn:?
        end; cbv beta iota ].

(** ** Stake reduction *)

(** C9. [ReducePos] has no bound on the amount: for a node in the pool
    of the current view with status Candidate or Consensus, called by its
    owner, a reduction by more than the node's stake succeeds, and the
    node's entry in the pool is the old one with [Pos] set to
    [(Pos - params.Pos) mod 2^64] and [LockPos] set to
    [(LockPos + params.Pos) mod 2^64]; index, key, address and status
    are the old ones and nothing else in the store changes. *)
Theorem ReducePos_no_bound_check native params s gv pool item :
  length (rpAddress params) = 20%nat ->
  CheckWitness native (rpAddress params) = true ->
  governanceView s = Some gv ->
  peerPool s !! View gv = Some pool ->
  pool !! rpPeerPubkey params = Some item ->
  Status_ item = CandidateStatus \/ Status_ item = ConsensusStatus ->
  rpAddress params = Address item ->
  Pos item < rpPos params ->
  ReducePos native (Some params) s =
    (set_peerPool
       (<[View gv :=
            <[rpPeerPubkey params :=
                {| Index := Index item; PeerPubkey := PeerPubkey item;
                   Address := Address item; Status_ := Status_ item;
                   Pos := (Pos item - rpPos params) mod 2 ^ 64;
                   LockPos := (LockPos item + rpPos params) mod 2 ^ 64 |}]> pool]>
          (peerPool s)) s,
     Ok tt).
Proof.
  intros Hlen Hw Hgv Hpool Hitem Hst Haddr _.
  unfold ReducePos. mrun.
  unfold AddressParseFromBytes. rewrite bool_decide_eq_true_2 by exact Hlen. mrun.
  unfold ValidateOwner. rewrite Hw. cbn [negb]. mrun.
  astep. rewrite Hgv. astep. rewrite Hpool. rewrite Hitem. mrun.
  assert (isActive item = true) as ->.
  { unfold isActive. destruct Hst as [-> | ->]; reflexivity. }
  cbn [negb]. mrun.
  unfold bytes_Equal. rewrite bool_decide_eq_true_2 by exact Haddr. cbn [negb]. mrun.
  reflexivity.
Qed.

Lemma ReducePos_no_bound_check_witness :
  let params := NodeManagerExample.stake "01" 5000 in
  let s := NodeManagerExample.store 10 49 0 in
  exists s',
    ReducePos NodeManagerExample.native (Some params) s = (s', Ok tt) /\
    (peerPool s' !! 3) ≫= (.!! "01") =
      Some {| Index := 1; PeerPubkey := "01"; Address := NodeManagerExample.owner;
              Status_ := ConsensusStatus;
              Pos := 18446744073709547616; LockPos := 5000 |}.
Proof.
  intros params s. eexists. split.
  - apply (ReducePos_no_bound_check NodeManagerExample.native params s
             {| View := 3; gvHeight := 1; gvTxHash := [] |}
             (NodeManagerExample.pool 10) (NodeManagerExample.peer 1 "01"));
      [reflexivity | reflexivity | reflexivity | reflexivity | reflexivity
      | right; reflexivity | reflexivity | cbn; lia].
  - vm_compute. reflexivity.
Defined.

(** ** Leaving the pool *)

(** [QuitNode] once the caller, the node and the configurations are in
    place: the outcome is decided by the count of the pool before the
    change and the [K] of the effective configuration. *)
Lemma QuitNode_run native params s gv pool item active config :
  length (p2Address params) = 20%nat ->
  CheckWitness native (p2Address params) = true ->
  governanceView s = Some gv ->
  peerPool s !! View gv = Some pool ->
  pool !! p2PeerPubkey params = Some item ->
  Status_ item = CandidateStatus \/ Status_ item = ConsensusStatus ->
  p2Address params = Address item ->
  vbftConfig s = Some active ->
  effectiveConfig s (View gv) = Some config ->
  QuitNode native (Some params) s =
    if countActive pool <=? K config
    then (s, Err "quitNode, num of peers is less than K")
    else (set_peerPool
            (<[View gv := <[p2PeerPubkey params := withStatus QuitingStatus item]> pool]>
               (peerPool s)) s,
          Ok tt).
Proof.
  intros Hlen Hw Hgv Hpool Hitem Hst Haddr Hact Heff.
  unfold QuitNode. mrun.
  unfold AddressParseFromBytes. rewrite bool_decide_eq_true_2 by exact Hlen. mrun.
  unfold ValidateOwner. rewrite Hw. cbn [negb]. mrun.
  astep. rewrite Hgv. astep. rewrite Hpool. rewrite Hitem. mrun.
  assert (isActive item = true) as ->.
  { unfold isActive. destruct Hst as [-> | ->]; reflexivity. }
  cbn [negb]. mrun.
  unfold bytes_Equal. rewrite bool_decide_eq_true_2 by exact Haddr. cbn [negb]. mrun.
  astep. rewrite Hact. astep.
  unfold effectiveConfig in Heff. cbv zeta in Heff. rewrite Hact in Heff.
  cbv zeta. rewrite Heff. mrun.
  destruct (countActive pool <=? K config); mrun; reflexivity.
Qed.

(** C4, as amended.  With the effective [K] that of the configuration
    staged at the current view when there is one and of the active
    configuration otherwise, [QuitNode] is turned down, the store
    untouched, whenever the pool of the current view counts at most [K]
    Candidate and Consensus nodes before the exit, that is whenever the
    exit would leave fewer than [K]; with more than [K] the node's
    status becomes Quitting and at least [K] such nodes remain. *)
Theorem QuitNode_liveness_guard native params s gv pool item active config :
  length (p2Address params) = 20%nat ->
  CheckWitness native (p2Address params) = true ->
  governanceView s = Some gv ->
  peerPool s !! View gv = Some pool ->
  pool !! p2PeerPubkey params = Some item ->
  Status_ item = CandidateStatus \/ Status_ item = ConsensusStatus ->
  p2Address params = Address item ->
  vbftConfig s = Some active ->
  effectiveConfig s (View gv) = Some config ->
  let pool' := <[p2PeerPubkey params := withStatus QuitingStatus item]> pool in
  countActive pool' = countActive pool - 1 /\
  (countActive pool - 1 < K config ->
   QuitNode native (Some params) s = (s, Err "quitNode, num of peers is less than K")) /\
  (K config <= countActive pool - 1 ->
   QuitNode native (Some params) s =
     (set_peerPool (<[View gv := pool']> (peerPool s)) s, Ok tt) /\
   Status_ <$> pool' !! p2PeerPubkey params = Some QuitingStatus /\
   K config <= countActive pool').
Proof.
  intros Hlen Hw Hgv Hpool Hitem Hst Haddr Hact Heff pool'.
  pose proof (QuitNode_run _ _ _ _ _ _ _ _ Hlen Hw Hgv Hpool Hitem Hst Haddr Hact Heff)
    as Hrun.
  assert (Hcount : countActive pool' = countActive pool - 1).
  { unfold pool'. rewrite countActive_insert, Hitem. cbn [from_option].
    rewrite weight_withStatus_Quiting.
    assert (weight item = 1) as ->; [|lia].
    unfold weight, isActive. destruct Hst as [-> | ->]; reflexivity. }
  split; [exact Hcount|]. split.
  - intros Hlt. rewrite Hrun.
    destruct (countActive pool <=? K config) eqn:G; [reflexivity|lia].
  - intros Hge. split; [|split].
    + rewrite Hrun. destruct (countActive pool <=? K config) eqn:G; [lia|reflexivity].
    + unfold pool'. rewrite lookup_insert_eq. reflexivity.
    + lia.
Qed.

Lemma QuitNode_liveness_guard_witness :
  let s := NodeManagerExample.store 10 49 0 in
  let params := NodeManagerExample.quit "01" in
  (exists s', QuitNode NodeManagerExample.native (Some params) s = (s', Ok tt)) /\
  QuitNode NodeManagerExample.native (Some params) (NodeManagerExample.store 7 49 0) =
    (NodeManagerExample.store 7 49 0, Err "quitNode, num of peers is less than K").
Proof.
  intros s params. split.
  - destruct (QuitNode_liveness_guard NodeManagerExample.native params s
                {| View := 3; gvHeight := 1; gvTxHash := [] |}
                (NodeManagerExample.pool 10) (NodeManagerExample.peer 1 "01")
                NodeManagerExample.config7 NodeManagerExample.config7)
      as (_ & _ & H);
      [reflexivity | reflexivity | reflexivity | reflexivity | reflexivity
      | right; reflexivity | reflexivity | reflexivity | reflexivity | ].
    destruct H as (H & _); [vm_compute; discriminate|]. eexists. exact H.
  - destruct (QuitNode_liveness_guard NodeManagerExample.native params
                (NodeManagerExample.store 7 49 0)
                {| View := 3; gvHeight := 1; gvTxHash := [] |}
                (NodeManagerExample.pool 7) (NodeManagerExample.peer 1 "01")
                NodeManagerExample.config7 NodeManagerExample.config7)
      as (_ & H & _);
      [reflexivity | reflexivity | reflexivity | reflexivity | reflexivity
      | right; reflexivity | reflexivity | reflexivity | reflexivity | ].
    apply H. vm_compute. reflexivity.
Defined.

(** C4 as stated fails: eight nodes in consensus and [K = 7], nothing
    staged.  The exit of one of them leaves seven, which is "to or
    below" [K], and it is granted. *)
Lemma QuitNode_liveness_guard_counterexample :
  let s := NodeManagerExample.store 8 49 0 in
  let r := QuitNode NodeManagerExample.native (Some (NodeManagerExample.quit "01")) s in
  K <$> effectiveConfig s 3 = Some 7 /\
  activeCount s = 8 /\
  r.2 = Ok tt /\
  activeCount r.1 = 7 /\
  (Status_ <$> ((peerPool r.1 !! 3) ≫= (.!! "01"))) = Some QuitingStatus.
Proof. cbv zeta. repeat split; vm_compute; reflexivity. Qed.

(** ** Staging a configuration *)

(** A successful [UpdateConfig] writes the staged configuration, tagged
    with the current view, and nothing else. *)
Lemma UpdateConfig_Ok_inv native input s s' :
  UpdateConfig native input s = (s', Ok tt) ->
  exists configuration gv,
    input = Some configuration /\
    governanceView s = Some gv /\
    s' = set_preConfig
           (Some {| Configuration_ := Some configuration; SetView := View gv |}) s.
Proof.
  unfold UpdateConfig.
  do 5 (hstep; try discriminate).
  repeat (mstep; try discriminate).
  unfold putPreConfig. rewrite end_modify. intros [= <-]. eauto.
Qed.

(** [UpdateGlobalParam] reads the active configuration only. *)
Lemma UpdateGlobalParam_staged_irrelevant native input pc s :
  (UpdateGlobalParam native input (set_preConfig pc s)).2 =
  (UpdateGlobalParam native input s).2.
Proof.
  unfold UpdateGlobalParam.
  repeat (mstep; try reflexivity).
  rewrite !run_withErr, !GetConfig_run. cbn [vbftConfig set_preConfig].
  destruct (vbftConfig s); [|reflexivity].
  repeat (mstep; try reflexivity).
Qed.

(** C3, as amended.  A configuration staged by [UpdateConfig] at view
    [v] leaves the active configuration as it was, and with it the
    check of [UpdateGlobalParam]; but [QuitNode], while the view is
    still [v], takes the staged configuration at once: its count guard
    compares with the staged [K], not with the active one. *)
Theorem staged_config_in_QuitNode native configuration s s' :
  UpdateConfig native (Some configuration) s = (s', Ok tt) ->
  exists gv,
    governanceView s = Some gv /\
    s' = set_preConfig
           (Some {| Configuration_ := Some configuration; SetView := View gv |}) s /\
    vbftConfig s' = vbftConfig s /\
    (forall input, (UpdateGlobalParam native input s').2 =
                   (UpdateGlobalParam native input s).2) /\
    effectiveConfig s' (View gv) = Some configuration /\
    forall params pool item active,
      length (p2Address params) = 20%nat ->
      CheckWitness native (p2Address params) = true ->
      peerPool s !! View gv = Some pool ->
      pool !! p2PeerPubkey params = Some item ->
      Status_ item = CandidateStatus \/ Status_ item = ConsensusStatus ->
      p2Address params = Address item ->
      vbftConfig s = Some active ->
      QuitNode native (Some params) s' =
        if countActive pool <=? K configuration
        then (s', Err "quitNode, num of peers is less than K")
        else (set_peerPool
                (<[View gv :=
                     <[p2PeerPubkey params := withStatus QuitingStatus item]> pool]>
                   (peerPool s')) s',
              Ok tt).
Proof.
  intros E. apply UpdateConfig_Ok_inv in E as (cfg & gv & [= <-] & Hgv & ->).
  exists gv. split; [exact Hgv|]. split; [reflexivity|]. split; [reflexivity|].
  split; [intros; apply UpdateGlobalParam_staged_irrelevant|].
  assert (Heff : effectiveConfig
                   (set_preConfig
                      (Some {| Configuration_ := Some configuration;
                               SetView := View gv |}) s) (View gv) =
                 Some configuration).
  { unfold effectiveConfig. cbn.
    rewrite bool_decide_eq_true_2 by reflexivity. reflexivity. }
  split; [exact Heff|].
  intros params pool item active Hlen Hw Hpool Hitem Hst Haddr Hact.
  apply (QuitNode_run native params _ gv pool item active configuration);
    try assumption.
Qed.

Lemma staged_config_in_QuitNode_witness :
  let s := NodeManagerExample.store 10 49 0 in
  exists s',
    UpdateConfig NodeManagerExample.native (Some NodeManagerExample.config10) s = (s', Ok tt) /\
    QuitNode NodeManagerExample.native (Some (NodeManagerExample.quit "01")) s' =
      (s', Err "quitNode, num of peers is less than K").
Proof.
  intros s.
  destruct (UpdateConfig NodeManagerExample.native (Some NodeManagerExample.config10) s)
    as [s' r] eqn:E.
  assert (r = Ok tt) as -> by (vm_compute in E; congruence).
  exists s'. split; [reflexivity|].
  destruct (staged_config_in_QuitNode _ _ _ _ E) as (gv & Hgv & _ & _ & _ & _ & H).
  injection Hgv as <-.
  rewrite (H (NodeManagerExample.quit "01") (NodeManagerExample.pool 10)
             (NodeManagerExample.peer 1 "01") NodeManagerExample.config7);
    [reflexivity | reflexivity | reflexivity | reflexivity | reflexivity
    | right; reflexivity | reflexivity | reflexivity].
Defined.

(** C3 as stated fails: ten nodes in consensus at view 3 with [K = 7]
    active.  Before anything is staged the exit of a node is granted;
    once [K = 10] is staged, with the view still 3 and no commit in
    between, the same exit is turned down by the count guard. *)
Lemma staged_config_delay_counterexample :
  let s := NodeManagerExample.store 10 49 0 in
  let quit := Some (NodeManagerExample.quit "01") in
  let staged := UpdateConfig NodeManagerExample.native (Some NodeManagerExample.config10) s in
  (QuitNode NodeManagerExample.native quit s).2 = Ok tt /\
  staged.2 = Ok tt /\
  View <$> governanceView staged.1 = Some 3 /\
  K <$> vbftConfig staged.1 = Some 7 /\
  (QuitNode NodeManagerExample.native quit staged.1).2 =
    Err "quitNode, num of peers is less than K".
Proof. cbv zeta. repeat split; vm_compute; reflexivity. Qed.


(** ** Approving candidates *)

Lemma approveEffect_Err input s e : approveEffect input s (s, Err e).
Proof.
  unfold approveEffect; cbn [fst snd]. repeat split; intros; discriminate.
Qed.

(** The last part of [ApproveCandidate], lines 393-421, from a store
    [s1] that differs from [s] in the index allocator at most. *)
Lemma ApproveCandidate_tail p gp item s s1 :
  governanceView s1 = governanceView s ->
  globalParam s1 = globalParam s ->
  peerPool s1 = peerPool s ->
  globalParam s = Some gp ->
  Status_ item = CandidateStatus ->
  approveEffect (Some p) s
    ((withErr GetView "approveCandidate, get view error" ≫= fun view =>
      withErr (GetPeerPoolMap view) "approveCandidate, get peerPoolMap error"
      ≫= fun peerPoolMap =>
      failIf (countActive peerPoolMap >=? CandidateNum gp)
        "approveCandidate, num of candidate node is full"
      ≫= fun _ => putPeerPoolMap (<[ppPeerPubkey p := item]> peerPoolMap) view) s1).
Proof.
  intros H1 H2 H3 Hgp Hst.
  assert (Hfail : forall e, approveEffect (Some p) s (s1, Err e)).
  { intros e. unfold approveEffect; cbn [fst snd].
    repeat split; intros; try congruence; discriminate. }
  astep. rewrite H1. destruct (governanceView s) as [gv|] eqn:Hgv; [|apply Hfail].
  astep. rewrite H3. destruct (peerPool s !! View gv) as [pool|] eqn:Hpool; [|apply Hfail].
  destruct (countActive pool >=? CandidateNum gp) eqn:G; mrun; [apply Hfail|].
  unfold putPeerPoolMap. rewrite end_modify.
  unfold approveEffect, set_peerPool.
  cbn [fst snd governanceView globalParam peerPool].
  split; [congruence|]. split; [assumption|]. split.
  - intros [e He]; discriminate.
  - intros _. exists p, gp, gv, pool, item. rewrite H3.
    repeat split; try assumption; try reflexivity. lia.
Qed.

Lemma ApproveCandidate_effect native input s :
  approveEffect input s (ApproveCandidate native input s).
Proof.
  unfold ApproveCandidate.
  destruct input as [p|]; mrun; [|apply approveEffect_Err].
  destruct (AddressFromBookkeepers native) as [op|]; mrun; [|apply approveEffect_Err].
  destruct (negb (ValidateOwner native op)); mrun; [apply approveEffect_Err|].
  astep. destruct (hex_DecodeString (ppPeerPubkey p)) as [prefix|];
    [|apply approveEffect_Err].
  destruct (peerApply s !! prefix) as [peer|] eqn:Hpeer; mrun; [|apply approveEffect_Err].
  astep. destruct (globalParam s) as [gp|] eqn:Hgp; [|apply approveEffect_Err].
  destruct (rpPos peer <? uint64 (MinInitStake gp)); mrun; [apply approveEffect_Err|].
  destruct (hex_DecodeString (rpPeerPubkey peer)) as [prefix'|]; mrun;
    [|apply approveEffect_Err].
  mrun.
  destruct (peerIndex s !! prefix') as [index|] eqn:Hidx.
  - mrun. apply ApproveCandidate_tail; reflexivity || assumption.
  - rewrite run_assoc. astep.
    destruct (candidateIndex s) as [ci|] eqn:Hci; [|apply approveEffect_Err].
    rewrite run_assoc, run_withErr. unfold putCandidateIndex. rewrite end_modify.
    rewrite run_assoc. mrun. mrun.
    apply ApproveCandidate_tail; reflexivity || assumption.
Qed.

(** The count of the current view after one call. *)
Lemma ApproveCandidate_count native input s :
  let r := ApproveCandidate native input s in
  (r.2 = Ok tt ->
   exists gp, globalParam s = Some gp /\
              activeCount s < CandidateNum gp /\
              activeCount r.1 <= activeCount s + 1) /\
  ((exists e, r.2 = Err e) -> activeCount r.1 = activeCount s).
Proof.
  cbv zeta. destruct (ApproveCandidate_effect native input s) as (Hv & Hg & He & Ho).
  split.
  - intros Hok. destruct (Ho Hok) as (p & gp & gv & pool & item & _ & Hgp & Hgv & Hpool
                                       & Hlt & Hst & Hpp).
    exists gp. split; [exact Hgp|]. unfold activeCount. rewrite Hv, Hgv, Hpool, Hpp.
    rewrite lookup_insert_eq. cbn [from_option]. split; [exact Hlt|].
    rewrite countActive_insert.
    assert (weight item = 1) as -> by (unfold weight, isActive; rewrite Hst; reflexivity).
    destruct (pool !! ppPeerPubkey p) as [q|]; cbn [from_option]; [|lia].
    unfold weight. destruct (isActive q); lia.
  - intros Herr. unfold activeCount. rewrite Hv, (He Herr). reflexivity.
Qed.

(** With the pool full the call fails. *)
Lemma ApproveCandidate_full native input s gp :
  globalParam s = Some gp -> CandidateNum gp <= activeCount s ->
  exists e, (ApproveCandidate native input s).2 = Err e.
Proof.
  intros Hgp Hfull.
  destruct (ApproveCandidate native input s) as [s' [[]|e]] eqn:E; [|eauto].
  exfalso. pose proof (ApproveCandidate_count native input s) as [Hok _].
  rewrite E in Hok. destruct (Hok eq_refl) as (gp' & Hgp' & Hlt & _).
  assert (gp' = gp) as -> by congruence. lia.
Qed.

Lemma approveAll_cons native input calls s :
  approveAll ((native, input) :: calls) s =
  approveAll calls (ApproveCandidate native input s).1.
Proof. reflexivity. Qed.

(** The calls of a sequence keep the view and the cap, and the count
    never ends above the larger of its start and the cap. *)
Lemma approveAll_count calls : forall s gp,
  globalParam s = Some gp ->
  governanceView (approveAll calls s) = governanceView s /\
  globalParam (approveAll calls s) = Some gp /\
  activeCount (approveAll calls s) <= Z.max (activeCount s) (CandidateNum gp).
Proof.
  induction calls as [|[native input] calls IH]; intros s gp Hgp.
  - cbn. repeat split; [exact Hgp | lia].
  - rewrite approveAll_cons.
    destruct (ApproveCandidate_effect native input s) as (Hv & Hg & _).
    pose proof (ApproveCandidate_count native input s) as [Hok Herr]. cbv zeta in *.
    destruct (IH (ApproveCandidate native input s).1 gp) as (IHv & IHg & IHc);
      [rewrite Hg; exact Hgp|].
    split; [rewrite IHv; exact Hv|]. split; [exact IHg|].
    destruct (ApproveCandidate native input s).2 as [[]|e] eqn:E.
    + destruct (Hok eq_refl) as (gp' & Hgp' & Hlt & Hle).
      assert (gp' = gp) as -> by congruence. lia.
    + rewrite Herr in IHc by eauto. exact IHc.
Qed.

(** At the cap check itself the message is the one of line 411. *)
Lemma ApproveCandidate_full_message native p s op prefix peer gp prefix' gv pool :
  AddressFromBookkeepers native = Some op ->
  CheckWitness native op = true ->
  hex_DecodeString (ppPeerPubkey p) = Some prefix ->
  peerApply s !! prefix = Some peer ->
  globalParam s = Some gp ->
  uint64 (MinInitStake gp) <= rpPos peer ->
  hex_DecodeString (rpPeerPubkey peer) = Some prefix' ->
  is_Some (peerIndex s !! prefix') \/ is_Some (candidateIndex s) ->
  governanceView s = Some gv ->
  peerPool s !! View gv = Some pool ->
  CandidateNum gp <= countActive pool ->
  (ApproveCandidate native (Some p) s).2 =
    Err "approveCandidate, num of candidate node is full".
Proof.
  intros Hop Hw Hpre Hpeer Hgp Hstake Hpre' Hidx Hgv Hpool Hfull.
  unfold ApproveCandidate. mrun. rewrite Hop; mrun.
  unfold ValidateOwner. rewrite Hw. cbn [negb]. mrun.
  astep. rewrite Hpre, Hpeer. mrun. astep. rewrite Hgp.
  destruct (rpPos peer <? uint64 (MinInitStake gp)) eqn:G; [lia|]. mrun.
  rewrite Hpre'; mrun. mrun.
  assert (Htail : forall (index : Z) (s1 : Store),
    governanceView s1 = governanceView s -> peerPool s1 = peerPool s ->
    ((withErr GetView "approveCandidate, get view error" ≫= fun view =>
      withErr (GetPeerPoolMap view) "approveCandidate, get peerPoolMap error"
      ≫= fun peerPoolMap =>
      failIf (countActive peerPoolMap >=? CandidateNum gp)
        "approveCandidate, num of candidate node is full"
      ≫= fun _ =>
      putPeerPoolMap
        (<[ppPeerPubkey p := {| Index := index; PeerPubkey := rpPeerPubkey peer;
                                Address := rpAddress peer; Status_ := CandidateStatus;
                                Pos := rpPos peer; LockPos := 0 |}]> peerPoolMap)
        view) s1).2 = Err "approveCandidate, num of candidate node is full").
  { intros index s1 H1 H3. astep. rewrite H1, Hgv. astep. rewrite H3, Hpool.
    destruct (countActive pool >=? CandidateNum gp) eqn:G'; [|lia]. mrun. reflexivity. }
  destruct (peerIndex s !! prefix') as [index|] eqn:Hi.
  - mrun. apply Htail; reflexivity.
  - destruct Hidx as [[? [=]] | [ci Hci]].
    rewrite run_assoc. astep. rewrite Hci.
    rewrite run_assoc, run_withErr. unfold putCandidateIndex. rewrite end_modify.
    rewrite run_assoc. mrun. mrun. apply Htail; reflexivity.
Qed.

(** C5. The cap of the candidates under [ApproveCandidate].  After any
    number of the calls of a sequence of [ApproveCandidate] calls the
    cap and the view are the same, and the count of the Candidate and
    Consensus nodes of the current view is at most the larger of its
    value at the start and the cap: from a store that holds at most
    [GlobalParam.CandidateNum] such nodes the count never exceeds the
    cap.  A call made with the count at or above the cap fails and
    leaves the count alone, with the message "num of candidate node is
    full" when it gets as far as the check; a call that succeeds found
    the count below the cap and raises it by at most one. *)
Theorem candidate_cap_invariant calls s gp :
  globalParam s = Some gp ->
  (forall n,
     let s' := approveAll (take n calls) s in
     globalParam s' = Some gp /\
     governanceView s' = governanceView s /\
     activeCount s' <= Z.max (activeCount s) (CandidateNum gp) /\
     (activeCount s <= CandidateNum gp -> activeCount s' <= CandidateNum gp)) /\
  (forall native input s0 gp0,
     globalParam s0 = Some gp0 ->
     let r := ApproveCandidate native input s0 in
     (CandidateNum gp0 <= activeCount s0 ->
      (exists e, r.2 = Err e) /\ activeCount r.1 = activeCount s0) /\
     (r.2 = Ok tt ->
      activeCount s0 < CandidateNum gp0 /\ activeCount r.1 <= activeCount s0 + 1)) /\
  (forall native p s0 op prefix peer gp0 prefix' gv pool,
     AddressFromBookkeepers native = Some op ->
     CheckWitness native op = true ->
     hex_DecodeString (ppPeerPubkey p) = Some prefix ->
     peerApply s0 !! prefix = Some peer ->
     globalParam s0 = Some gp0 ->
     uint64 (MinInitStake gp0) <= rpPos peer ->
     hex_DecodeString (rpPeerPubkey peer) = Some prefix' ->
     is_Some (peerIndex s0 !! prefix') \/ is_Some (candidateIndex s0) ->
     governanceView s0 = Some gv ->
     peerPool s0 !! View gv = Some pool ->
     CandidateNum gp0 <= countActive pool ->
     (ApproveCandidate native (Some p) s0).2 =
       Err "approveCandidate, num of candidate node is full").
Proof.
  intros Hgp. split; [|split].
  - intros n. cbv zeta.
    destruct (approveAll_count (take n calls) s gp Hgp) as (Hv & Hg & Hc).
    split; [exact Hg|]. split; [exact Hv|]. split; [exact Hc | lia].
  - intros native input s0 gp0 Hgp0. cbv zeta.
    pose proof (ApproveCandidate_count native input s0) as [Hok Herr]. cbv zeta in *.
    split.
    + intros Hfull.
      destruct (ApproveCandidate_full native input s0 gp0 Hgp0 Hfull) as [e He].
      split; [eauto|]. apply Herr. eauto.
    + intros Hr. destruct (Hok Hr) as (gp' & Hgp' & Hlt & Hle).
      assert (gp' = gp0) as -> by congruence. split; assumption.
  - intros. eapply ApproveCandidate_full_message; eassumption.
Qed.

Lemma candidate_cap_invariant_witness :
  let full := NodeManagerExample.applied (NodeManagerExample.store 10 10 0) in
  let room := NodeManagerExample.applied (NodeManagerExample.store 9 10 0) in
  let call := (NodeManagerExample.native, Some (NodeManagerExample.approve "0b")) in
  activeCount (approveAll [call; call] room) <= 10 /\
  activeCount (approveAll [call] room) = 10 /\
  (ApproveCandidate call.1 call.2 full).2 =
    Err "approveCandidate, num of candidate node is full".
Proof.
  intros full room call. split; [|split].
  - destruct (candidate_cap_invariant [call; call] room
                {| MinInitStake := 1; CandidateNum := 10 |})
      as (H & _); [reflexivity | ].
    destruct (H 2%nat) as (_ & _ & _ & Hc). apply Hc. vm_compute. discriminate.
  - vm_compute. reflexivity.
  - destruct (candidate_cap_invariant [] full
                {| MinInitStake := 1; CandidateNum := 10 |})
      as (_ & _ & H); [reflexivity | ].
    apply (H NodeManagerExample.native (NodeManagerExample.approve "0b") full
             NodeManagerExample.operator [x0b] (NodeManagerExample.stake "0b" 5000)
             {| MinInitStake := 1; CandidateNum := 10 |} [x0b]
             {| View := 3; gvHeight := 1; gvTxHash := [] |} (NodeManagerExample.pool 10));
      try reflexivity; try (vm_compute; discriminate).
    right. eexists. reflexivity.
Defined.

(** A store that holds more nodes than the cap allows, reached by calls
    of the contract.  With [K = 7] active and room for 30 candidates, 28
    nodes are in the pool; two more are approved (30, the cap); then
    [UpdateGlobalParam] lowers the cap to 28, which it tests against
    [4 * K] and not against the pool.  The pool of the current view now
    holds 30 Candidate and Consensus nodes under a cap of 28, before and
    after any [ApproveCandidate]. *)
Lemma candidate_cap_counterexample :
  let native := NodeManagerExample.native in
  let s0 := NodeManagerExample.manyStore 28 2 30 in
  let s1 := approveAll [ (native, Some (NodeManagerExample.approve "1d"));
                         (native, Some (NodeManagerExample.approve "1e")) ] s0 in
  let lowered := {| MinInitStake := 1; CandidateNum := 28 |} in
  activeCount s0 = 28 /\
  globalParam s0 = Some {| MinInitStake := 1; CandidateNum := 30 |} /\
  activeCount s1 = 30 /\
  exists s2,
    UpdateGlobalParam native (Some lowered) s1 = (s2, Ok tt) /\
    globalParam s2 = Some lowered /\
    activeCount s2 = 30 /\
    ~ (forall calls n, activeCount (approveAll (take n calls) s2) <= CandidateNum lowered).
Proof.
  cbv zeta. split; [vm_compute; reflexivity|]. split; [reflexivity|].
  split; [vm_compute; reflexivity|].
  eexists. split; [vm_compute; reflexivity|].
  split; [reflexivity|]. split; [vm_compute; reflexivity|].
  intros H. specialize (H [] 0%nat). vm_compute in H. apply H. reflexivity.
Qed.

(** ** Failed calls *)

(** A call that fails inside a ledger transaction leaves the ledger as
    it was, whatever the handler has put into its cache. *)
Lemma Invoke_Err {A} (handler : M Store A) ledger s' e :
  Invoke handler ledger = (s', Err e) -> s' = ledger.
Proof.
  unfold Invoke. destruct (handler ledger) as [cache [a|e']]; intros [= <- _] || intros [=].
  reflexivity.
Qed.

Lemma Invoke_of_Err {A} (handler : M Store A) ledger cache e :
  handler ledger = (cache, Err e) -> Invoke handler ledger = (ledger, Err e).
Proof. unfold Invoke. intros ->. reflexivity. Qed.

Ltac keeps_store :=
  repeat (hstep; try (intros [= <- _]; reflexivity));
  try (intros [= <- _]; reflexivity); try (intros [=]).

(** The handlers whose checks all come before their one write. *)
Lemma QuitNode_Err_keeps_store native input s s' e :
  QuitNode native input s = (s', Err e) -> s' = s.
Proof. unfold QuitNode, putPeerPoolMap. cbv zeta. keeps_store. Qed.

Lemma ReducePos_Err_keeps_store native input s s' e :
  ReducePos native input s = (s', Err e) -> s' = s.
Proof. unfold ReducePos, putPeerPoolMap. cbv zeta. keeps_store. Qed.

Lemma UpdateConfig_Err_keeps_store native input s s' e :
  UpdateConfig native input s = (s', Err e) -> s' = s.
Proof. unfold UpdateConfig, putPreConfig. cbv zeta. keeps_store. Qed.

Lemma UpdateGlobalParam_Err_keeps_store native input s s' e :
  UpdateGlobalParam native input s = (s', Err e) -> s' = s.
Proof. unfold UpdateGlobalParam, putGlobalParam. keeps_store. Qed.

Lemma WhiteNode_Err_keeps_store native input s s' e :
  WhiteNode native input s = (s', Err e) -> s' = s.
Proof. unfold WhiteNode. keeps_store. Qed.

(** [RegisterCandidate] when the escrow transfer fails: the application
    is in the handler's cache already. *)
Lemma RegisterCandidate_transfer_fails native params s prefix gv pool :
  length (rpAddress params) = 20%nat ->
  CheckWitness native (rpAddress params) = true ->
  ValidatePeerPubKeyFormat native (rpPeerPubkey params) = true ->
  hex_DecodeString (rpPeerPubkey params) = Some prefix ->
  blackList s !! prefix = None ->
  peerApply s !! prefix = None ->
  governanceView s = Some gv ->
  peerPool s !! View gv = Some pool ->
  pool !! rpPeerPubkey params = None ->
  balanceOf s (rpAddress params) < rpPos params ->
  RegisterCandidate native (Some params) s =
    (set_peerApply (<[prefix := params]> (peerApply s)) s,
     Err "registerCandidate, ont transfer error").
Proof.
  intros Hlen Hw Hfmt Hpre Hbl Hpa Hgv Hpool Hnew Hbal.
  unfold RegisterCandidate. mrun.
  unfold AddressParseFromBytes. rewrite bool_decide_eq_true_2 by exact Hlen. mrun.
  unfold ValidateOwner. rewrite Hw. cbn [negb]. mrun.
  rewrite Hfmt. cbn [negb]. mrun. rewrite Hpre. mrun. mrun. rewrite Hbl.
  rewrite bool_decide_eq_false_2 by (intros [? [=]]). mrun.
  astep. rewrite Hpre, Hpa.
  rewrite bool_decide_eq_false_2 by (intros [? [=]]). mrun.
  astep. rewrite Hgv. astep. rewrite Hpool, Hnew.
  rewrite bool_decide_eq_false_2 by (intros [? [=]]). mrun.
  rewrite run_withErr. unfold putPeerApply. rewrite Hpre. mrun. rewrite end_modify.
  rewrite end_withErr, appCallTransferOnt_run.
  unfold balanceOf in *. cbn [balances set_peerApply].
  destruct (default 0 (balances s !! rpAddress params) <? rpPos params) eqn:G; [|lia].
  reflexivity.
Qed.

(** [AddPos] when the escrow transfer fails: the raised stake is in the
    handler's cache already. *)
Lemma AddPos_transfer_fails native params s gv pool item :
  length (rpAddress params) = 20%nat ->
  CheckWitness native (rpAddress params) = true ->
  governanceView s = Some gv ->
  peerPool s !! View gv = Some pool ->
  pool !! rpPeerPubkey params = Some item ->
  Status_ item = CandidateStatus \/ Status_ item = ConsensusStatus ->
  rpAddress params = Address item ->
  balanceOf s (rpAddress params) < rpPos params ->
  AddPos native (Some params) s =
    (set_peerPool
       (<[View gv :=
            <[rpPeerPubkey params :=
                withPos (uint64 (Pos item + rpPos params)) (LockPos item) item]> pool]>
          (peerPool s)) s,
     Err "addPos, ont transfer error").
Proof.
  intros Hlen Hw Hgv Hpool Hitem Hst Haddr Hbal.
  unfold AddPos. mrun.
  unfold AddressParseFromBytes. rewrite bool_decide_eq_true_2 by exact Hlen. mrun.
  unfold ValidateOwner. rewrite Hw. cbn [negb]. mrun.
  astep. rewrite Hgv. astep. rewrite Hpool. rewrite Hitem. mrun.
  assert (isActive item = true) as ->.
  { unfold isActive. destruct Hst as [-> | ->]; reflexivity. }
  cbn [negb]. mrun.
  unfold bytes_Equal. rewrite bool_decide_eq_true_2 by exact Haddr. cbn [negb]. mrun.
  cbv zeta. unfold putPeerPoolMap. mrun.
  rewrite end_withErr, appCallTransferOnt_run.
  unfold balanceOf in *. cbn [balances set_peerPool].
  destruct (default 0 (balances s !! rpAddress params) <? rpPos params) eqn:G; [|lia].
  reflexivity.
Qed.

(** C6. Run as a ledger transaction, whose writes are applied only when
    the call succeeds, each of the twelve governance calls that returns
    an error leaves the ledger unchanged.  [QuitNode], [ReducePos],
    [UpdateConfig], [UpdateGlobalParam] and [WhiteNode] make every check
    before their write, so a failed call has not even touched its
    cache.  [RegisterCandidate] and [AddPos] write first and transfer
    after: when the transfer fails the application record, or the raised
    stake, is in the cache of the call, and it is dropped with the
    cache. *)
Theorem rejected_call_leaves_no_write native executeCommitDpos ledger :
  (forall s' e,
     (forall input, Invoke (RegisterCandidate native input) ledger = (s', Err e) -> s' = ledger) /\
     (forall input, Invoke (UnRegisterCandidate native input) ledger = (s', Err e) -> s' = ledger) /\
     (forall input, Invoke (ApproveCandidate native input) ledger = (s', Err e) -> s' = ledger) /\
     (forall input, Invoke (RejectCandidate native input) ledger = (s', Err e) -> s' = ledger) /\
     (forall input, Invoke (BlackNode executeCommitDpos native input) ledger = (s', Err e) ->
                    s' = ledger) /\
     (forall input, Invoke (WhiteNode native input) ledger = (s', Err e) -> s' = ledger) /\
     (forall input, Invoke (QuitNode native input) ledger = (s', Err e) -> s' = ledger) /\
     (forall input, Invoke (UpdateConfig native input) ledger = (s', Err e) -> s' = ledger) /\
     (forall input, Invoke (UpdateGlobalParam native input) ledger = (s', Err e) ->
                    s' = ledger) /\
     (forall input, Invoke (AddPos native input) ledger = (s', Err e) -> s' = ledger) /\
     (forall input, Invoke (ReducePos native input) ledger = (s', Err e) -> s' = ledger) /\
     (Invoke (CommitDpos executeCommitDpos native) ledger = (s', Err e) -> s' = ledger)) /\
  (forall s' e,
     (forall input, QuitNode native input ledger = (s', Err e) -> s' = ledger) /\
     (forall input, ReducePos native input ledger = (s', Err e) -> s' = ledger) /\
     (forall input, UpdateConfig native input ledger = (s', Err e) -> s' = ledger) /\
     (forall input, UpdateGlobalParam native input ledger = (s', Err e) -> s' = ledger) /\
     (forall input, WhiteNode native input ledger = (s', Err e) -> s' = ledger)) /\
  (forall params prefix gv pool,
     length (rpAddress params) = 20%nat ->
     CheckWitness native (rpAddress params) = true ->
     ValidatePeerPubKeyFormat native (rpPeerPubkey params) = true ->
     hex_DecodeString (rpPeerPubkey params) = Some prefix ->
     blackList ledger !! prefix = None ->
     peerApply ledger !! prefix = None ->
     governanceView ledger = Some gv ->
     peerPool ledger !! View gv = Some pool ->
     pool !! rpPeerPubkey params = None ->
     balanceOf ledger (rpAddress params) < rpPos params ->
     exists cache,
       RegisterCandidate native (Some params) ledger =
         (cache, Err "registerCandidate, ont transfer error") /\
       peerApply cache !! prefix = Some params /\
       Invoke (RegisterCandidate native (Some params)) ledger =
         (ledger, Err "registerCandidate, ont transfer error")) /\
  (forall params gv pool item,
     length (rpAddress params) = 20%nat ->
     CheckWitness native (rpAddress params) = true ->
     governanceView ledger = Some gv ->
     peerPool ledger !! View gv = Some pool ->
     pool !! rpPeerPubkey params = Some item ->
     Status_ item = CandidateStatus \/ Status_ item = ConsensusStatus ->
     rpAddress params = Address item ->
     balanceOf ledger (rpAddress params) < rpPos params ->
     exists cache,
       AddPos native (Some params) ledger = (cache, Err "addPos, ont transfer error") /\
       (peerPool cache !! View gv) ≫= (.!! rpPeerPubkey params) =
         Some (withPos (uint64 (Pos item + rpPos params)) (LockPos item) item) /\
       Invoke (AddPos native (Some params)) ledger =
         (ledger, Err "addPos, ont transfer error")).
Proof.
  split; [|split; [|split]].
  - intros s' e. repeat split; intros; eapply Invoke_Err; eassumption.
  - intros s' e. repeat split; intros input E.
    + exact (QuitNode_Err_keeps_store _ _ _ _ _ E).
    + exact (ReducePos_Err_keeps_store _ _ _ _ _ E).
    + exact (UpdateConfig_Err_keeps_store _ _ _ _ _ E).
    + exact (UpdateGlobalParam_Err_keeps_store _ _ _ _ _ E).
    + exact (WhiteNode_Err_keeps_store _ _ _ _ _ E).
  - intros params prefix gv pool H1 H2 H3 H4 H5 H6 H7 H8 H9 H10.
    pose proof (RegisterCandidate_transfer_fails _ _ _ _ _ _ H1 H2 H3 H4 H5 H6 H7 H8 H9 H10)
      as E.
    eexists. split; [exact E|]. split.
    + cbn [peerApply set_peerApply]. apply lookup_insert_eq.
    + exact (Invoke_of_Err _ _ _ _ E).
  - intros params gv pool item H1 H2 H3 H4 H5 H6 H7 H8.
    pose proof (AddPos_transfer_fails _ _ _ _ _ _ H1 H2 H3 H4 H5 H6 H7 H8) as E.
    eexists. split; [exact E|]. split.
    + cbn [peerPool set_peerPool]. rewrite lookup_insert_eq. cbn [mbind option_bind].
      apply lookup_insert_eq.
    + exact (Invoke_of_Err _ _ _ _ E).
Qed.

(** The two escrow cases on the example store, the owner's account
    empty: the handler's cache holds the write, the ledger does not. *)
Lemma rejected_call_leaves_no_write_witness :
  let ledger := NodeManagerExample.store 10 49 0 in
  let register := RegisterCandidate NodeManagerExample.native
                    (Some (NodeManagerExample.stake "0b" 5000)) in
  let addPos := AddPos NodeManagerExample.native
                  (Some (NodeManagerExample.stake "01" 5000)) in
  (register ledger).2 = Err "registerCandidate, ont transfer error" /\
  peerApply (register ledger).1 !! [x0b] = Some (NodeManagerExample.stake "0b" 5000) /\
  Invoke register ledger = (ledger, Err "registerCandidate, ont transfer error") /\
  (addPos ledger).2 = Err "addPos, ont transfer error" /\
  Invoke addPos ledger = (ledger, Err "addPos, ont transfer error").
Proof.
  intros ledger register addPos.
  destruct (rejected_call_leaves_no_write NodeManagerExample.native
              (fun _ => mret tt) ledger) as (_ & _ & Hreg & Hadd).
  destruct (Hreg (NodeManagerExample.stake "0b" 5000) [x0b]
              {| View := 3; gvHeight := 1; gvTxHash := [] |} (NodeManagerExample.pool 10))
    as (cache & E & Hc & Hi); try reflexivity.
  destruct (Hadd (NodeManagerExample.stake "01" 5000)
              {| View := 3; gvHeight := 1; gvTxHash := [] |} (NodeManagerExample.pool 10)
              (NodeManagerExample.peer 1 "01"))
    as (cache' & E' & _ & Hi'); try reflexivity; [right; reflexivity|].
  unfold register, addPos. rewrite E, E'. cbn [fst snd].
  repeat split; assumption.
Defined.
End PeerPool.

(** * More on the Bitcoin handler *)

Module BtcMore.
Import Btc BtcVerify BtcBuild.

(** ** The confirmation-depth gate, heights in range *)

(** For a claimed height that is not ahead of the oracle's and a depth
    of at least one, the call is turned down as unconfirmed exactly when
    fewer than [BlocksToWait - 1] blocks lie on top of the claimed one. *)
Theorem confirmation_gate_in_range c spv s proof tx height id besth sc :
  GetCurrentHeightFromSpv spv = Some besth ->
  GetSideChain spv id = Some sc ->
  0 <= height <= besth -> besth < 2 ^ 32 ->
  1 <= BlocksToWait sc <= 2 ^ 32 ->
  (verifyBtcTx c spv proof tx height id s).2 =
    Err "verifyBtcTx, transaction is not confirmed"
  <-> besth - height < BlocksToWait sc - 1.
Proof.
  intros Hb Hs Hh Hb' Hw.
  rewrite (verifyBtcTx_not_confirmed_iff _ _ _ _ _ _ _ _ _ Hb Hs).
  unfold notConfirmed. rewrite uint32_uint64, !uint32_small by lia. apply Z.ltb_lt.
Qed.

Lemma confirmation_gate_in_range_witness :
  (verifyBtcTx BtcExample.codec (BtcExample.spv 100 6 0) [xaa] [xaa] 96 1
     BtcExample.service0).2 = Err "verifyBtcTx, transaction is not confirmed".
Proof.
  apply (confirmation_gate_in_range BtcExample.codec (BtcExample.spv 100 6 0)
           BtcExample.service0 [xaa] [xaa] 96 1 100 {| BlocksToWait := 6 |});
    [reflexivity | reflexivity | lia | lia | cbn; lia | cbn; lia].
Defined.

(** A side chain with [BlocksToWait = 0]: [BlocksToWait - 1] wraps to
    the largest [uint32], and every proof whose height is not ahead of
    the oracle's is turned down as unconfirmed (the one exception is a
    difference of [2^32 - 1] itself). *)
Theorem confirmation_gate_zero_depth c spv s proof tx height id besth sc :
  GetCurrentHeightFromSpv spv = Some besth ->
  GetSideChain spv id = Some sc ->
  BlocksToWait sc = 0 ->
  0 <= height <= besth -> besth < 2 ^ 32 ->
  besth - height < 2 ^ 32 - 1 ->
  verifyBtcTx c spv proof tx height id s =
    (s, Err "verifyBtcTx, transaction is not confirmed").
Proof.
  intros Hb Hs Hz Hh Hb' Hd. unfold verifyBtcTx.
  rewrite Hb; mrun. rewrite Hs; mrun.
  assert (notConfirmed besth height sc = true) as ->.
  { unfold notConfirmed. rewrite Hz, uint32_uint64, uint32_small by lia.
    apply Z.ltb_lt. change (uint32 (0 - 1)) with (2 ^ 32 - 1). lia. }
  mrun. reflexivity.
Qed.

Lemma confirmation_gate_zero_depth_witness :
  verifyBtcTx BtcExample.codec (BtcExample.spv 100 0 0) [xaa] [xaa] 1 1
    BtcExample.service0 =
  (BtcExample.service0, Err "verifyBtcTx, transaction is not confirmed").
Proof.
  apply (confirmation_gate_zero_depth BtcExample.codec (BtcExample.spv 100 0 0)
           BtcExample.service0 [xaa] [xaa] 1 1 100 {| BlocksToWait := 0 |});
    [reflexivity | reflexivity | reflexivity | lia | lia | lia].
Defined.

(** ** The order of the checks *)

(** The replay guard comes before the checks of the outputs and of the
    merkle root: for a transaction whose sentinel is in the cache, a
    call that is confirmed, decodes and finds the transaction id in the
    proof stops with "transaction already exist", whatever the outputs,
    the merkle tree and the header are. *)
Theorem replay_guard_before_merkle c spv s proof tx height id besth sc mtx mb :
  GetCurrentHeightFromSpv spv = Some besth ->
  GetSideChain spv id = Some sc ->
  notConfirmed besth height sc = false ->
  BtcDecode c tx = Some mtx ->
  BchDecode c proof = Some mb ->
  isExist (TxHash c mtx) mb = true ->
  CacheDB s !! replayKey c (TxHash c mtx) = Some [x01] ->
  verifyBtcTx c spv proof tx height id s =
    (s, Err "verifyBtcTx, transaction already exist").
Proof.
  intros Hb Hs Hc Hd Hp He Hk. unfold verifyBtcTx.
  rewrite Hb; mrun. rewrite Hs; mrun. rewrite Hc; mrun. rewrite Hd; mrun.
  rewrite Hp; mrun. rewrite He; cbn [negb]; mrun.
  rewrite run_withErr. unfold liftR, CacheDB_Get. rewrite Hk.
  rewrite (bool_decide_eq_true_2 (Some [x01] = Some [x01])) by reflexivity.
  mrun. reflexivity.
Qed.

Lemma replay_guard_before_merkle_witness :
  let s := CacheDB_Put [x09; x01; xbb] [x01] BtcExample.service0 in
  verifyBtcTx BtcExample.codec (BtcExample.spv 100 6 0) [xbb] [xbb] 95 1 s =
    (s, Err "verifyBtcTx, transaction already exist").
Proof.
  intros s.
  apply (replay_guard_before_merkle BtcExample.codec (BtcExample.spv 100 6 0) s
           [xbb] [xbb] 95 1 100 {| BlocksToWait := 6 |}
           {| TxIn := []; TxOut_ := [ {| Value := 500; PkScript := [xbb] |};
                                      {| Value := 0; PkScript := [] |} ] |}
           {| Transactions := 1; Hashes := [[xbb]]; Flags := [] |});
    reflexivity.
Defined.

(** ** [Verify] on bad input and on failure *)

(** A failed [Verify] leaves the cache, the notifications and the
    pre-execution flag as they were. *)
Theorem Verify_failure_keeps_state c spv params s s' e :
  Verify c spv params s = (s', Err e) -> s' = s.
Proof.
  unfold Verify.
  repeat (mstep; try (intros [= <- _]; reflexivity)).
  rewrite run_bind. unfold catch.
  destruct (verifyBtcTx _ _ _ _ _ _ s) as [s1 [p|err]] eqn:E.
  - rewrite end_ret. intros [=].
  - rewrite end_fail. intros [= <- _].
    exact (verifyBtcTx_error_keeps_store _ _ _ _ _ _ _ _ _ E).
Qed.

Lemma Verify_failure_keeps_state_witness :
  exists e,
    Verify BtcExample.codec (BtcExample.spv 100 6 0)
      (Some {| SourceChainID := 1; Height := 99; Proof := "aa"; TxData := "aa" |})
      BtcExample.service0 = (BtcExample.service0, Err e).
Proof.
  destruct (Verify BtcExample.codec (BtcExample.spv 100 6 0)
              (Some {| SourceChainID := 1; Height := 99; Proof := "aa"; TxData := "aa" |})
              BtcExample.service0) as [s' r] eqn:E.
  assert (exists e, r = Err e) as [e ->] by (vm_compute in E; injection E as _ <-; eauto).
  exists e. rewrite (Verify_failure_keeps_state _ _ _ _ _ _ E). reflexivity.
Defined.

(** Input that is missing, empty or not hexadecimal is turned down
    before the oracle is asked: the outcome is an error that does not
    depend on the SPV client. *)
Theorem Verify_malformed_input c params s :
  match params with
  | None => True
  | Some pa =>
      Proof pa = EmptyString \/ TxData pa = EmptyString \/
      hex_DecodeString (TxData pa) = None \/ hex_DecodeString (Proof pa) = None
  end ->
  exists e, forall spv, Verify c spv params s = (s, Err e).
Proof.
  destruct params as [pa|]; [|intros _; eexists; intros; reflexivity].
  intros H. unfold Verify.
  destruct (bool_decide (Proof pa = EmptyString) || bool_decide (TxData pa = EmptyString))
    eqn:B.
  { eexists. intros. mrun. rewrite B. mrun. reflexivity. }
  apply orb_false_iff in B as [B1 B2]. apply bool_decide_eq_false in B1, B2.
  destruct H as [H | [H | H]]; [contradiction | contradiction |].
  destruct (hex_DecodeString (TxData pa)) as [tx|] eqn:Ht.
  - destruct H as [H | H]; [discriminate|].
    eexists. intros. mrun.
    rewrite (bool_decide_eq_false_2 _ B1), (bool_decide_eq_false_2 _ B2). cbn [orb].
    mrun. rewrite Ht; mrun. rewrite H; mrun. reflexivity.
  - eexists. intros. mrun.
    rewrite (bool_decide_eq_false_2 _ B1), (bool_decide_eq_false_2 _ B2). cbn [orb].
    mrun. rewrite Ht; mrun. reflexivity.
Qed.

Lemma Verify_malformed_input_witness :
  exists e, forall spv,
    Verify BtcExample.codec spv
      (Some {| SourceChainID := 1; Height := 95; Proof := "aa"; TxData := "xyz" |})
      BtcExample.service0 = (BtcExample.service0, Err e).
Proof.
  apply (Verify_malformed_input BtcExample.codec
           (Some {| SourceChainID := 1; Height := 95; Proof := "aa"; TxData := "xyz" |})).
  right. right. left. reflexivity.
Defined.

(** ** The builder *)

(** Go visits the entries of a map in no fixed order; the validation
    loop gives the same answer for every order. *)
Theorem sumAmounts_order_independent entries entries' :
  entries ≡ₚ entries' ->
  sumAmounts entries 0 = sumAmounts entries' 0.
Proof.
  intros Hp. change 0 with (int64 0).
  assert (Hsum : forall l l' : list (string * Z), l ≡ₚ l' -> sumValues l = sumValues l').
  { induction 1 as [|x l l' _ IH|x y l|l l' l'' _ IH1 _ IH2]; cbn [sumValues foldr];
      try fold (sumValues l); try fold (sumValues l'); lia. }
  destruct (sumAmounts entries (int64 0)) as [v|e] eqn:E;
    destruct (sumAmounts entries' (int64 0)) as [v'|e'] eqn:E'.
  - apply sumAmounts_Ok in E as [_ ->]. apply sumAmounts_Ok in E' as [_ ->].
    rewrite (Hsum _ _ Hp). reflexivity.
  - apply sumAmounts_Ok in E as [F _]. apply sumAmounts_Err in E' as [_ X].
    exfalso. apply Exists_exists in X as (p & Hin & Hbad). apply Hbad.
    rewrite Forall_forall in F. apply F. rewrite Hp. exact Hin.
  - apply sumAmounts_Ok in E' as [F _]. apply sumAmounts_Err in E as [_ X].
    exfalso. apply Exists_exists in X as (p & Hin & Hbad). apply Hbad.
    rewrite Forall_forall in F. apply F. rewrite <- Hp. exact Hin.
  - apply sumAmounts_Err in E as [-> _]. apply sumAmounts_Err in E' as [-> _].
    reflexivity.
Qed.

Lemma sumAmounts_order_independent_witness :
  sumAmounts [("a", 5); ("b", 7)] 0 = sumAmounts [("b", 7); ("a", 5)] 0.
Proof.
  apply sumAmounts_order_independent. apply perm_swap.
Defined.

Ltac bstep :=
  first
    [ mstep
    | rewrite run_liftR;
      match goal with
      | |- context [ match sumAmounts ?l ?a with _ => _ end ] =>
          destruct (sumAmounts l a) eqn:?
      end ].

(** The outcome of the builder on the state of the call. *)
Lemma makeBtcTx_outcome c spv (amounts : gmap string Z) s s' r :
  makeBtcTx c spv amounts s = (s', r) ->
  match r with
  | Ok _ =>
      exists buf,
        s' = {| CacheDB := <[BTC_TX_PREFIX c := buf]> (CacheDB s);
                Notifications :=
                  (Notifications s ++
                   [ {| ContractAddress := CrossChainManagerContractAddress c;
                        States := ["makeBtcTx"; hex_EncodeToString buf] |} ])%list;
                PreExec := PreExec s |}
  | Err _ => s' = s
  end.
Proof.
  unfold makeBtcTx. cbv zeta.
  repeat (bstep; try (intros [= <- <-]; reflexivity)).
  intros [= <- <-]. eexists. reflexivity.
Qed.

(** The side effects of the builder: a call that succeeds has put,
    under the pending-withdrawal key, the encoding of the transaction
    it has built (from the outputs the UTXO endpoint returned for the
    loop's total, for the amounts and the change) and appended one
    "makeBtcTx" notification carrying the same bytes in hexadecimal,
    and nothing else; a call that fails has changed nothing. *)
Theorem makeBtcTx_effects c spv (amounts : gmap string Z) s s' r :
  makeBtcTx c spv amounts s = (s', r) ->
  match r with
  | Ok _ =>
      exists amountSum script addr txIns sum mtx buf,
        sumAmounts (map_to_list amounts) 0 = Ok amountSum /\
        buildScript c = Some script /\
        NewAddressScriptHash c script = Some addr /\
        GetUtxosFromSpv spv addr amountSum (FEE c) (PreExec s) = Some (txIns, sum) /\
        getUnsignedTx c txIns amounts (int64 (sum - amountSum - FEE c)) script = Some mtx /\
        BtcEncode c mtx = Some buf /\
        s' = {| CacheDB := <[BTC_TX_PREFIX c := buf]> (CacheDB s);
                Notifications :=
                  (Notifications s ++
                   [ {| ContractAddress := CrossChainManagerContractAddress c;
                        States := ["makeBtcTx"; hex_EncodeToString buf] |} ])%list;
                PreExec := PreExec s |}
  | Err _ => s' = s
  end.
Proof.
  intros Hrun. destruct r as [[]|e]; [|exact (makeBtcTx_outcome _ _ _ _ _ _ Hrun)].
  revert Hrun. unfold makeBtcTx.
  destruct (bool_decide (size amounts = 0%nat)) eqn:B; mrun; [discriminate|].
  rewrite run_liftR.
  destruct (sumAmounts (map_to_list amounts) 0) as [amountSum|] eqn:E; [|discriminate].
  destruct (amountSum >? MaxSatoshi) eqn:G; mrun; [discriminate|].
  destruct (buildScript c) as [script|] eqn:Hs; mrun; [|discriminate].
  destruct (NewAddressScriptHash c script) as [addr|] eqn:Ha; mrun; [|discriminate].
  mrun.
  destruct (GetUtxosFromSpv spv addr amountSum (FEE c) (PreExec s)) as [[txIns sum]|] eqn:Hu;
    mrun; [|discriminate].
  cbn [fst snd].
  destruct ((sum <=? 0) || bool_decide (length txIns = 0%nat)) eqn:B1; mrun; [discriminate|].
  destruct (int64 (sum - amountSum - FEE c) <? 0) eqn:B2; mrun; [discriminate|].
  destruct (getUnsignedTx c txIns amounts (int64 (sum - amountSum - FEE c)) script)
    as [mtx|] eqn:Hm; mrun; [|discriminate].
  destruct (BtcEncode c mtx) as [buf|] eqn:Hb; mrun; [|discriminate].
  mrun. mrun. mrun. intros [= <-].
  exists amountSum, script, addr, txIns, sum, mtx, buf.
  repeat (split; [first [reflexivity | assumption]|]). reflexivity.
Qed.

Lemma makeBtcTx_effects_witness :
  let amounts : gmap string Z := {[ "addrA" := 500000 ]} in
  exists mtx buf,
    getUnsignedTx BtcExample.codec [[x10]] amounts 99000 [x51] = Some mtx /\
    BtcEncode BtcExample.codec mtx = Some buf /\
    (makeBtcTx BtcExample.codec (BtcExample.spv 100 6 600000) amounts
       BtcExample.service0).1 =
    {| CacheDB := {[ [x62] := buf ]};
       Notifications := [ {| ContractAddress := [x09];
                             States := ["makeBtcTx"; hex_EncodeToString buf] |} ];
       PreExec := false |}.
Proof.
  intros amounts.
  destruct (makeBtcTx BtcExample.codec (BtcExample.spv 100 6 600000) amounts
              BtcExample.service0) as [s' r] eqn:E.
  pose proof (makeBtcTx_effects _ _ _ _ _ _ E) as H.
  assert (r = Ok tt) as -> by (vm_compute in E; congruence).
  destruct H as (amountSum & script & addr & txIns & sum & mtx & buf
                 & Hsum & Hs & Ha & Hu & Hm & Hb & ->).
  vm_compute in Hsum. injection Hsum as <-.
  vm_compute in Hs. injection Hs as <-.
  vm_compute in Hu. injection Hu as <- <-.
  exists mtx, buf. split; [exact Hm|]. split; [exact Hb | reflexivity].
Defined.

(** The validation a successful call has been through. *)
Lemma makeBtcTx_Ok_valid c spv (amounts : gmap string Z) s s' :
  makeBtcTx c spv amounts s = (s', Ok tt) ->
  amounts <> ∅ /\
  map_Forall (fun _ a => 0 < a <= MaxSatoshi) amounts /\
  ((size amounts <= 4392)%nat -> sumValues (map_to_list amounts) <= MaxSatoshi).
Proof.
  unfold makeBtcTx.
  destruct (bool_decide (size amounts = 0%nat)) eqn:B; mrun; [discriminate|].
  apply bool_decide_eq_false in B.
  rewrite run_liftR.
  destruct (sumAmounts (map_to_list amounts) 0) as [v|e] eqn:E; [|discriminate].
  destruct (v >? MaxSatoshi) eqn:G; mrun; [discriminate|].
  intros _. split; [|split].
  - intros ->. apply B. apply map_size_empty.
  - pose proof E as E'. change 0 with (int64 0) in E'.
    apply sumAmounts_Ok in E' as [F _]. intros k a Hk.
    rewrite Forall_forall in F. apply (F (k, a)). apply elem_of_map_to_list, Hk.
  - intros Hsz. apply sumAmounts_exact in E as [-> _]; [lia|].
    rewrite length_map_to_list. exact Hsz.
Qed.

(** What a successful call has validated: the map is not empty, every
    amount lies in [(0, MaxSatoshi]], and, for up to 4392 destinations,
    the sum of the amounts is at most [MaxSatoshi]. *)
Theorem makeBtcTx_validated c spv (amounts : gmap string Z) s s' :
  makeBtcTx c spv amounts s = (s', Ok tt) ->
  amounts <> ∅ /\
  map_Forall (fun _ a => 0 < a <= MaxSatoshi) amounts /\
  ((size amounts <= 4392)%nat -> sumValues (map_to_list amounts) <= MaxSatoshi).
Proof. apply makeBtcTx_Ok_valid. Qed.

Lemma makeBtcTx_validated_witness :
  let amounts : gmap string Z := {[ "addrA" := 500000 ]} in
  map_Forall (fun _ a => 0 < a <= MaxSatoshi) amounts.
Proof.
  intros amounts.
  destruct (makeBtcTx BtcExample.codec (BtcExample.spv 100 6 600000) amounts
              BtcExample.service0) as [s' r] eqn:E.
  assert (r = Ok tt) as -> by (vm_compute in E; congruence).
  destruct (makeBtcTx_validated _ _ _ _ _ E) as (_ & H & _). exact H.
Defined.

(** [MakeTransaction] builds for one destination: it succeeds only when
    the asset's contract on the destination chain is "btc" and the
    amount, as an [int64], lies in [(0, MaxSatoshi]], and then it has
    done what the builder does for that single amount; when it fails
    nothing has changed. *)
Theorem MakeTransaction_single_destination c spv param s s' r :
  MakeTransaction c spv param s = (s', r) ->
  match r with
  | Ok _ =>
      GetAssetContractAddress spv (FromChainID param) (ToChainID param)
        (FromContractAddress param) = Some "btc" /\
      0 < int64 (Amount param) <= MaxSatoshi /\
      makeBtcTx c spv {[ ToAddress param := int64 (Amount param) ]} s = (s', Ok tt)
  | Err _ => s' = s
  end.
Proof.
  unfold MakeTransaction. cbv zeta.
  destruct (GetAssetContractAddress spv _ _ _) as [dest|] eqn:Hd; mrun;
    [|intros [= <- <-]; reflexivity].
  destruct (bool_decide (dest = "btc")) eqn:B; cbn [negb]; mrun;
    [|intros [= <- <-]; reflexivity].
  apply bool_decide_eq_true in B. subst dest.
  rewrite end_withErr.
  destruct (makeBtcTx c spv {[ ToAddress param := int64 (Amount param) ]} s)
    as [s1 [[]|e]] eqn:E; intros [= <- <-].
  - split; [reflexivity|]. split; [|reflexivity].
    destruct (makeBtcTx_Ok_valid _ _ _ _ _ E) as (_ & F & _).
    apply (F (ToAddress param)). apply lookup_singleton_eq.
  - exact (makeBtcTx_outcome _ _ _ _ _ _ E).
Qed.

Lemma MakeTransaction_single_destination_witness :
  let param := {| FromChainID := 2; FromContractAddress := "ont"; ToChainID := 1;
                  ToAddress := "addrA"; Amount := 0 |} in
  MakeTransaction BtcExample.codec (BtcExample.spv 100 6 600000) param BtcExample.service0 =
    (BtcExample.service0, Err "btc MakeTransaction, failed to make transaction").
Proof.
  intros param.
  destruct (MakeTransaction BtcExample.codec (BtcExample.spv 100 6 600000) param
              BtcExample.service0) as [s' r] eqn:E.
  pose proof (MakeTransaction_single_destination _ _ _ _ _ _ E) as H.
  assert (r = Err "btc MakeTransaction, failed to make transaction") as ->
    by (vm_compute in E; congruence).
  rewrite H. reflexivity.
Defined.
End BtcMore.

(** * More on the node manager *)

Module Governance.
Import NodeManager PeerPool.

(** The tests a handler has passed, as propositions. *)
Ltac bool_hyps :=
  repeat match goal with
    | H : negb _ = false |- _ => apply negb_false_iff in H
    | H : negb _ = true |- _ => apply negb_true_iff in H
    | H : _ || _ = false |- _ => apply orb_false_iff in H; destruct H
    | H : _ && _ = true |- _ => apply andb_true_iff in H; destruct H
    | H : bool_decide _ = true |- _ => apply bool_decide_eq_true in H
    | H : bool_decide _ = false |- _ => apply bool_decide_eq_false in H
    | H : (_ <? _) = false |- _ => apply Z.ltb_ge in H
    | H : (_ <? _) = true |- _ => apply Z.ltb_lt in H
    | H : (_ >? _) = false |- _ => rewrite Z.gtb_ltb in H
    | H : (_ >=? _) = false |- _ => rewrite Z.geb_leb in H
    | H : (_ <=? _) = false |- _ => apply Z.leb_gt in H
    | H : (_ <=? _) = true |- _ => apply Z.leb_le in H
    | H : (_ =? _) = false |- _ => apply Z.eqb_neq in H
    | H : (_ =? _) = true |- _ => apply Z.eqb_eq in H
    end.

Lemma AddressParseFromBytes_Some b a :
  AddressParseFromBytes b = Some a -> a = b /\ length b = 20%nat.
Proof.
  unfold AddressParseFromBytes. destruct (bool_decide (length b = 20%nat)) eqn:B;
    [|discriminate].
  intros [= <-]. apply bool_decide_eq_true in B. split; [reflexivity | exact B].
Qed.

(** ** [UpdateConfig] *)

(** What a staged configuration has passed: the operator's witness and
    the bounds of lines 737-763.  The products [16*K] and [2*C+1] are
    [uint32]; below the wrap they are the bounds on the integers. *)
Theorem UpdateConfig_bounds native input s s' :
  UpdateConfig native input s = (s', Ok tt) ->
  exists cfg op gv pool,
    input = Some cfg /\
    AddressFromBookkeepers native = Some op /\
    CheckWitness native op = true /\
    governanceView s = Some gv /\
    peerPool s !! View gv = Some pool /\
    preConfig s' = Some {| Configuration_ := Some cfg; SetView := View gv |} /\
    C cfg <> 0 /\
    K cfg <= countActive pool /\
    7 <= K cfg <= N cfg /\
    L cfg mod K cfg = 0 /\
    uint32 (16 * K cfg) <= L cfg /\
    uint32 (2 * C cfg + 1) <= K cfg /\
    (K cfg < 2 ^ 28 -> 16 * K cfg <= L cfg) /\
    (0 <= C cfg < 2 ^ 31 -> 2 * C cfg + 1 <= K cfg) /\
    5000 <= BlockMsgDelay cfg /\
    5000 <= HashMsgDelay cfg /\
    10 <= PeerHandshakeTimeout cfg /\
    10000 <= MaxBlockChangeView cfg.
Proof.
  unfold UpdateConfig.
  do 5 (hstep; try discriminate).
  repeat (mstep; try discriminate).
  unfold putPreConfig. rewrite end_modify. intros [= <-].
  unfold ValidateOwner in *. bool_hyps.
  eexists _, _, _, _.
  repeat match goal with |- _ /\ _ => split end;
    try eassumption; try reflexivity; try lia.
  - intros Hk. rewrite uint32_small in * by lia. lia.
  - intros Hc. rewrite (uint32_small (2 * _ + 1)) in * by lia. lia.
Qed.

Lemma UpdateConfig_bounds_witness :
  exists s',
    UpdateConfig NodeManagerExample.native (Some NodeManagerExample.config10)
      (NodeManagerExample.store 10 49 0) = (s', Ok tt) /\
    preConfig s' =
      Some {| Configuration_ := Some NodeManagerExample.config10; SetView := 3 |}.
Proof.
  destruct (UpdateConfig NodeManagerExample.native (Some NodeManagerExample.config10)
              (NodeManagerExample.store 10 49 0)) as [s' r] eqn:E.
  assert (r = Ok tt) as -> by (vm_compute in E; congruence).
  exists s'. split; [reflexivity|].
  destruct (UpdateConfig_bounds _ _ _ _ E)
    as (cfg & op & gv & pool & [= <-] & _ & _ & [= <-] & _ & H & _).
  exact H.
Defined.

(** A configuration with [K = 0] and [C <> 0] gets past the first two
    checks and reaches [L % K]: the call panics on the division by zero
    before the check [K >= 7] is made. *)
Theorem UpdateConfig_zero_K_panics native cfg s op gv pool :
  AddressFromBookkeepers native = Some op ->
  CheckWitness native op = true ->
  governanceView s = Some gv ->
  peerPool s !! View gv = Some pool ->
  K cfg = 0 -> C cfg <> 0 -> 0 <= L cfg ->
  UpdateConfig native (Some cfg) s = (s, Err "panic: integer divide by zero").
Proof.
  intros Hop Hw Hgv Hpool HK HC HL. unfold UpdateConfig.
  rewrite Hop; mrun. unfold ValidateOwner. rewrite Hw; cbn [negb]; mrun. mrun.
  astep. rewrite Hgv. astep. rewrite Hpool.
  destruct (C cfg =? 0) eqn:G; [lia|]. mrun.
  pose proof (countActive_nonneg pool).
  destruct (K cfg >? countActive pool) eqn:G2; [lia|]. mrun.
  rewrite HK. change (uint32 (16 * 0)) with 0.
  destruct (L cfg <? 0) eqn:G3; [lia|]. cbn [negb andb Z.eqb]. mrun. reflexivity.
Qed.

Lemma UpdateConfig_zero_K_panics_witness :
  UpdateConfig NodeManagerExample.native
    (Some {| N := 10; C := 2; K := 0; L := 160; BlockMsgDelay := 10000;
             HashMsgDelay := 10000; PeerHandshakeTimeout := 10;
             MaxBlockChangeView := 10000 |})
    (NodeManagerExample.store 10 49 0) =
  (NodeManagerExample.store 10 49 0, Err "panic: integer divide by zero").
Proof.
  apply (UpdateConfig_zero_K_panics NodeManagerExample.native _ _
           NodeManagerExample.operator {| View := 3; gvHeight := 1; gvTxHash := [] |}
           (NodeManagerExample.pool 10));
    [reflexivity | reflexivity | reflexivity | reflexivity | reflexivity
    | discriminate | cbn; lia].
Defined.

(** ** [UpdateGlobalParam] *)

(** [UpdateGlobalParam], run: the checks in their order. *)
Lemma UpdateGlobalParam_run native input s :
  UpdateGlobalParam native input s =
  match AddressFromBookkeepers native with
  | None => (s, Err "AddressFromBookkeepers error")
  | Some op =>
      if negb (CheckWitness native op)
      then (s, Err "updateGlobalParam, checkWitness error")
      else
        match vbftConfig s, input with
        | None, _ => (s, Err "getConfig, get config error")
        | Some _, None => (s, Err "updateGlobalParam, deserialize globalParam error")
        | Some config, Some gp =>
            if CandidateNum gp <? uint32 (4 * K config)
            then (s, Err "updateGlobalParam, CandidateNum must >= 4*K")
            else if MinInitStake gp <? 1
                 then (s, Err "updateGlobalParam, MinInitStake must >= 1")
                 else (set_globalParam (Some gp) s, Ok tt)
        end
  end.
Proof.
  unfold UpdateGlobalParam.
  destruct (AddressFromBookkeepers native) as [op|]; mrun; [|reflexivity].
  unfold ValidateOwner. destruct (negb (CheckWitness native op)); mrun; [reflexivity|].
  astep. destruct (vbftConfig s) as [config|]; [|reflexivity].
  destruct input as [gp|]; mrun; [|reflexivity].
  destruct (CandidateNum gp <? uint32 (4 * K config)); mrun; [reflexivity|].
  destruct (MinInitStake gp <? 1); mrun; reflexivity.
Qed.

(** The new parameters are checked against the active [K] and nothing
    else, and they are in force at once.  The call succeeds exactly when
    the operator witnesses it, a configuration is active, the input
    deserialises, [CandidateNum >= uint32(4 * K)] and
    [MinInitStake >= 1]; its outcome is the same whatever the peer pool
    holds; a success writes the global parameters and nothing else, so
    the count of the pool is what it was, and when the pool of the
    current view already holds [CandidateNum] nodes or more every
    [ApproveCandidate] that follows is refused. *)
Theorem UpdateGlobalParam_in_force_at_once native input s :
  let r := UpdateGlobalParam native input s in
  (r.2 = Ok tt <->
   exists gp op config,
     input = Some gp /\
     AddressFromBookkeepers native = Some op /\
     CheckWitness native op = true /\
     vbftConfig s = Some config /\
     uint32 (4 * K config) <= CandidateNum gp /\
     1 <= MinInitStake gp) /\
  (forall pools, (UpdateGlobalParam native input (set_peerPool pools s)).2 = r.2) /\
  (forall gp,
     input = Some gp -> r.2 = Ok tt ->
     r.1 = set_globalParam (Some gp) s /\
     activeCount r.1 = activeCount s /\
     (CandidateNum gp <= activeCount s ->
      forall native' input',
        exists e, (ApproveCandidate native' input' r.1).2 = Err e)).
Proof.
  cbv zeta. split; [|split].
  - rewrite UpdateGlobalParam_run. split.
    + destruct (AddressFromBookkeepers native) as [op|]; [|discriminate].
      destruct (CheckWitness native op) eqn:W; cbn [negb]; [|discriminate].
      destruct (vbftConfig s) as [config|]; [|discriminate].
      destruct input as [gp|]; [|discriminate].
      destruct (CandidateNum gp <? uint32 (4 * K config)) eqn:G1; [discriminate|].
      destruct (MinInitStake gp <? 1) eqn:G2; [discriminate|].
      apply Z.ltb_ge in G1, G2. intros _. exists gp, op, config.
      do 4 (split; [first [reflexivity | exact W]|]). split; lia.
    + intros (gp & op & config & -> & -> & -> & -> & H1 & H2). cbn [negb].
      destruct (CandidateNum gp <? uint32 (4 * K config)) eqn:G1;
        [apply Z.ltb_lt in G1; lia|].
      destruct (MinInitStake gp <? 1) eqn:G2; [apply Z.ltb_lt in G2; lia|]. reflexivity.
  - intros pools. rewrite !UpdateGlobalParam_run.
    change (vbftConfig (set_peerPool pools s)) with (vbftConfig s).
    destruct (AddressFromBookkeepers native) as [op|]; [|reflexivity].
    destruct (negb (CheckWitness native op)); [reflexivity|].
    destruct (vbftConfig s) as [config|]; [|reflexivity].
    destruct input as [gp|]; [|reflexivity].
    destruct (CandidateNum gp <? uint32 (4 * K config)); [reflexivity|].
    destruct (MinInitStake gp <? 1); reflexivity.
  - intros gp ->. rewrite UpdateGlobalParam_run.
    destruct (AddressFromBookkeepers native) as [op|]; [|discriminate].
    destruct (negb (CheckWitness native op)); [discriminate|].
    destruct (vbftConfig s) as [config|]; [|discriminate].
    destruct (CandidateNum gp <? uint32 (4 * K config)); [discriminate|].
    destruct (MinInitStake gp <? 1); [discriminate|].
    intros _. cbn [fst]. split; [reflexivity|]. split; [reflexivity|].
    intros Hfull native' input'.
    eapply ApproveCandidate_full; [reflexivity|]. exact Hfull.
Qed.

(** 29 nodes in the pool under a cap of 30: the cap is lowered to 28,
    below the count, and the next approval is refused. *)
Lemma UpdateGlobalParam_in_force_at_once_witness :
  let native := NodeManagerExample.native in
  let s := approveAll [ (native, Some (NodeManagerExample.approve "1d")) ]
            (NodeManagerExample.manyStore 28 2 30) in
  let gp := {| MinInitStake := 5; CandidateNum := 28 |} in
  let r := UpdateGlobalParam native (Some gp) s in
  activeCount s = 29 /\
  r.2 = Ok tt /\
  globalParam r.1 = Some gp /\
  activeCount r.1 = 29 /\
  exists e, (ApproveCandidate native (Some (NodeManagerExample.approve "1e")) r.1).2 = Err e.
Proof.
  intros native s gp r.
  destruct (UpdateGlobalParam_in_force_at_once native (Some gp) s) as (Hiff & _ & H).
  assert (Hok : r.2 = Ok tt).
  { apply Hiff. exists gp, NodeManagerExample.operator, NodeManagerExample.config7.
    repeat split; try reflexivity; vm_compute; discriminate. }
  assert (Hc : activeCount s = 29) by (vm_compute; reflexivity).
  destruct (H gp eq_refl Hok) as (Hs & Hcount & Hfull).
  split; [exact Hc|]. split; [exact Hok|].
  split; [fold r in Hs; rewrite Hs; reflexivity|].
  split; [fold r in Hcount; rewrite Hcount; exact Hc|].
  apply Hfull. rewrite Hc. vm_compute. discriminate.
Defined.

(** ** The owner's calls *)

(** [QuitNode], [AddPos] and [ReducePos] succeed only for a caller that
    witnesses the address in the call, on a node of the current view's
    pool that is registered by that address and has status Candidate or
    Consensus. *)
Theorem owner_calls_need_owner native s s' :
  let owned (pubkey : string) (address : bytes) :=
    length address = 20%nat /\
    CheckWitness native address = true /\
    exists gv pool item,
      governanceView s = Some gv /\
      peerPool s !! View gv = Some pool /\
      pool !! pubkey = Some item /\
      (Status_ item = CandidateStatus \/ Status_ item = ConsensusStatus) /\
      Address item = address in
  (forall input, QuitNode native input s = (s', Ok tt) ->
     exists p, input = Some p /\ owned (p2PeerPubkey p) (p2Address p)) /\
  (forall input, AddPos native input s = (s', Ok tt) ->
     exists p, input = Some p /\ owned (rpPeerPubkey p) (rpAddress p)) /\
  (forall input, ReducePos native input s = (s', Ok tt) ->
     exists p, input = Some p /\ owned (rpPeerPubkey p) (rpAddress p)).
Proof.
  cbv zeta.
  assert (Hact : forall item, isActive item = true ->
            Status_ item = CandidateStatus \/ Status_ item = ConsensusStatus).
  { intros item H. unfold isActive in H. apply orb_true_iff in H as [H|H];
      apply bool_decide_eq_true in H; auto. }
  split; [|split]; intros input.
  - unfold QuitNode.
    do 3 (mstep; try discriminate). do 2 (hstep; try discriminate).
    do 3 (mstep; try discriminate). intros _.
    unfold ValidateOwner, bytes_Equal in *. bool_hyps.
    match goal with H : AddressParseFromBytes _ = Some _ |- _ =>
      apply AddressParseFromBytes_Some in H as [-> ?] end.
    eexists. split; [reflexivity|]. split; [assumption|]. split; [assumption|].
    eexists _, _, _. repeat split; try eassumption; [apply Hact; assumption | congruence].
  - unfold AddPos.
    do 3 (mstep; try discriminate). do 2 (hstep; try discriminate).
    do 3 (mstep; try discriminate). intros _.
    unfold ValidateOwner, bytes_Equal in *. bool_hyps.
    match goal with H : AddressParseFromBytes _ = Some _ |- _ =>
      apply AddressParseFromBytes_Some in H as [-> ?] end.
    eexists. split; [reflexivity|]. split; [assumption|]. split; [assumption|].
    eexists _, _, _. repeat split; try eassumption; [apply Hact; assumption | congruence].
  - unfold ReducePos.
    do 3 (mstep; try discriminate). do 2 (hstep; try discriminate).
    do 3 (mstep; try discriminate). intros _.
    unfold ValidateOwner, bytes_Equal in *. bool_hyps.
    match goal with H : AddressParseFromBytes _ = Some _ |- _ =>
      apply AddressParseFromBytes_Some in H as [-> ?] end.
    eexists. split; [reflexivity|]. split; [assumption|]. split; [assumption|].
    eexists _, _, _. repeat split; try eassumption; [apply Hact; assumption | congruence].
Qed.

Lemma owner_calls_need_owner_witness :
  CheckWitness NodeManagerExample.native NodeManagerExample.owner = true.
Proof.
  destruct (QuitNode NodeManagerExample.native (Some (NodeManagerExample.quit "01"))
              (NodeManagerExample.store 10 49 0)) as [s' r] eqn:E.
  assert (r = Ok tt) as -> by (vm_compute in E; congruence).
  destruct (owner_calls_need_owner NodeManagerExample.native
              (NodeManagerExample.store 10 49 0) s') as (H & _).
  destruct (H _ E) as (p & [= <-] & _ & Hw & _). exact Hw.
Defined.

(** A successful [QuitNode], taken apart. *)
Lemma QuitNode_Ok_inv native input s s' :
  QuitNode native input s = (s', Ok tt) ->
  exists p gv pool item,
    input = Some p /\
    length (p2Address p) = 20%nat /\
    CheckWitness native (p2Address p) = true /\
    governanceView s = Some gv /\
    peerPool s !! View gv = Some pool /\
    pool !! p2PeerPubkey p = Some item /\
    s' = set_peerPool
           (<[View gv := <[p2PeerPubkey p := withStatus QuitingStatus item]> pool]>
              (peerPool s)) s.
Proof.
  unfold QuitNode.
  do 3 (mstep; try discriminate). do 2 (hstep; try discriminate).
  do 3 (mstep; try discriminate). do 2 (hstep; try discriminate).
  cbv zeta. do 2 (mstep; try discriminate).
  unfold putPeerPoolMap. rewrite end_modify. intros [= <-].
  unfold ValidateOwner in *. bool_hyps.
  match goal with H : AddressParseFromBytes _ = Some _ |- _ =>
    apply AddressParseFromBytes_Some in H as [-> ?] end.
  eexists _, _, _, _. repeat split; try eassumption; reflexivity.
Qed.

(** A node that has quit cannot quit again: the second call finds the
    status Quitting and is turned down. *)
Theorem QuitNode_twice native input s s' :
  QuitNode native input s = (s', Ok tt) ->
  QuitNode native input s' =
    (s', Err "quitNode, peerPubkey is not CandidateStatus or ConsensusStatus").
Proof.
  intros E.
  apply QuitNode_Ok_inv in E as (p & gv & pool & item & -> & Hlen & Hw & Hgv & Hpool
                                 & Hitem & ->).
  unfold QuitNode. mrun.
  unfold AddressParseFromBytes. rewrite bool_decide_eq_true_2 by exact Hlen. mrun.
  unfold ValidateOwner. rewrite Hw. cbn [negb]. mrun.
  astep. cbn [governanceView set_peerPool]. rewrite Hgv.
  astep. cbn [peerPool set_peerPool]. rewrite lookup_insert_eq, lookup_insert_eq. mrun.
  change (isActive (withStatus QuitingStatus item)) with false. cbn [negb]. mrun.
  reflexivity.
Qed.

Lemma QuitNode_twice_witness :
  exists s',
    QuitNode NodeManagerExample.native (Some (NodeManagerExample.quit "01"))
      (NodeManagerExample.store 10 49 0) = (s', Ok tt) /\
    QuitNode NodeManagerExample.native (Some (NodeManagerExample.quit "01")) s' =
      (s', Err "quitNode, peerPubkey is not CandidateStatus or ConsensusStatus").
Proof.
  destruct (QuitNode NodeManagerExample.native (Some (NodeManagerExample.quit "01"))
              (NodeManagerExample.store 10 49 0)) as [s' r] eqn:E.
  assert (r = Ok tt) as -> by (vm_compute in E; congruence).
  exists s'. split; [reflexivity|]. exact (QuitNode_twice _ _ _ _ E).
Defined.

(** ** Stake *)

(** The pool of the current view after a change of one node's stake. *)
Lemma activeCount_withPos s gv pool k item pos lockPos :
  governanceView s = Some gv ->
  peerPool s !! View gv = Some pool ->
  pool !! k = Some item ->
  activeCount (set_peerPool
                 (<[View gv := <[k := withPos pos lockPos item]> pool]> (peerPool s)) s) =
  activeCount s.
Proof.
  intros Hgv Hpool Hitem. unfold activeCount.
  cbn [governanceView peerPool set_peerPool]. rewrite Hgv, Hpool, lookup_insert_eq.
  cbn [from_option]. rewrite countActive_insert, Hitem. cbn [from_option].
  unfold weight. rewrite isActive_withPos. lia.
Qed.

(** [AddPos] and [ReducePos] change a stake and nothing about who is
    active: whatever the outcome, the count of Candidate and Consensus
    nodes of the current view, the view and the global parameters are
    the same after the call; and after a successful [AddPos] the node's
    entry is the old one with [Pos] set to [(Pos + params.Pos) mod 2^64]:
    index, key, address, status and [LockPos] are the old ones. *)
Theorem stake_calls_keep_the_active_set native input s :
  let a := AddPos native input s in
  let r := ReducePos native input s in
  (activeCount a.1 = activeCount s /\ governanceView a.1 = governanceView s /\
   globalParam a.1 = globalParam s) /\
  (activeCount r.1 = activeCount s /\ governanceView r.1 = governanceView s /\
   globalParam r.1 = globalParam s) /\
  (a.2 = Ok tt ->
   exists p gv pool item,
     input = Some p /\ governanceView s = Some gv /\
     peerPool s !! View gv = Some pool /\
     pool !! rpPeerPubkey p = Some item /\
     (peerPool a.1 !! View gv) ≫= (.!! rpPeerPubkey p) =
       Some {| Index := Index item; PeerPubkey := PeerPubkey item;
               Address := Address item; Status_ := Status_ item;
               Pos := (Pos item + rpPos p) mod 2 ^ 64;
               LockPos := LockPos item |}).
Proof.
  cbv zeta.
  assert (Hsame : forall e : Result unit,
            activeCount (s, e).1 = activeCount s /\
            governanceView (s, e).1 = governanceView s /\
            globalParam (s, e).1 = globalParam s) by (intros; repeat split).
  split; [|split].
  - unfold AddPos.
    do 3 (mstep; try apply Hsame). do 2 (hstep; try apply Hsame).
    do 3 (mstep; try apply Hsame). cbv zeta. unfold putPeerPoolMap. mrun.
    rewrite end_withErr, appCallTransferOnt_run.
    match goal with |- context [ if ?b then _ else _ ] => destruct b end;
      cbn [fst snd];
      (split; [|split; cbn [governanceView globalParam set_peerPool set_balances];
                congruence]);
      (etransitivity; [|eapply activeCount_withPos; eassumption]); reflexivity.
  - unfold ReducePos.
    do 3 (mstep; try apply Hsame). do 2 (hstep; try apply Hsame).
    do 3 (mstep; try apply Hsame). cbv zeta. unfold putPeerPoolMap.
    rewrite end_modify. cbn [fst snd].
    split; [|split; cbn [governanceView globalParam set_peerPool]; congruence].
    eapply activeCount_withPos; eassumption.
  - unfold AddPos.
    do 3 (mstep; try discriminate). do 2 (hstep; try discriminate).
    do 3 (mstep; try discriminate). cbv zeta. unfold putPeerPoolMap. mrun.
    rewrite end_withErr, appCallTransferOnt_run.
    match goal with |- context [ if ?b then _ else _ ] => destruct b end;
      cbn [fst snd]; [discriminate|].
    intros _. eexists _, _, _, _.
    repeat split; try eassumption.
    cbn [peerPool set_peerPool set_balances]. rewrite lookup_insert_eq.
    cbn [mbind option_bind]. rewrite lookup_insert_eq. reflexivity.
Qed.

Lemma stake_calls_keep_the_active_set_witness :
  let s := NodeManagerExample.store 10 49 10000 in
  let a := AddPos NodeManagerExample.native (Some (NodeManagerExample.stake "01" 5000)) s in
  a.2 = Ok tt /\
  (peerPool a.1 !! 3) ≫= (.!! "01") =
    Some {| Index := 1; PeerPubkey := "01"; Address := NodeManagerExample.owner;
            Status_ := ConsensusStatus; Pos := 6000; LockPos := 0 |}.
Proof.
  intros s a.
  assert (Hok : a.2 = Ok tt) by (vm_compute; reflexivity).
  split; [exact Hok|].
  destruct (stake_calls_keep_the_active_set NodeManagerExample.native
              (Some (NodeManagerExample.stake "01" 5000)) s) as (_ & _ & H).
  destruct (H Hok) as (p & gv & pool & item & [= <-] & [= <-] & [= <-] & [= <-] & Hp).
  exact Hp.
Defined.

(** ** [ApproveCandidate] *)

(** An approval writes the index allocator, the node's index and the
    pool, and nothing else: whatever the outcome, the applications, the
    black list, the configurations and the balances are as before.  In
    particular the application stays on file after it is approved. *)
Theorem ApproveCandidate_keeps_application native input s :
  let r := ApproveCandidate native input s in
  peerApply r.1 = peerApply s /\
  blackList r.1 = blackList s /\
  vbftConfig r.1 = vbftConfig s /\
  preConfig r.1 = preConfig s /\
  balances r.1 = balances s.
Proof.
  cbv zeta. unfold ApproveCandidate.
  assert (Hsame : forall e : Result unit,
            peerApply (s, e).1 = peerApply s /\ blackList (s, e).1 = blackList s /\
            vbftConfig (s, e).1 = vbftConfig s /\ preConfig (s, e).1 = preConfig s /\
            balances (s, e).1 = balances s) by (intros; repeat split).
  destruct input as [p|]; mrun; [|apply Hsame].
  destruct (AddressFromBookkeepers native) as [op|]; mrun; [|apply Hsame].
  destruct (negb (ValidateOwner native op)); mrun; [apply Hsame|].
  astep. destruct (hex_DecodeString (ppPeerPubkey p)) as [prefix|]; [|apply Hsame].
  destruct (peerApply s !! prefix) as [peer|]; mrun; [|apply Hsame].
  astep. destruct (globalParam s) as [gp|]; [|apply Hsame].
  destruct (rpPos peer <? uint64 (MinInitStake gp)); mrun; [apply Hsame|].
  destruct (hex_DecodeString (rpPeerPubkey peer)) as [prefix'|]; mrun; [|apply Hsame].
  mrun.
  destruct (peerIndex s !! prefix') as [index|].
  - mrun. astep. destruct (governanceView s) as [gv|]; [|apply Hsame].
    astep. destruct (peerPool s !! View gv) as [pool|]; [|apply Hsame].
    mstep; [apply Hsame|]. unfold putPeerPoolMap. rewrite end_modify.
    repeat split.
  - rewrite run_assoc. astep. destruct (candidateIndex s) as [ci|]; [|apply Hsame].
    rewrite run_assoc, run_withErr. unfold putCandidateIndex. rewrite end_modify.
    rewrite run_assoc. mrun. mrun.
    astep. cbn [governanceView set_peerIndex set_candidateIndex].
    destruct (governanceView s) as [gv|]; [|repeat split].
    astep. cbn [peerPool set_peerIndex set_candidateIndex].
    destruct (peerPool s !! View gv) as [pool|]; [|repeat split].
    mstep; [repeat split|]. unfold putPeerPoolMap. rewrite end_modify.
    repeat split.
Qed.

(** The node an approval puts into the pool: the operator has
    witnessed the call, the application's stake is at least
    [MinInitStake], the node carries the application's key, address and
    stake with status Candidate and no locked stake, and its index is
    the one the key already had, the allocator untouched, or else the
    allocator's value, the allocator moved on by one. *)
Theorem ApproveCandidate_approved_node native input s s' :
  ApproveCandidate native input s = (s', Ok tt) ->
  exists p op prefix peer gp prefix' gv index,
    input = Some p /\
    AddressFromBookkeepers native = Some op /\
    CheckWitness native op = true /\
    hex_DecodeString (ppPeerPubkey p) = Some prefix /\
    peerApply s !! prefix = Some peer /\
    globalParam s = Some gp /\
    uint64 (MinInitStake gp) <= rpPos peer /\
    hex_DecodeString (rpPeerPubkey peer) = Some prefix' /\
    governanceView s = Some gv /\
    (peerPool s' !! View gv) ≫= (.!! ppPeerPubkey p) =
      Some {| Index := index; PeerPubkey := rpPeerPubkey peer;
              Address := rpAddress peer; Status_ := CandidateStatus;
              Pos := rpPos peer; LockPos := 0 |} /\
    match peerIndex s !! prefix' with
    | Some i =>
        index = i /\ candidateIndex s' = candidateIndex s /\ peerIndex s' = peerIndex s
    | None =>
        candidateIndex s = Some index /\
        candidateIndex s' = Some (uint32 (index + 1)) /\
        peerIndex s' = <[prefix' := index]> (peerIndex s)
    end.
Proof.
  unfold ApproveCandidate.
  destruct input as [p|]; mrun; [|discriminate].
  destruct (AddressFromBookkeepers native) as [op|] eqn:Hop; mrun; [|discriminate].
  destruct (negb (ValidateOwner native op)) eqn:Hw; mrun; [discriminate|].
  astep. destruct (hex_DecodeString (ppPeerPubkey p)) as [prefix|] eqn:Hpre;
    [|discriminate].
  destruct (peerApply s !! prefix) as [peer|] eqn:Hpeer; mrun; [|discriminate].
  astep. destruct (globalParam s) as [gp|] eqn:Hgp; [|discriminate].
  destruct (rpPos peer <? uint64 (MinInitStake gp)) eqn:Hst; mrun; [discriminate|].
  destruct (hex_DecodeString (rpPeerPubkey peer)) as [prefix'|] eqn:Hpre'; mrun;
    [|discriminate].
  mrun. unfold ValidateOwner in Hw. bool_hyps.
  destruct (peerIndex s !! prefix') as [index|] eqn:Hidx.
  - mrun. astep. destruct (governanceView s) as [gv|] eqn:Hgv; [|discriminate].
    astep. destruct (peerPool s !! View gv) as [pool|]; [|discriminate].
    mstep; [discriminate|]. unfold putPeerPoolMap. rewrite end_modify.
    intros [= <-]. exists p, op, prefix, peer, gp, prefix', gv, index.
    rewrite Hidx.
    repeat match goal with |- _ /\ _ => split end; try assumption; try reflexivity.
    cbn [peerPool set_peerPool]. rewrite lookup_insert_eq. cbn [mbind option_bind].
    apply lookup_insert_eq.
  - rewrite run_assoc. astep. destruct (candidateIndex s) as [ci|] eqn:Hci;
      [|discriminate].
    rewrite run_assoc, run_withErr. unfold putCandidateIndex. rewrite end_modify.
    rewrite run_assoc. mrun. mrun.
    astep. cbn [governanceView set_peerIndex set_candidateIndex].
    destruct (governanceView s) as [gv|] eqn:Hgv; [|discriminate].
    astep. cbn [peerPool set_peerIndex set_candidateIndex].
    destruct (peerPool s !! View gv) as [pool|]; [|discriminate].
    mstep; [discriminate|]. unfold putPeerPoolMap. rewrite end_modify.
    intros [= <-]. exists p, op, prefix, peer, gp, prefix', gv, ci.
    rewrite Hidx.
    repeat match goal with |- _ /\ _ => split end; try assumption; try reflexivity.
    cbn [peerPool set_peerPool set_peerIndex set_candidateIndex].
    rewrite lookup_insert_eq. cbn [mbind option_bind]. apply lookup_insert_eq.
Qed.

Lemma ApproveCandidate_approved_node_witness :
  let s := NodeManagerExample.applied (NodeManagerExample.store 9 49 0) in
  exists s',
    ApproveCandidate NodeManagerExample.native (Some (NodeManagerExample.approve "0b")) s =
      (s', Ok tt) /\
    (peerPool s' !! 3) ≫= (.!! "0b") =
      Some {| Index := 11; PeerPubkey := "0b"; Address := NodeManagerExample.owner;
              Status_ := CandidateStatus; Pos := 5000; LockPos := 0 |} /\
    candidateIndex s' = Some 12.
Proof.
  intros s.
  destruct (ApproveCandidate NodeManagerExample.native
              (Some (NodeManagerExample.approve "0b")) s) as [s' r] eqn:E.
  assert (r = Ok tt) as -> by (vm_compute in E; congruence).
  exists s'. split; [reflexivity|].
  destruct (ApproveCandidate_approved_node _ _ _ _ E)
    as (p & op & prefix & peer & gp & prefix' & gv & index & [= <-] & _ & _ & Hpre
        & Hpeer & _ & _ & Hpre' & Hgv & Hnode & Hidx).
  injection Hpre as <-. injection Hgv as <-.
  assert (peer = NodeManagerExample.stake "0b" 5000) as -> by
    (vm_compute in Hpeer; injection Hpeer as <-; reflexivity).
  injection Hpre' as <-.
  change (peerIndex s !! [x0b]) with (@None Z) in Hidx.
  destruct Hidx as (Hci & Hci' & _). injection Hci as <-.
  split; [exact Hnode | exact Hci'].
Defined.

(** ** Applications *)

(** A successful [RegisterCandidate], taken apart. *)
Lemma RegisterCandidate_Ok_inv native input s s' :
  RegisterCandidate native input s = (s', Ok tt) ->
  exists p prefix gv pool,
    input = Some p /\
    length (rpAddress p) = 20%nat /\
    CheckWitness native (rpAddress p) = true /\
    ValidatePeerPubKeyFormat native (rpPeerPubkey p) = true /\
    hex_DecodeString (rpPeerPubkey p) = Some prefix /\
    blackList s !! prefix = None /\
    peerApply s !! prefix = None /\
    governanceView s = Some gv /\
    peerPool s !! View gv = Some pool /\
    pool !! rpPeerPubkey p = None /\
    peerApply s' = <[prefix := p]> (peerApply s) /\
    peerPool s' = peerPool s /\
    blackList s' = blackList s.
Proof.
  unfold RegisterCandidate.
  destruct input as [p|]; mrun; [|discriminate].
  destruct (AddressParseFromBytes (rpAddress p)) as [address|] eqn:Ha; mrun;
    [|discriminate].
  apply AddressParseFromBytes_Some in Ha as [-> Hlen].
  destruct (negb (ValidateOwner native (rpAddress p))) eqn:Hw; mrun; [discriminate|].
  destruct (negb (ValidatePeerPubKeyFormat native (rpPeerPubkey p))) eqn:Hf; mrun;
    [discriminate|].
  destruct (hex_DecodeString (rpPeerPubkey p)) as [prefix|] eqn:Hpre; mrun;
    [|discriminate].
  mrun.
  destruct (bool_decide (is_Some (blackList s !! prefix))) eqn:Hbl; mrun; [discriminate|].
  astep. rewrite Hpre.
  destruct (bool_decide (is_Some (peerApply s !! prefix))) eqn:Hpa; mrun; [discriminate|].
  astep. destruct (governanceView s) as [gv|] eqn:Hgv; [|discriminate].
  astep. destruct (peerPool s !! View gv) as [pool|] eqn:Hpool; [|discriminate].
  destruct (bool_decide (is_Some (pool !! rpPeerPubkey p))) eqn:Hin; mrun; [discriminate|].
  rewrite run_withErr. unfold putPeerApply. rewrite Hpre. mrun. rewrite end_modify.
  rewrite end_withErr, appCallTransferOnt_run.
  match goal with |- context [ if ?b then _ else _ ] => destruct b end; [discriminate|].
  intros [= <-]. unfold ValidateOwner in Hw. bool_hyps.
  exists p, prefix, gv, pool.
  repeat match goal with |- _ /\ _ => split end; try assumption; try reflexivity.
  - destruct (blackList s !! prefix); [exfalso; eauto | reflexivity].
  - destruct (peerApply s !! prefix); [exfalso; eauto | reflexivity].
  - destruct (pool !! rpPeerPubkey p); [exfalso; eauto | reflexivity].
Qed.

(** What [RegisterCandidate] has checked when it succeeds: the caller
    witnesses the address, the key has the right format, it is not on
    the black list, has no application on file and is not in the pool
    of the current view; the call files the application under the
    decoded key and leaves pool and black list alone. *)
Theorem RegisterCandidate_admission native input s s' :
  RegisterCandidate native input s = (s', Ok tt) ->
  exists p prefix gv pool,
    input = Some p /\
    length (rpAddress p) = 20%nat /\
    CheckWitness native (rpAddress p) = true /\
    ValidatePeerPubKeyFormat native (rpPeerPubkey p) = true /\
    hex_DecodeString (rpPeerPubkey p) = Some prefix /\
    blackList s !! prefix = None /\
    peerApply s !! prefix = None /\
    governanceView s = Some gv /\
    peerPool s !! View gv = Some pool /\
    pool !! rpPeerPubkey p = None /\
    peerApply s' = <[prefix := p]> (peerApply s) /\
    peerPool s' = peerPool s /\
    blackList s' = blackList s.
Proof. apply RegisterCandidate_Ok_inv. Qed.

Lemma RegisterCandidate_admission_witness :
  exists s',
    RegisterCandidate NodeManagerExample.native (Some (NodeManagerExample.stake "0b" 5000))
      (NodeManagerExample.store 10 49 10000) = (s', Ok tt) /\
    peerApply s' = {[ [x0b] := NodeManagerExample.stake "0b" 5000 ]}.
Proof.
  destruct (RegisterCandidate NodeManagerExample.native
              (Some (NodeManagerExample.stake "0b" 5000))
              (NodeManagerExample.store 10 49 10000)) as [s' r] eqn:E.
  assert (r = Ok tt) as -> by (vm_compute in E; congruence).
  exists s'. split; [reflexivity|].
  destruct (RegisterCandidate_admission _ _ _ _ E)
    as (p & prefix & gv & pool & [= <-] & _ & _ & _ & [= <-] & _ & _ & _ & _ & _ & H & _).
  exact H.
Defined.

(** A key that is on the black list, has an application on file or is
    in the pool of the current view is never admitted. *)
Theorem RegisterCandidate_refused native p s prefix :
  hex_DecodeString (rpPeerPubkey p) = Some prefix ->
  is_Some (blackList s !! prefix) \/
  is_Some (peerApply s !! prefix) \/
  (exists gv pool, governanceView s = Some gv /\ peerPool s !! View gv = Some pool /\
                   is_Some (pool !! rpPeerPubkey p)) ->
  exists e, (RegisterCandidate native (Some p) s).2 = Err e.
Proof.
  intros Hpre Hbad.
  destruct (RegisterCandidate native (Some p) s) as [s' [[]|e]] eqn:E; [|eauto].
  exfalso.
  apply RegisterCandidate_Ok_inv in E
    as (p' & prefix' & gv & pool & [= <-] & _ & _ & _ & Hpre' & Hbl & Hpa & Hgv & Hpool
        & Hin & _).
  assert (prefix' = prefix) as -> by congruence.
  destruct Hbad as [[x Hx] | [[x Hx] | (gv' & pool' & Hgv' & Hpool' & [x Hx])]].
  - congruence.
  - congruence.
  - assert (gv' = gv) as -> by congruence.
    assert (pool' = pool) as -> by congruence. congruence.
Qed.

Lemma RegisterCandidate_refused_witness :
  exists e,
    (RegisterCandidate NodeManagerExample.native (Some (NodeManagerExample.stake "0B" 5000))
       (NodeManagerExample.applied (NodeManagerExample.store 10 49 10000))).2 = Err e.
Proof.
  apply (RegisterCandidate_refused NodeManagerExample.native
           (NodeManagerExample.stake "0B" 5000) _ [x0b]); [reflexivity|].
  right. left. eexists. reflexivity.
Defined.

(** The two ways an application is taken back, by its owner
    ([UnRegisterCandidate]) and by the operator ([RejectCandidate]):
    each succeeds only for an application on file, the first only for
    the address that filed it, and each deletes the application and
    leaves the pool alone. *)
Theorem application_removal native s s' :
  (forall input, UnRegisterCandidate native input s = (s', Ok tt) ->
     exists p prefix peer,
       input = Some p /\
       CheckWitness native (p2Address p) = true /\
       hex_DecodeString (p2PeerPubkey p) = Some prefix /\
       peerApply s !! prefix = Some peer /\
       rpAddress peer = p2Address p /\
       peerApply s' = delete prefix (peerApply s) /\
       peerPool s' = peerPool s) /\
  (forall input, RejectCandidate native input s = (s', Ok tt) ->
     exists p op prefix peer,
       input = Some p /\
       AddressFromBookkeepers native = Some op /\
       CheckWitness native op = true /\
       hex_DecodeString (ppPeerPubkey p) = Some prefix /\
       peerApply s !! prefix = Some peer /\
       peerApply s' = delete prefix (peerApply s) /\
       peerPool s' = peerPool s).
Proof.
  split; intros input.
  - unfold UnRegisterCandidate.
    destruct input as [p|]; mrun; [|discriminate].
    destruct (AddressParseFromBytes (p2Address p)) as [address|] eqn:Ha; mrun;
      [|discriminate].
    apply AddressParseFromBytes_Some in Ha as [-> Hlen].
    destruct (negb (ValidateOwner native (p2Address p))) eqn:Hw; mrun; [discriminate|].
    astep. destruct (hex_DecodeString (p2PeerPubkey p)) as [prefix|] eqn:Hpre;
      [|discriminate].
    destruct (peerApply s !! prefix) as [peer|] eqn:Hpeer; mrun; [|discriminate].
    destruct (negb (bytes_Equal (rpAddress peer) (p2Address p))) eqn:Ho; mrun;
      [discriminate|].
    mrun. mrun. rewrite end_withErr, appCallTransferOnt_run.
    match goal with |- context [ if ?b then _ else _ ] => destruct b end; [discriminate|].
    intros [= <-]. unfold ValidateOwner, bytes_Equal in *. bool_hyps.
    exists p, prefix, peer.
    repeat match goal with |- _ /\ _ => split end; try assumption; reflexivity.
  - unfold RejectCandidate.
    destruct input as [p|]; mrun; [|discriminate].
    destruct (AddressFromBookkeepers native) as [op|] eqn:Hop; mrun; [|discriminate].
    destruct (negb (ValidateOwner native op)) eqn:Hw; mrun; [discriminate|].
    astep. destruct (hex_DecodeString (ppPeerPubkey p)) as [prefix|] eqn:Hpre;
      [|discriminate].
    destruct (peerApply s !! prefix) as [peer|] eqn:Hpeer; mrun; [|discriminate].
    mrun. mrun.
    destruct (AddressParseFromBytes (rpAddress peer)) as [address|]; mrun;
      [|discriminate].
    rewrite end_withErr, appCallTransferOnt_run.
    match goal with |- context [ if ?b then _ else _ ] => destruct b end; [discriminate|].
    intros [= <-]. unfold ValidateOwner in *. bool_hyps.
    exists p, op, prefix, peer.
    repeat match goal with |- _ /\ _ => split end; try assumption; reflexivity.
Qed.

Lemma application_removal_witness :
  let s := (RegisterCandidate NodeManagerExample.native
              (Some (NodeManagerExample.stake "0b" 5000))
              (NodeManagerExample.store 10 49 10000)).1 in
  exists s',
    UnRegisterCandidate NodeManagerExample.native (Some (NodeManagerExample.quit "0b")) s =
      (s', Ok tt) /\
    peerApply s' = delete [x0b] (peerApply s).
Proof.
  intros s.
  destruct (UnRegisterCandidate NodeManagerExample.native
              (Some (NodeManagerExample.quit "0b")) s) as [s' r] eqn:E.
  assert (r = Ok tt) as -> by (vm_compute in E; congruence).
  exists s'. split; [reflexivity|].
  destruct (application_removal NodeManagerExample.native s s') as (H & _).
  destruct (H _ E) as (p & prefix & peer & [= <-] & _ & [= <-] & _ & _ & Hd & _).
  exact Hd.
Defined.

(** ** The black list *)

(** [WhiteNode] lifts the marker and nothing else: it succeeds only for
    the operator and a key that is on the black list, deletes that
    entry, and every other part of the store, the pool with the node's
    status Black among them, is as before. *)
Theorem WhiteNode_lifts_the_marker_only native input s s' :
  WhiteNode native input s = (s', Ok tt) ->
  exists p op prefix,
    input = Some p /\
    AddressFromBookkeepers native = Some op /\
    CheckWitness native op = true /\
    hex_DecodeString (ppPeerPubkey p) = Some prefix /\
    is_Some (blackList s !! prefix) /\
    s' = set_blackList (delete prefix (blackList s)) s /\
    peerPool s' = peerPool s.
Proof.
  unfold WhiteNode.
  destruct input as [p|]; mrun; [|discriminate].
  destruct (AddressFromBookkeepers native) as [op|] eqn:Hop; mrun; [|discriminate].
  destruct (negb (ValidateOwner native op)) eqn:Hw; mrun; [discriminate|].
  destruct (hex_DecodeString (ppPeerPubkey p)) as [prefix|] eqn:Hpre; mrun;
    [|discriminate].
  mrun.
  destruct (bool_decide (blackList s !! prefix = None)) eqn:Hbl; mrun; [discriminate|].
  rewrite end_modify. intros [= <-]. unfold ValidateOwner in *. bool_hyps.
  exists p, op, prefix.
  repeat match goal with |- _ /\ _ => split end; try assumption; try reflexivity.
  destruct (blackList s !! prefix); [eauto | contradiction].
Qed.

Lemma WhiteNode_lifts_the_marker_only_witness :
  let s := set_blackList
             {[ [x01] := {| blPeerPubkey := "01"; blAddress := NodeManagerExample.owner;
                            blPos := 1000 |} ]}
             (NodeManagerExample.store 10 49 0) in
  exists s',
    WhiteNode NodeManagerExample.native (Some (NodeManagerExample.approve "01")) s =
      (s', Ok tt) /\
    blackList s' !! [x01] = None /\ peerPool s' = peerPool s.
Proof.
  intros s.
  destruct (WhiteNode NodeManagerExample.native (Some (NodeManagerExample.approve "01")) s)
    as [s' r] eqn:E.
  assert (r = Ok tt) as -> by (vm_compute in E; congruence).
  exists s'. split; [reflexivity|].
  destruct (WhiteNode_lifts_the_marker_only _ _ _ _ E)
    as (p & op & prefix & [= <-] & _ & _ & [= <-] & _ & -> & Hp).
  split; [|exact Hp]. cbn [blackList set_blackList]. apply lookup_delete_eq.
Defined.

(** The loop of [BlackNode], lines 505-531. *)
Lemma blackLoop_spec pubkeys : forall pool commit s s' pool' commit',
  blackLoop pubkeys pool commit s = (s', Ok (pool', commit')) ->
  (forall pk, pk ∈ pubkeys -> Status_ <$> pool' !! pk = Some BlackStatus) /\
  (forall pk, pk ∉ pubkeys -> pool' !! pk = pool !! pk) /\
  (commit' = true <->
   commit = true \/
   exists pk, pk ∈ pubkeys /\ Status_ <$> pool !! pk = Some ConsensusStatus) /\
  (forall pk, pk ∈ pubkeys ->
     exists prefix, hex_DecodeString pk = Some prefix /\ is_Some (blackList s' !! prefix)) /\
  (forall k, is_Some (blackList s !! k) -> is_Some (blackList s' !! k)) /\
  peerPool s' = peerPool s /\
  governanceView s' = governanceView s.
Proof.
  induction pubkeys as [|pk rest IH]; intros pool commit s s' pool' commit'.
  - cbn [blackLoop]. rewrite end_ret. intros [= <- <- <-].
    repeat split; try (intros ? H; inversion H; fail); auto.
    + intros [H | (pk & H & _)]; [exact H | inversion H].
  - cbn [blackLoop].
    destruct (hex_DecodeString pk) as [prefix|] eqn:Hpre; mrun; [|discriminate].
    destruct (pool !! pk) as [item|] eqn:Hitem; mrun; [|discriminate].
    cbv zeta. mrun. intros E.
    apply IH in E as (Hblack & Hother & Hcommit & Hlist & Hmono & Hpp & Hgv).
    cbn [blackList peerPool governanceView set_blackList] in *.
    split; [|split; [|split; [|split; [|split; [|split]]]]].
    + intros pk' Hin. destruct (decide (pk' ∈ rest)) as [Hr|Hr]; [apply Hblack, Hr|].
      apply elem_of_cons in Hin as [-> | Hin]; [|contradiction].
      rewrite (Hother pk Hr), lookup_insert_eq. reflexivity.
    + intros pk' Hnot. apply not_elem_of_cons in Hnot as [Hne Hnot].
      rewrite (Hother pk' Hnot). apply lookup_insert_ne. congruence.
    + rewrite Hcommit. split.
      * intros [Hc | (pk' & Hin & Hst)].
        -- apply orb_true_iff in Hc as [Hc | Hc]; [left; exact Hc|].
           apply bool_decide_eq_true in Hc. right. exists pk.
           split; [left|]. rewrite Hitem. cbn. congruence.
        -- right. exists pk'. split; [right; exact Hin|].
           destruct (decide (pk' = pk)) as [->|Hne].
           ++ rewrite lookup_insert_eq in Hst. discriminate.
           ++ rewrite lookup_insert_ne in Hst by congruence. exact Hst.
      * intros [Hc | (pk' & Hin & Hst)].
        -- left. rewrite Hc. reflexivity.
        -- destruct (decide (pk' = pk)) as [->|Hne].
           ++ left. rewrite Hitem in Hst. injection Hst as Hst.
              rewrite (bool_decide_eq_true_2 _ Hst). apply orb_true_r.
           ++ apply elem_of_cons in Hin as [-> | Hin]; [contradiction|].
              right. exists pk'. split; [exact Hin|].
              rewrite lookup_insert_ne by congruence. exact Hst.
    + intros pk' Hin. apply elem_of_cons in Hin as [-> | Hin]; [|apply Hlist, Hin].
      exists prefix. split; [exact Hpre|]. apply Hmono. rewrite lookup_insert_eq. eauto.
    + intros k Hk. apply Hmono. destruct (decide (prefix = k)) as [->|Hne].
      * rewrite lookup_insert_eq. eauto.
      * rewrite lookup_insert_ne by exact Hne. exact Hk.
    + exact Hpp.
    + exact Hgv.
Qed.

(** [BlackNode], when it succeeds: every listed node is in the pool of
    the current view with status Black and has an entry on the black
    list, the other nodes of the pool are as before, and the epoch
    rollover is run, on the store with these writes, exactly when one of
    the listed nodes had status Consensus. *)
Theorem BlackNode_effects executeCommitDpos native input s s' :
  BlackNode executeCommitDpos native input s = (s', Ok tt) ->
  exists params op gv pool pool' s1,
    input = Some params /\
    AddressFromBookkeepers native = Some op /\
    CheckWitness native op = true /\
    governanceView s = Some gv /\
    peerPool s !! View gv = Some pool /\
    peerPool s1 !! View gv = Some pool' /\
    (forall pk, pk ∈ PeerPubkeyList params ->
       Status_ <$> pool' !! pk = Some BlackStatus /\
       exists prefix, hex_DecodeString pk = Some prefix /\
                      is_Some (blackList s1 !! prefix)) /\
    (forall pk, pk ∉ PeerPubkeyList params -> pool' !! pk = pool !! pk) /\
    ((exists pk, pk ∈ PeerPubkeyList params /\
                 Status_ <$> pool !! pk = Some ConsensusStatus) ->
     executeCommitDpos native s1 = (s', Ok tt)) /\
    ((forall pk, pk ∈ PeerPubkeyList params ->
                 Status_ <$> pool !! pk <> Some ConsensusStatus) ->
     s' = s1).
Proof.
  unfold BlackNode.
  destruct input as [params|]; mrun; [|discriminate].
  destruct (AddressFromBookkeepers native) as [op|] eqn:Hop; mrun; [|discriminate].
  destruct (negb (ValidateOwner native op)) eqn:Hw; mrun; [discriminate|].
  astep. destruct (governanceView s) as [gv|] eqn:Hgv; [|discriminate].
  astep. destruct (peerPool s !! View gv) as [pool|] eqn:Hpool; [|discriminate].
  rewrite run_bind.
  destruct (blackLoop (PeerPubkeyList params) pool false s) as [s0 [[pool' commit]|e]] eqn:E;
    [|discriminate].
  apply blackLoop_spec in E as (Hblack & Hother & Hcommit & Hlist & _ & Hpp & Hgv').
  unfold putPeerPoolMap. cbn [fst snd]. mrun.
  set (s1 := set_peerPool (<[View gv := pool']> (peerPool s0)) s0).
  unfold ValidateOwner in Hw. bool_hyps.
  assert (Hs1 : forall pk, pk ∈ PeerPubkeyList params ->
            Status_ <$> pool' !! pk = Some BlackStatus /\
            exists prefix, hex_DecodeString pk = Some prefix /\
                           is_Some (blackList s1 !! prefix)).
  { intros pk Hin. split; [apply Hblack, Hin|]. apply Hlist, Hin. }
  destruct commit.
  - rewrite end_withErr.
    destruct (executeCommitDpos native s1) as [s2 [[]|e]] eqn:Ec; [|discriminate].
    intros [= <-]. exists params, op, gv, pool, pool', s1.
    repeat match goal with |- _ /\ _ => split end; try assumption; try reflexivity.
    + unfold s1. cbn [peerPool set_peerPool]. apply lookup_insert_eq.
    + intros _. exact Ec.
    + intros Hnone. exfalso.
      destruct Hcommit as [Hc _]. destruct (Hc eq_refl) as [Hc' | (pk & Hin & Hst)];
        [discriminate|]. exact (Hnone pk Hin Hst).
  - rewrite end_ret. intros [= <-]. exists params, op, gv, pool, pool', s1.
    repeat match goal with |- _ /\ _ => split end; try assumption; try reflexivity.
    + unfold s1. cbn [peerPool set_peerPool]. apply lookup_insert_eq.
    + intros Hex. destruct Hcommit as [_ Hc]. discriminate Hc. right. exact Hex.
Qed.

Lemma BlackNode_effects_witness :
  let s := (QuitNode NodeManagerExample.native (Some (NodeManagerExample.quit "01"))
              (NodeManagerExample.store 10 49 0)).1 in
  exists s',
    BlackNode (fun _ => mret tt) NodeManagerExample.native
      (Some {| PeerPubkeyList := ["01"] |}) s = (s', Ok tt) /\
    Status_ <$> ((peerPool s' !! 3) ≫= (.!! "01")) = Some BlackStatus /\
    is_Some (blackList s' !! [x01]).
Proof.
  intros s.
  destruct (BlackNode (fun _ => mret tt) NodeManagerExample.native
              (Some {| PeerPubkeyList := ["01"] |}) s) as [s' r] eqn:E.
  assert (r = Ok tt) as -> by (vm_compute in E; congruence).
  exists s'. split; [reflexivity|].
  destruct (BlackNode_effects _ _ _ _ _ E)
    as (params & op & gv & pool & pool' & s1 & [= <-] & _ & _ & Hgv & Hpool & Hp1 & Hl
        & _ & _ & Hno).
  vm_compute in Hgv. injection Hgv as <-.
  assert (Hs : s' = s1).
  { apply Hno. intros pk Hin. apply list_elem_of_singleton in Hin as ->.
    vm_compute in Hpool. injection Hpool as <-. vm_compute. discriminate. }
  subst s'. cbn [View] in Hp1. rewrite Hp1. cbn [mbind option_bind].
  destruct (Hl "01") as (Hb & prefix & [= <-] & Hbl); [left|].
  split; [exact Hb | exact Hbl].
Defined.

(** ** [CommitDpos] *)

(** Who may commit.  A caller that is not witnessed as the operator is
    turned down, the store untouched, while fewer than
    [MaxBlockChangeView] blocks have passed since the view was set (the
    difference of the heights in [uint32]); with the operator's witness,
    or once that many blocks have passed, the call is the epoch
    rollover itself. *)
Theorem CommitDpos_authorization executeCommitDpos native s config gv op :
  vbftConfig s = Some config ->
  governanceView s = Some gv ->
  AddressFromBookkeepers native = Some op ->
  let elapsed := uint32 (GetHeight native - gvHeight gv) in
  (CheckWitness native op = false -> elapsed < MaxBlockChangeView config ->
   CommitDpos executeCommitDpos native s = (s, Err "commitDpos, authentication Failed")) /\
  (CheckWitness native op = true \/ MaxBlockChangeView config <= elapsed ->
   CommitDpos executeCommitDpos native s =
     withErr (executeCommitDpos native) "executeCommitDpos, executeCommitDpos error" s).
Proof.
  intros Hc Hgv Hop elapsed. unfold CommitDpos.
  split.
  - intros Hw Hlt. astep. rewrite Hc. astep. rewrite Hgv. rewrite Hop; mrun.
    cbv zeta. unfold ValidateOwner. rewrite Hw. cbn [negb].
    fold elapsed. destruct (elapsed >=? MaxBlockChangeView config) eqn:G; [lia|].
    cbn [negb andb]. mrun. reflexivity.
  - intros Hor. astep. rewrite Hc. astep. rewrite Hgv. rewrite Hop; mrun.
    cbv zeta. unfold ValidateOwner. fold elapsed.
    assert (negb (CheckWitness native op) &&
            negb (elapsed >=? MaxBlockChangeView config) = false) as ->.
    { destruct Hor as [-> | Hge]; [reflexivity|].
      destruct (elapsed >=? MaxBlockChangeView config) eqn:G; [|lia].
      apply andb_false_r. }
    mrun. reflexivity.
Qed.

Lemma CommitDpos_authorization_witness :
  let stranger := {| CheckWitness a := false;
                     AddressFromBookkeepers := Some NodeManagerExample.operator;
                     GetHeight := 10;
                     ValidatePeerPubKeyFormat pk := true;
                     NodeManagerContractAddress := NodeManagerExample.contract |} in
  CommitDpos (fun _ => mret tt) stranger (NodeManagerExample.store 10 49 0) =
    (NodeManagerExample.store 10 49 0, Err "commitDpos, authentication Failed").
Proof.
  intros stranger.
  destruct (CommitDpos_authorization (fun _ => mret tt) stranger
              (NodeManagerExample.store 10 49 0) NodeManagerExample.config7
              {| View := 3; gvHeight := 1; gvTxHash := [] |} NodeManagerExample.operator)
    as (H & _); [reflexivity | reflexivity | reflexivity |].
  apply H; [reflexivity | vm_compute; reflexivity].
Defined.
End Governance.
